(** * BusDriver: connection storage and bulk message move/delete

    A shallow embedding of the orchestration code of the BusDriver
    extension (providers/ConnectionsProvider.ts and the message handler of
    providers/QueueMessagesPanel.ts), together with the properties of the
    persisted connection metadata and of the bulk move / delete loops. *)

From Stdlib Require Import String Ascii List ZArith Lia Bool DecimalString.
From stdpp Require Import gmap strings.
Import ListNotations.

Local Open Scope string_scope.
Local Open Scope list_scope.

(** ** JavaScript strings and thrown values *)

Module Js.

(** White space removed by [String.prototype.trim], restricted to the
    one-byte characters: TAB, LF, VT, FF, CR and SPACE. *)
Definition is_ws (a : ascii) : bool :=
  let n := nat_of_ascii a in
  (Nat.eqb n 9 || Nat.eqb n 10 || Nat.eqb n 11 || Nat.eqb n 12
   || Nat.eqb n 13 || Nat.eqb n 32)%bool.

Fixpoint trimStart (s : string) : string :=
  match s with
  | EmptyString => EmptyString
  | String a r => if is_ws a then trimStart r else s
  end.

Fixpoint trimEnd (s : string) : string :=
  match s with
  | EmptyString => EmptyString
  | String a r =>
      match trimEnd r with
      | EmptyString => if is_ws a then EmptyString else String a EmptyString
      | r' => String a r'
      end
  end.

Definition trim (s : string) : string := trimEnd (trimStart s).

(** Truthiness of a value of type [string | undefined]. *)
Definition truthy (o : option string) : bool :=
  match o with
  | Some s => negb (String.eqb s "")
  | None => false
  end.

(** A value raised by [throw]: an [Error] object with its message, or any
    other value together with what [String(value)] yields for it. *)
Inductive Thrown : Type :=
| ErrorObj (message : string)
| OtherValue (asString : string).

(** [error instanceof Error ? error.message : String(error)] *)
Definition errorMessage (e : Thrown) : string :=
  match e with
  | ErrorObj m => m
  | OtherValue s => s
  end.

(** [n.toString()] for an integer. *)
Definition intToString (z : Z) : string := NilZero.string_of_int (Z.to_int z).
Definition natToString (n : nat) : string := intToString (Z.of_nat n).

(** [xs.join(sep)] *)
Fixpoint join (sep : string) (xs : list string) : string :=
  match xs with
  | [] => ""
  | [x] => x
  | x :: rest => x +:+ sep +:+ join sep rest
  end.

End Js.

(** ** models/Connection.ts, models/Queue.ts *)

Module Connection.
Record t : Type := mk {
  id : string;
  name : string;
  connectionString : string;
  createdAt : Z
}.
End Connection.

Module Queue.
Record t : Type := mk {
  name : string;
  connectionId : string
}.
End Queue.

(** ** Connection persistence (ConnectionsProvider) *)

Module Store.

(** The provider's in-memory list, the host's secret storage and the value
    kept under the key [connections] of the host's global state. *)
Record State : Type := mkState {
  connections : list Connection.t;
  secrets : gmap string string;
  globalState : list Connection.t
}.

Definition secretKey (connId : string) : string := "connection." +:+ connId.

(** The object literal built by [saveConnections] for the global state. *)
Definition toStore (c : Connection.t) : Connection.t :=
  {| Connection.id := Connection.id c; Connection.name := Connection.name c;
     Connection.connectionString := ""; Connection.createdAt := Connection.createdAt c |}.

Definition storeSecrets (conns : list Connection.t) (sec : gmap string string)
  : gmap string string :=
  fold_left (fun acc conn => <[secretKey (Connection.id conn) := Connection.connectionString conn]> acc)
            conns sec.

Definition saveConnections (s : State) : State :=
  {| connections := connections s;
     secrets := storeSecrets (connections s) (secrets s);
     globalState := map toStore (connections s) |}.

Definition getConnectionString (connId : string) (s : State) : option string :=
  secrets s !! secretKey connId.

(** [loadConnections], run by the constructor. *)
Definition loadConnections (s : State) : State :=
  {| connections := globalState s;
     secrets := secrets s;
     globalState := globalState s |}.

(** [addConnection]; the two input boxes' results, the generated id and the
    current time are the inputs. *)
Definition addConnection (nameBox csBox : option string) (newId : string)
    (now : Z) (s : State) : State :=
  match nameBox with
  | Some nm =>
      if Js.truthy nameBox then
        match csBox with
        | Some cs =>
            if Js.truthy csBox then
              let connection :=
                {| Connection.id := newId; Connection.name := Js.trim nm;
                   Connection.connectionString := Js.trim cs;
                   Connection.createdAt := now |} in
              saveConnections
                {| connections := connections s ++ [connection];
                   secrets := secrets s;
                   globalState := globalState s |}
            else s
        | None => s
        end
      else s
  | None => s
  end.

(** [deleteConnection]; [confirm] is the button the modal returned. *)
Definition deleteConnection (item : Connection.t) (confirm : option string)
    (s : State) : State :=
  match confirm with
  | Some label =>
      if String.eqb label "Delete" then
        saveConnections
          {| connections :=
               List.filter (fun c => negb (String.eqb (Connection.id c) (Connection.id item)))
                      (connections s);
             secrets := secrets s;
             globalState := globalState s |}
      else s
  | None => s
  end.

Definition initial : State :=
  {| connections := []; secrets := ∅; globalState := [] |}.

Inductive Op : Type :=
| OpActivate
| OpAdd (nameBox csBox : option string) (newId : string) (now : Z)
| OpDelete (item : Connection.t) (confirm : option string).

Definition step (o : Op) (s : State) : State :=
  match o with
  | OpActivate => loadConnections s
  | OpAdd n c i t => addConnection n c i t s
  | OpDelete item confirm => deleteConnection item confirm s
  end.

Inductive reachable : State -> Prop :=
| reach_initial : reachable initial
| reach_step o s : reachable s -> reachable (step o s).

(** The metadata object holds no secret. *)
Definition metadataClean (s : State) : Prop :=
  Forall (fun c => Connection.connectionString c = "") (globalState s).

(** Every entry of the secret store sits under [connection.<id>]. *)
Definition secretsKeyed (s : State) : Prop :=
  forall k v, secrets s !! k = Some v -> exists connId, k = secretKey connId.

End Store.

(** ** Message snapshots (QueueMessagesPanel.ts) and SDK messages *)

(** A value of type [unknown] held in a message's application properties. *)
Inductive PropValue : Type :=
| PStr (s : string)
| PNum (z : Z)
| PBool (b : bool)
| PNull.

Module MessageData.
Record t : Type := mk {
  sequenceNumber : string;
  messageId : string;
  body : string;
  properties : gmap string PropValue;
  enqueuedTime : string;
  deliveryCount : Z;
  sourceQueue : option Queue.t;
  sourceConnectionString : option string
}.
End MessageData.

(** [MessageData | MessageData[]] and its normalisation
    [Array.isArray(messageData) ? messageData : [messageData]]. *)
Inductive MessageArg : Type :=
| One (m : MessageData.t)
| Many (ms : list MessageData.t).

Definition normalize (messageData : MessageArg) : list MessageData.t :=
  match messageData with
  | One m => [m]
  | Many ms => ms
  end.

(** The message object handed to [sender.sendMessages]. *)
Record ServiceBusMessage : Type := mkServiceBusMessage {
  sbBody : string;
  sbMessageId : string;
  applicationProperties : gmap string PropValue
}.

(** The part of a [ServiceBusReceivedMessage] the scan looks at. *)
Record Received : Type := mkReceived {
  rSequenceNumber : option Z;
  rMessageId : option string;
  rBody : string
}.

(** [message.sequenceNumber?.toString() === sequenceNumber] *)
Definition seqMatches (message : Received) (sequenceNumber : string) : bool :=
  match rSequenceNumber message with
  | Some n => String.eqb (Js.intToString n) sequenceNumber
  | None => false
  end.

(** ** The Service Bus SDK as seen by the extension *)

(** SDK calls that yield no value.  A client is identified by its
    connection string, a sender or receiver by the connection string and the
    queue name it was created for. *)
Inductive Call : Type :=
| NewClient (cs : string)
| CreateSender (cs q : string)
| CreateReceiver (cs q : string)
| SendMessages (cs q : string) (m : ServiceBusMessage)
| CompleteMessage (cs q : string) (m : Received)
| AbandonMessage (cs q : string) (m : Received)
| CloseSender (cs q : string)
| CloseReceiver (cs q : string)
| CloseClient (cs : string).

(** What the extension did, in order: SDK calls with what they answered,
    and the host UI calls.  [EvRefreshView] is the redraw of the panel as a
    whole ([refreshView], [_update]): the peek of the panel's own queue that
    the redraw makes, through a client and a receiver of its own, belongs to
    it and is not listed call by call. *)
Inductive Event : Type :=
| EvCall (c : Call) (threw : option Js.Thrown)
| EvReceive (cs q : string) (maxMessageCount maxWaitTimeInMs : nat)
    (answer : Js.Thrown + list Received)
| EvProgress (title : string)
| EvShowInformation (text : string)
| EvShowWarning (text : string)
| EvShowError (text : string)
| EvNotifyMessageRemoved (sequenceNumber : string)
| EvRefreshView
| EvRefreshTree.

(** The broker behind the SDK: any state type with any behaviour. *)
Record Sdk (W : Type) : Type := mkSdk {
  invoke : Call -> W -> W * option Js.Thrown;
  receiveMessages :
    string -> string -> nat -> nat -> W -> W * (Js.Thrown + list Received)
}.
Arguments invoke {W} _ _ _.
Arguments receiveMessages {W} _ _ _ _ _ _.

(** How a block ends. *)
Inductive Completion (A : Type) : Type :=
| Normal (a : A)
| Abrupt (e : Js.Thrown).
Arguments Normal {A} a.
Arguments Abrupt {A} e.

(** Outcome of a bulk operation: the local [results] object. *)
Record Results : Type := mkResults {
  successful : list MessageData.t;
  failed : list (MessageData.t * string)
}.

Definition pushSuccessful (r : Results) (msg : MessageData.t) : Results :=
  {| successful := successful r ++ [msg]; failed := failed r |}.

Definition pushFailed (r : Results) (msg : MessageData.t) (error : string) : Results :=
  {| successful := successful r; failed := failed r ++ [(msg, error)] |}.

Definition emptyResults : Results := {| successful := []; failed := [] |}.

(** ** Computations: broker state, event log, exceptions *)

Module M.
Section Monad.
Context {W : Type}.

Definition t (A : Type) : Type := W -> W * list Event * Completion A.

(** The three parts of a finished run. *)
Definition world {A} (r : W * list Event * Completion A) : W := fst (fst r).
Definition log {A} (r : W * list Event * Completion A) : list Event := snd (fst r).
Definition completion {A} (r : W * list Event * Completion A) : Completion A := snd r.

Definition succeeded {A} (r : W * list Event * Completion A) : bool :=
  match completion r with
  | Normal _ => true
  | Abrupt _ => false
  end.

Definition ret {A} (a : A) : t A := fun w => (w, [], Normal a).

Definition throw {A} (e : Js.Thrown) : t A := fun w => (w, [], Abrupt e).

Definition bind {A B} (c : t A) (k : A -> t B) : t B :=
  fun w =>
    match c w with
    | (w1, ev1, Normal a) =>
        match k a w1 with
        | (w2, ev2, r) => (w2, ev1 ++ ev2, r)
        end
    | (w1, ev1, Abrupt e) => (w1, ev1, Abrupt e)
    end.

(** [try { body } catch (error) { handler }] *)
Definition tryCatch {A} (body : t A) (handler : Js.Thrown -> t A) : t A :=
  fun w =>
    match body w with
    | (w1, ev1, Normal a) => (w1, ev1, Normal a)
    | (w1, ev1, Abrupt e) =>
        match handler e w1 with
        | (w2, ev2, r) => (w2, ev1 ++ ev2, r)
        end
    end.

(** [try { body } finally { cleanup }]: the cleanup always runs, and an
    exception it raises replaces the body's completion. *)
Definition tryFinally {A} (body : t A) (cleanup : t unit) : t A :=
  fun w =>
    match body w with
    | (w1, ev1, r) =>
        match cleanup w1 with
        | (w2, ev2, Normal _) => (w2, ev1 ++ ev2, r)
        | (w2, ev2, Abrupt e) => (w2, ev1 ++ ev2, Abrupt e)
        end
    end.

Definition emit (e : Event) : t unit := fun w => (w, [e], Normal tt).

Definition call (sdk : Sdk W) (c : Call) : t unit :=
  fun w =>
    match invoke sdk c w with
    | (w1, None) => (w1, [EvCall c None], Normal tt)
    | (w1, Some e) => (w1, [EvCall c (Some e)], Abrupt e)
    end.

Definition receive (sdk : Sdk W) (cs q : string) (maxMessageCount maxWait : nat)
  : t (list Received) :=
  fun w =>
    match receiveMessages sdk cs q maxMessageCount maxWait w with
    | (w1, inr msgs) =>
        (w1, [EvReceive cs q maxMessageCount maxWait (inr msgs)], Normal msgs)
    | (w1, inl e) =>
        (w1, [EvReceive cs q maxMessageCount maxWait (inl e)], Abrupt e)
    end.

End Monad.
End M.

Declare Scope bus_scope.
Delimit Scope bus_scope with bus.
Notation "'let*' x ':=' c 'in' k" := (M.bind c (fun x => k))
  (at level 10, x name, c at level 100, k at level 200) : bus_scope.
Notation "c ';;;' k" := (M.bind c (fun _ => k))
  (at level 100, k at level 200, right associativity) : bus_scope.
Local Open Scope bus_scope.

(** ** ConnectionsProvider: sending, scanning, bulk move and delete *)

Module Provider.
Section WithSdk.
Context {W : Type} (sdk : Sdk W).

(** The message literal built by [sendMessageToQueue]: the spread of the
    original properties followed by the three [original...] keys. *)
Definition outgoing (messageData : MessageData.t) : ServiceBusMessage :=
  {| sbBody := MessageData.body messageData;
     sbMessageId := MessageData.messageId messageData;
     applicationProperties :=
       <["originalSequenceNumber" := PStr (MessageData.sequenceNumber messageData)]>
       (<["originalDeliveryCount" := PNum (MessageData.deliveryCount messageData)]>
       (<["originalEnqueuedTime" := PStr (MessageData.enqueuedTime messageData)]>
         (MessageData.properties messageData))) |}.

Definition sendMessageToQueue (queueName connectionString : string)
    (messageData : MessageData.t) : M.t unit :=
  M.call sdk (NewClient connectionString) ;;;
  M.call sdk (CreateSender connectionString queueName) ;;;
  M.tryFinally
    (M.call sdk (SendMessages connectionString queueName (outgoing messageData)))
    (M.call sdk (CloseSender connectionString queueName) ;;;
     M.call sdk (CloseClient connectionString)).

Definition maxAttempts : nat := 5.

(** The inner [for (const message of messages)] of the scan. *)
Fixpoint scanBatch (queueName connectionString sequenceNumber : string)
    (messages : list Received) (found : bool) : M.t bool :=
  match messages with
  | [] => M.ret found
  | message :: rest =>
      if seqMatches message sequenceNumber then
        M.call sdk (CompleteMessage connectionString queueName message) ;;;
        scanBatch queueName connectionString sequenceNumber rest true
      else
        M.call sdk (AbandonMessage connectionString queueName message) ;;;
        scanBatch queueName connectionString sequenceNumber rest found
  end.

(** The outer [for (attempt = 0; attempt < maxAttempts && !found; attempt++)],
    by the number of attempts still allowed. *)
Fixpoint scanAttempts (queueName connectionString sequenceNumber : string)
    (remaining : nat) (found : bool) : M.t bool :=
  match remaining with
  | O => M.ret found
  | S remaining' =>
      if found then M.ret found
      else
        let* messages := M.receive sdk connectionString queueName 100 5000 in
        let* found' :=
          scanBatch queueName connectionString sequenceNumber messages found in
        if (negb found' && Nat.eqb (length messages) 0)%bool then M.ret found'
        else scanAttempts queueName connectionString sequenceNumber remaining' found'
  end.

Definition notFound (sequenceNumber : string) : Js.Thrown :=
  Js.ErrorObj ("Message " +:+ sequenceNumber +:+ " not found in queue").

Definition deleteMessageFromQueue (queueName connectionString sequenceNumber : string)
  : M.t unit :=
  M.call sdk (NewClient connectionString) ;;;
  M.call sdk (CreateReceiver connectionString queueName) ;;;
  M.tryFinally
    (let* found :=
       scanAttempts queueName connectionString sequenceNumber maxAttempts false in
     if found then M.ret tt else M.throw (notFound sequenceNumber))
    (M.call sdk (CloseReceiver connectionString queueName) ;;;
     M.call sdk (CloseClient connectionString)).

(** The [try] block of the loop of [moveMessageToQueue], up to the push. *)
Definition moveAttempt (targetName connectionString : string)
    (msg : MessageData.t) : M.t unit :=
  sendMessageToQueue targetName connectionString msg ;;;
  match MessageData.sourceQueue msg, MessageData.sourceConnectionString msg with
  | Some sq, Some scs =>
      if Js.truthy (Some scs) then
        deleteMessageFromQueue (Queue.name sq) scs (MessageData.sequenceNumber msg)
      else M.ret tt
  | _, _ => M.ret tt
  end.

(** One turn of the loop of [moveMessageToQueue]. *)
Definition moveOne (targetName connectionString : string) (results : Results)
    (msg : MessageData.t) : M.t Results :=
  M.tryCatch
    (moveAttempt targetName connectionString msg ;;;
     M.ret (pushSuccessful results msg))
    (fun error => M.ret (pushFailed results msg (Js.errorMessage error))).

Fixpoint moveLoop (targetName connectionString : string)
    (messages : list MessageData.t) (results : Results) : M.t Results :=
  match messages with
  | [] => M.ret results
  | msg :: rest =>
      let* results' := moveOne targetName connectionString results msg in
      moveLoop targetName connectionString rest results'
  end.

Definition failedIds (results : Results) : string :=
  Js.join ", " (map (fun f => MessageData.messageId (fst f)) (failed results)).

Definition failedIdsWithReason (results : Results) : string :=
  Js.join ", "
    (map (fun f => MessageData.messageId (fst f) +:+ " (" +:+ snd f +:+ ")")
         (failed results)).

Definition moveSummary (messageCount : nat) (targetName : string)
    (results : Results) : Event :=
  if Nat.eqb (length (failed results)) 0 then
    EvShowInformation
      (if Nat.ltb 1 messageCount
       then "Successfully moved " +:+ Js.natToString messageCount
            +:+ " messages to " +:+ targetName
       else "Message moved to " +:+ targetName)
  else if Nat.eqb (length (successful results)) 0 then
    EvShowError
      ("Failed to move " +:+ Js.natToString messageCount +:+ " message(s) to "
       +:+ targetName +:+ ". IDs: " +:+ failedIds results)
  else
    EvShowWarning
      ("Moved " +:+ Js.natToString (length (successful results)) +:+ " of "
       +:+ Js.natToString messageCount +:+ " messages to " +:+ targetName +:+ ". "
       +:+ "Failed: " +:+ failedIdsWithReason results).

Fixpoint notifyRemoved (messages : list MessageData.t) : M.t (W := W) unit :=
  match messages with
  | [] => M.ret tt
  | msg :: rest =>
      M.emit (EvNotifyMessageRemoved (MessageData.sequenceNumber msg)) ;;;
      notifyRemoved rest
  end.

(** [moveMessageToQueue].  [st] is the connection store it reads the target's
    secret from, [panelOpen] says whether [QueueMessagesPanel.currentPanel]
    is set.  The local [results] object is returned so that it can be
    observed ([None] when the method returns before the loop).  The
    [progress.report] calls are presentation only and are left out. *)
Definition moveMessageToQueue (st : Store.State) (panelOpen : bool)
    (messageData : MessageArg) (targetQueue : Queue.t) : M.t (option Results) :=
  match Store.getConnectionString (Queue.connectionId targetQueue) st with
  | Some connectionString =>
      if Js.truthy (Some connectionString) then
        let messages := normalize messageData in
        let messageCount := length messages in
        M.emit (EvProgress
                  (if Nat.ltb 1 messageCount
                   then "Moving " +:+ Js.natToString messageCount +:+ " messages to "
                        +:+ Queue.name targetQueue +:+ "..."
                   else "Moving message to " +:+ Queue.name targetQueue +:+ "...")) ;;;
        let* results :=
          moveLoop (Queue.name targetQueue) connectionString messages emptyResults in
        M.emit (moveSummary messageCount (Queue.name targetQueue) results) ;;;
        (if (panelOpen && Nat.ltb 0 (length (successful results)))%bool
         then notifyRemoved (successful results) else M.ret tt) ;;;
        M.emit EvRefreshTree ;;;
        M.ret (Some results)
      else
        M.emit (EvShowError "Connection string not found for target queue") ;;;
        M.ret None
  | None =>
      M.emit (EvShowError "Connection string not found for target queue") ;;;
      M.ret None
  end.

(** The [try] block of the loop of [deleteMessages], up to the push. *)
Definition deleteAttempt (queueName : string) (msg : MessageData.t) : M.t unit :=
  match MessageData.sourceConnectionString msg with
  | Some scs =>
      if Js.truthy (Some scs) then
        deleteMessageFromQueue queueName scs (MessageData.sequenceNumber msg)
      else M.throw (Js.ErrorObj "Connection string missing")
  | None => M.throw (Js.ErrorObj "Connection string missing")
  end.

(** One turn of the loop of [deleteMessages]. *)
Definition deleteOne (queueName : string) (results : Results)
    (msg : MessageData.t) : M.t Results :=
  M.tryCatch
    (deleteAttempt queueName msg ;;;
     M.ret (pushSuccessful results msg))
    (fun error => M.ret (pushFailed results msg (Js.errorMessage error))).

Fixpoint deleteLoop (queueName : string) (messages : list MessageData.t)
    (results : Results) : M.t Results :=
  match messages with
  | [] => M.ret results
  | msg :: rest =>
      let* results' := deleteOne queueName results msg in
      deleteLoop queueName rest results'
  end.

Definition deleteSummary (messageCount : nat) (queueName : string)
    (results : Results) : Event :=
  if Nat.eqb (length (failed results)) 0 then
    EvShowInformation
      (if Nat.ltb 1 messageCount
       then "Successfully deleted " +:+ Js.natToString messageCount
            +:+ " messages from " +:+ queueName
       else "Message deleted from " +:+ queueName)
  else if Nat.eqb (length (successful results)) 0 then
    EvShowError
      ("Failed to delete " +:+ Js.natToString messageCount +:+ " message(s) from "
       +:+ queueName +:+ ". IDs: " +:+ failedIds results)
  else
    EvShowWarning
      ("Deleted " +:+ Js.natToString (length (successful results)) +:+ " of "
       +:+ Js.natToString messageCount +:+ " messages from " +:+ queueName +:+ ". "
       +:+ "Failed: " +:+ failedIdsWithReason results).

(** Reading [firstMessage.sourceQueue] when [messages[0]] is [undefined]. *)
Definition undefinedFirstMessage : Js.Thrown :=
  Js.ErrorObj "Cannot read properties of undefined (reading 'sourceQueue')".

(** [deleteMessages]; the result is as for [moveMessageToQueue]. *)
Definition deleteMessages (panelOpen : bool) (messageData : MessageArg)
  : M.t (option Results) :=
  let messages := normalize messageData in
  let messageCount := length messages in
  match messages with
  | [] => M.throw undefinedFirstMessage
  | firstMessage :: _ =>
      match MessageData.sourceQueue firstMessage with
      | Some sq =>
          if Js.truthy (MessageData.sourceConnectionString firstMessage) then
            let queueName := Queue.name sq in
            M.emit (EvProgress
                      (if Nat.ltb 1 messageCount
                       then "Deleting " +:+ Js.natToString messageCount +:+ " messages..."
                       else "Deleting message...")) ;;;
            let* results := deleteLoop queueName messages emptyResults in
            M.emit (deleteSummary messageCount queueName results) ;;;
            (if (panelOpen && Nat.ltb 0 (length (successful results)))%bool
             then M.emit EvRefreshView else M.ret tt) ;;;
            M.emit EvRefreshTree ;;;
            M.ret (Some results)
          else
            M.emit (EvShowError
                      "Cannot delete message: source queue information missing") ;;;
            M.ret None
      | None =>
          M.emit (EvShowError
                    "Cannot delete message: source queue information missing") ;;;
          M.ret None
      end
  end.

(** The loop of [processMessageMove]: sends only. *)
Fixpoint sendAll (targetName connectionString : string)
    (messages : list MessageData.t) : M.t unit :=
  match messages with
  | [] => M.ret tt
  | msg :: rest =>
      sendMessageToQueue targetName connectionString msg ;;;
      sendAll targetName connectionString rest
  end.

(** [processMessageMove], the move behind a drop on a queue of the tree. *)
Definition processMessageMove (st : Store.State) (panelOpen : bool)
    (target : Queue.t) (messageData : MessageArg) : M.t unit :=
  M.tryCatch
    (match Store.getConnectionString (Queue.connectionId target) st with
     | Some connectionString =>
         if Js.truthy (Some connectionString) then
           let messages := normalize messageData in
           let messageCount := length messages in
           M.emit (EvProgress
                     (if Nat.ltb 1 messageCount
                      then "Moving " +:+ Js.natToString messageCount
                           +:+ " messages to " +:+ Queue.name target +:+ "..."
                      else "Moving message to " +:+ Queue.name target +:+ "...")) ;;;
           sendAll (Queue.name target) connectionString messages ;;;
           M.emit (EvShowInformation
                     (if Nat.ltb 1 messageCount
                      then Js.natToString messageCount +:+ " messages moved to "
                           +:+ Queue.name target
                      else "Message moved to " +:+ Queue.name target)) ;;;
           (if panelOpen then notifyRemoved messages else M.ret tt) ;;;
           M.emit EvRefreshTree
         else M.emit (EvShowError "Connection string not found for target queue")
     | None => M.emit (EvShowError "Connection string not found for target queue")
     end)
    (fun error =>
       M.emit (EvShowError ("Failed to move message(s): " +:+ Js.errorMessage error))).

(** What [handleDrop] finds in the [DataTransfer]: under [text/uri-list] a
    value without the [busdriver-message:] prefix, or one with it together
    with the outcome of decoding and parsing it ([None] when that throws);
    under [text/plain] the outcome of [JSON.parse]. *)
Inductive UriItem : Type :=
| UriOther
| UriBusdriver (parsed : option MessageArg).

Record DataTransfer : Type := mkDataTransfer {
  uriList : option UriItem;
  textPlain : option (option MessageArg)
}.

Definition dropTextPlain (st : Store.State) (panelOpen : bool) (target : Queue.t)
    (dataTransfer : DataTransfer) : M.t unit :=
  match textPlain dataTransfer with
  | Some (Some messages) => processMessageMove st panelOpen target messages
  | _ => M.ret tt
  end.

(** [handleDrop]; takes and returns [QueueMessagesPanel.pendingDragMessage]. *)
Definition handleDrop (st : Store.State) (panelOpen : bool)
    (target : option Queue.t) (pendingDragMessage : option MessageArg)
    (dataTransfer : DataTransfer) : M.t (option MessageArg) :=
  match target with
  | None => M.ret pendingDragMessage
  | Some tq =>
      match pendingDragMessage with
      | Some messages =>
          processMessageMove st panelOpen tq messages ;;; M.ret None
      | None =>
          match uriList dataTransfer with
          | Some (UriBusdriver (Some messages)) =>
              processMessageMove st panelOpen tq messages ;;; M.ret None
          | _ => dropTextPlain st panelOpen tq dataTransfer ;;; M.ret None
          end
      end
  end.

End WithSdk.
End Provider.

(** ** QueueMessagesPanel: the webview message handler *)

Module Panel.

(** The panel's [queue] and [connectionString] fields. *)
Record t : Type := mk {
  queue : Queue.t;
  connectionString : string
}.

(** The object literal the webview script builds for a selected or dragged
    row: the six display fields and nothing else. *)
Definition snapshot (sequenceNumber messageId body : string)
    (properties : gmap string PropValue) (enqueuedTime : string)
    (deliveryCount : Z) : MessageData.t :=
  {| MessageData.sequenceNumber := sequenceNumber;
     MessageData.messageId := messageId;
     MessageData.body := body;
     MessageData.properties := properties;
     MessageData.enqueuedTime := enqueuedTime;
     MessageData.deliveryCount := deliveryCount;
     MessageData.sourceQueue := None;
     MessageData.sourceConnectionString := None |}.

(** [msg.sourceQueue = this.queue; msg.sourceConnectionString = this.connectionString].
    The code stores the panel's queue object itself; the record here holds
    what that object contains when the handler runs, which is what the
    commands read as long as no other queue is shown in the panel
    meanwhile. *)
Definition attachSource (panel : t) (msg : MessageData.t) : MessageData.t :=
  {| MessageData.sequenceNumber := MessageData.sequenceNumber msg;
     MessageData.messageId := MessageData.messageId msg;
     MessageData.body := MessageData.body msg;
     MessageData.properties := MessageData.properties msg;
     MessageData.enqueuedTime := MessageData.enqueuedTime msg;
     MessageData.deliveryCount := MessageData.deliveryCount msg;
     MessageData.sourceQueue := Some (queue panel);
     MessageData.sourceConnectionString := Some (connectionString panel) |}.

(** What the handler asks of the host. *)
Inductive Action : Type :=
| Update
| ExecuteCommand (command : string) (messages : list MessageData.t).

(** The [switch (message.command)] of [onDidReceiveMessage]; takes and
    returns the static [pendingDragMessage]. *)
Definition onDidReceiveMessage (panel : t) (command : string) (data : MessageArg)
    (pendingDragMessage : option MessageArg) : option MessageArg * list Action :=
  if String.eqb command "refresh" then (pendingDragMessage, [Update])
  else if String.eqb command "removeMessage" then (pendingDragMessage, [Update])
  else if String.eqb command "startDrag" then (Some data, [])
  else if String.eqb command "moveToQueue" then
    (pendingDragMessage,
     [ExecuteCommand "busdriver.moveMessageToQueue"
                     (map (attachSource panel) (normalize data))])
  else if String.eqb command "deleteMessages" then
    (pendingDragMessage,
     [ExecuteCommand "busdriver.deleteMessages"
                     (map (attachSource panel) (normalize data))])
  else (pendingDragMessage, []).

(** [moveSelectedMessage] and [deleteSelectedMessages] of the webview
    script: the snapshots of the selected rows are posted under [command],
    and nothing is posted when no row is selected. *)
Definition postSelection (command : string) (selected : list MessageData.t)
  : option (string * MessageArg) :=
  match selected with
  | [] => None
  | _ :: _ => Some (command, Many selected)
  end.

(** Both provenance fields are set. *)
Definition hasProvenance (msg : MessageData.t) : Prop :=
  is_Some (MessageData.sourceQueue msg)
  /\ is_Some (MessageData.sourceConnectionString msg).

End Panel.

(** ** extension.ts: the commands behind the panel's requests *)

Module Extension.
Section WithSdk.
Context {W : Type} (sdk : Sdk W).

(** [busdriver.moveMessageToQueue]; [allQueues] is what [getAllQueues]
    listed and [selected] the item picked from the quick pick. *)
Definition moveMessageToQueueCommand (st : Store.State) (panelOpen : bool)
    (allQueues : list Queue.t) (selected : option Queue.t)
    (messageData : MessageArg) : M.t (option Results) :=
  match allQueues with
  | [] => M.emit (EvShowError "No queues available") ;;; M.ret None
  | _ :: _ =>
      match selected with
      | Some q => Provider.moveMessageToQueue sdk st panelOpen messageData q
      | None => M.ret None
      end
  end.

(** [busdriver.deleteMessages]; [confirmation] is the modal's answer. *)
Definition deleteMessagesCommand (panelOpen : bool) (confirmation : option string)
    (messageData : MessageArg) : M.t (option Results) :=
  match confirmation with
  | Some label =>
      if String.eqb label "Delete"
      then Provider.deleteMessages sdk panelOpen messageData
      else M.ret None
  | None => M.ret None
  end.

End WithSdk.
End Extension.

(** ** Reading event logs *)

Module Log.

(** A call on a receiver: part of a scan of a source queue. *)
Definition isReceiverCall (e : Event) : bool :=
  match e with
  | EvCall (CreateReceiver _ _) _ => true
  | EvCall (CompleteMessage _ _ _) _ => true
  | EvCall (AbandonMessage _ _ _) _ => true
  | EvCall (CloseReceiver _ _) _ => true
  | EvReceive _ _ _ _ _ => true
  | _ => false
  end.

Definition isReceive (e : Event) : bool :=
  match e with
  | EvReceive _ _ _ _ _ => true
  | _ => false
  end.

Definition isSend (e : Event) : bool :=
  match e with
  | EvCall (SendMessages _ _ _) _ => true
  | _ => false
  end.

Definition isComplete (e : Event) : bool :=
  match e with
  | EvCall (CompleteMessage _ _ _) _ => true
  | _ => false
  end.

(** The messages handed out by the receive calls of a log. *)
Fixpoint received (log : list Event) : list Received :=
  match log with
  | [] => []
  | EvReceive _ _ _ _ (inr msgs) :: rest => msgs ++ received rest
  | _ :: rest => received rest
  end.

(** The messages on which [completeMessage] / [abandonMessage] was called. *)
Fixpoint completeCalls (log : list Event) : list Received :=
  match log with
  | [] => []
  | EvCall (CompleteMessage _ _ m) _ :: rest => m :: completeCalls rest
  | _ :: rest => completeCalls rest
  end.

Fixpoint abandonCalls (log : list Event) : list Received :=
  match log with
  | [] => []
  | EvCall (AbandonMessage _ _ m) _ :: rest => m :: abandonCalls rest
  | _ :: rest => abandonCalls rest
  end.

(** No [completeMessage] or [abandonMessage] call of the log threw. *)
Fixpoint settleCallsSucceed (log : list Event) : bool :=
  match log with
  | [] => true
  | EvCall (CompleteMessage _ _ _) (Some _) :: _ => false
  | EvCall (AbandonMessage _ _ _) (Some _) :: _ => false
  | _ :: rest => settleCallsSucceed rest
  end.

(** The queue names receivers were created for. *)
Fixpoint receiverQueues (log : list Event) : list string :=
  match log with
  | [] => []
  | EvCall (CreateReceiver _ q) _ :: rest => q :: receiverQueues rest
  | _ :: rest => receiverQueues rest
  end.

(** An SDK call, as opposed to a call on the host UI. *)
Definition isSdk (e : Event) : bool :=
  match e with
  | EvCall _ _ => true
  | EvReceive _ _ _ _ _ => true
  | _ => false
  end.

(** The queue an SDK call works on, for the calls that name one. *)
Definition queueOf (e : Event) : option string :=
  match e with
  | EvCall (CreateSender _ q) _ => Some q
  | EvCall (CreateReceiver _ q) _ => Some q
  | EvCall (SendMessages _ q _) _ => Some q
  | EvCall (CompleteMessage _ q _) _ => Some q
  | EvCall (AbandonMessage _ q _) _ => Some q
  | EvCall (CloseSender _ q) _ => Some q
  | EvCall (CloseReceiver _ q) _ => Some q
  | EvReceive _ q _ _ _ => Some q
  | _ => None
  end.

(** The values thrown by the SDK calls of a log. *)
Fixpoint thrown (log : list Event) : list Js.Thrown :=
  match log with
  | [] => []
  | EvCall _ (Some e) :: rest => e :: thrown rest
  | EvReceive _ _ _ _ (inl e) :: rest => e :: thrown rest
  | _ :: rest => thrown rest
  end.

(** [(maxMessageCount, maxWaitTimeInMs)] of each receive call. *)
Fixpoint receiveArgs (log : list Event) : list (nat * nat) :=
  match log with
  | [] => []
  | EvReceive _ _ n t _ :: rest => (n, t) :: receiveArgs rest
  | _ :: rest => receiveArgs rest
  end.

(** A receive call may be followed by another one only if it handed out a
    non-empty batch without a message numbered [sequenceNumber]. *)
Definition mayContinue (sequenceNumber : string)
    (answer : Js.Thrown + list Received) : bool :=
  match answer with
  | inr msgs =>
      negb (Nat.eqb (length msgs) 0)
      && forallb (fun m => negb (seqMatches m sequenceNumber)) msgs
  | inl _ => false
  end.

Fixpoint paced (sequenceNumber : string) (log : list Event) : bool :=
  match log with
  | [] => true
  | EvReceive _ _ _ _ answer :: rest =>
      (if existsb isReceive rest then mayContinue sequenceNumber answer else true)
      && paced sequenceNumber rest
  | _ :: rest => paced sequenceNumber rest
  end.

End Log.

(** ** A scripted broker

    A broker for concrete runs: [receiveMessages] hands out the batches of a
    script one after the other (then empty batches), and a call throws
    exactly when [faults] says so. *)

Module Script.

Record World : Type := mkWorld {
  batches : list (list Received);
  delivered : list (string * ServiceBusMessage);
  completed : list Received;
  abandoned : list Received
}.

Definition effect (c : Call) (w : World) : World :=
  match c with
  | SendMessages _ q m =>
      {| batches := batches w; delivered := delivered w ++ [(q, m)];
         completed := completed w; abandoned := abandoned w |}
  | CompleteMessage _ _ m =>
      {| batches := batches w; delivered := delivered w;
         completed := completed w ++ [m]; abandoned := abandoned w |}
  | AbandonMessage _ _ m =>
      {| batches := batches w; delivered := delivered w;
         completed := completed w; abandoned := abandoned w ++ [m] |}
  | _ => w
  end.

Definition sdk (faults : Call -> option Js.Thrown) : Sdk World :=
  {| invoke := fun c w =>
       match faults c with
       | Some e => (w, Some e)
       | None => (effect c w, None)
       end;
     receiveMessages := fun _ _ maxMessageCount _ w =>
       match batches w with
       | [] => (w, inr [])
       | b :: rest =>
           ({| batches := rest; delivered := delivered w;
               completed := completed w; abandoned := abandoned w |},
            inr (firstn maxMessageCount b))
       end |}.

Definition noFaults (c : Call) : option Js.Thrown := None.

(** The send of the message with id [messageId] throws [Error(text)]. *)
Definition rejecting (messageId text : string) (c : Call) : option Js.Thrown :=
  match c with
  | SendMessages _ _ m =>
      if String.eqb (sbMessageId m) messageId then Some (Js.ErrorObj text) else None
  | _ => None
  end.

(** Abandoning the message numbered [n] throws [Error(text)]. *)
Definition lockLost (n : Z) (text : string) (c : Call) : option Js.Thrown :=
  match c with
  | AbandonMessage _ _ m =>
      match rSequenceNumber m with
      | Some k => if Z.eqb k n then Some (Js.ErrorObj text) else None
      | None => None
      end
  | _ => None
  end.

Definition start (script : list (list Received)) : World :=
  {| batches := script; delivered := []; completed := []; abandoned := [] |}.

Definition inbound (n : Z) : Received :=
  {| rSequenceNumber := Some n; rMessageId := Some ("m" +:+ Js.intToString n);
     rBody := "{}" |}.

Definition orders : Queue.t := {| Queue.name := "orders"; Queue.connectionId := "c1" |}.
Definition archive : Queue.t := {| Queue.name := "archive"; Queue.connectionId := "c1" |}.

Definition secret : string := "Endpoint=sb://example/;SharedAccessKey=k".

Definition panel : Panel.t := {| Panel.queue := orders; Panel.connectionString := secret |}.

(** A row of the webview showing the message with sequence number [n]. *)
Definition row (n : Z) : MessageData.t :=
  Panel.snapshot (Js.intToString n) ("m" +:+ Js.intToString n) "{}" ∅ "1/1/2025" 1.

Definition store : Store.State :=
  Store.addConnection (Some "prod") (Some secret) "c1" 0 Store.initial.

(** Row 2 as a panel showing the queue [archive] would submit it. *)
Definition elsewhere : MessageData.t :=
  Panel.attachSource {| Panel.queue := archive; Panel.connectionString := secret |}
    (row 2).

Definition noData : Provider.DataTransfer :=
  {| Provider.uriList := None; Provider.textPlain := None |}.

(** Rows 1 and 2 as the panel submits them for a move or a delete. *)
Definition selection : list MessageData.t :=
  map (Panel.attachSource panel) [row 1; row 2].

End Script.

(** ** The shape of a scan's log *)

Module Scan.
Section Shapes.
Variables (cs q sequenceNumber : string).

(** Logs and completions of the inner loop over a received batch, started
    with the flag [found]. *)
Inductive BatchRun : list Received -> bool -> list Event -> Completion bool -> Prop :=
| batch_done found :
    BatchRun [] found [] (Normal found)
| batch_complete m rest found ev c :
    seqMatches m sequenceNumber = true ->
    BatchRun rest true ev c ->
    BatchRun (m :: rest) found (EvCall (CompleteMessage cs q m) None :: ev) c
| batch_complete_throws m rest found e :
    seqMatches m sequenceNumber = true ->
    BatchRun (m :: rest) found [EvCall (CompleteMessage cs q m) (Some e)] (Abrupt e)
| batch_abandon m rest found ev c :
    seqMatches m sequenceNumber = false ->
    BatchRun rest found ev c ->
    BatchRun (m :: rest) found (EvCall (AbandonMessage cs q m) None :: ev) c
| batch_abandon_throws m rest found e :
    seqMatches m sequenceNumber = false ->
    BatchRun (m :: rest) found [EvCall (AbandonMessage cs q m) (Some e)] (Abrupt e).

(** Logs and completions of the attempts loop with [n] attempts left. *)
Inductive Run : nat -> bool -> list Event -> Completion bool -> Prop :=
| run_exhausted found :
    Run 0 found [] (Normal found)
| run_found n :
    Run n true [] (Normal true)
| run_receive_throws n e :
    Run (S n) false [EvReceive cs q 100 5000 (inl e)] (Abrupt e)
| run_batch_throws n msgs ev e :
    BatchRun msgs false ev (Abrupt e) ->
    Run (S n) false (EvReceive cs q 100 5000 (inr msgs) :: ev) (Abrupt e)
| run_break n :
    Run (S n) false [EvReceive cs q 100 5000 (inr [])] (Normal false)
| run_next n msgs found' ev ev' c :
    BatchRun msgs false ev (Normal found') ->
    (negb found' && Nat.eqb (length msgs) 0)%bool = false ->
    Run n found' ev' c ->
    Run (S n) false (EvReceive cs q 100 5000 (inr msgs) :: ev ++ ev') c.

(** Logs and completions of a [finally] block that makes the call [close]
    (closing the sender or the receiver) and then closes the client, after
    a body that completed with [body]. *)
Inductive Closing {A : Type} (close : Call) (body : Completion A)
  : list Event -> Completion A -> Prop :=
| closing_first_throws e :
    Closing close body [EvCall close (Some e)] (Abrupt e)
| closing_client_throws e :
    Closing close body [EvCall close None; EvCall (CloseClient cs) (Some e)] (Abrupt e)
| closing_done :
    Closing close body [EvCall close None; EvCall (CloseClient cs) None] body.

(** What the [try] block of [deleteMessageFromQueue] makes of the scan. *)
Definition verdict (c : Completion bool) : Completion unit :=
  match c with
  | Normal true => Normal tt
  | Normal false => Abrupt (Provider.notFound sequenceNumber)
  | Abrupt e => Abrupt e
  end.

(** Logs and completions of [deleteMessageFromQueue]. *)
Inductive DeleteRun : list Event -> Completion unit -> Prop :=
| delete_no_client e :
    DeleteRun [EvCall (NewClient cs) (Some e)] (Abrupt e)
| delete_no_receiver e :
    DeleteRun [EvCall (NewClient cs) None; EvCall (CreateReceiver cs q) (Some e)]
              (Abrupt e)
| delete_scanned scan c closing c' :
    Run Provider.maxAttempts false scan c ->
    Closing (CloseReceiver cs q) (verdict c) closing c' ->
    DeleteRun (EvCall (NewClient cs) None :: EvCall (CreateReceiver cs q) None
               :: scan ++ closing) c'.

End Shapes.
End Scan.

(** ** Statements about bulk runs *)

Module Bulk.

(** [succ] and the messages of [fail] are two order-preserving
    subsequences of [input] that split it: every item of [input] goes, in
    order, to exactly one of the two lists. *)
Inductive Partition :
  list MessageData.t -> list MessageData.t -> list (MessageData.t * string) -> Prop :=
| part_nil : Partition [] [] []
| part_successful m input succ fail :
    Partition input succ fail -> Partition (m :: input) (m :: succ) fail
| part_failed m error input succ fail :
    Partition input succ fail -> Partition (m :: input) succ ((m, error) :: fail).

Section WithSdk.
Context {W : Type} (sdk : Sdk W).

(** The common shape of the two bulk loops: try [attempt] on each message
    in turn and file the message under [successful] or [failed]. *)
Fixpoint each (attempt : MessageData.t -> M.t (W := W) unit)
    (messages : list MessageData.t) (results : Results) : M.t Results :=
  match messages with
  | [] => M.ret results
  | msg :: rest =>
      let* results' :=
        M.tryCatch
          (attempt msg ;;; M.ret (pushSuccessful results msg))
          (fun error => M.ret (pushFailed results msg (Js.errorMessage error))) in
      each attempt rest results'
  end.

(** Along the run of a bulk move from [w], the send of every item returns
    normally, and so does the deletion of every item that has one. *)
Fixpoint allMovesSucceed (targetName connectionString : string)
    (messages : list MessageData.t) (w : W) : bool :=
  match messages with
  | [] => true
  | msg :: rest =>
      let sent := Provider.sendMessageToQueue sdk targetName connectionString msg w in
      M.succeeded sent &&
      match MessageData.sourceQueue msg, MessageData.sourceConnectionString msg with
      | Some sq, Some scs =>
          if Js.truthy (Some scs) then
            let deleted :=
              Provider.deleteMessageFromQueue sdk (Queue.name sq) scs
                (MessageData.sequenceNumber msg) (M.world sent) in
            M.succeeded deleted &&
            allMovesSucceed targetName connectionString rest (M.world deleted)
          else allMovesSucceed targetName connectionString rest (M.world sent)
      | _, _ => allMovesSucceed targetName connectionString rest (M.world sent)
      end
  end.

(** Along the run of a bulk delete from [w], every item is deleted from
    the queue [queueName] and the deletion returns normally. *)
Fixpoint allDeletesSucceed (queueName : string)
    (messages : list MessageData.t) (w : W) : bool :=
  match messages with
  | [] => true
  | msg :: rest =>
      match MessageData.sourceConnectionString msg with
      | Some scs =>
          Js.truthy (Some scs) &&
          let deleted :=
            Provider.deleteMessageFromQueue sdk queueName scs
              (MessageData.sequenceNumber msg) w in
          M.succeeded deleted && allDeletesSucceed queueName rest (M.world deleted)
      | None => false
      end
  end.

(** Every message that a scan for [sequenceNumber] received and that does
    not carry that number had [abandonMessage] called on it. *)
Definition scanAbandonsAll (queueName connectionString sequenceNumber : string)
    (w : W) : Prop :=
  forall m,
    In m (Log.received
            (M.log (Provider.deleteMessageFromQueue sdk queueName connectionString
                      sequenceNumber w))) ->
    seqMatches m sequenceNumber = false ->
    In m (Log.abandonCalls
            (M.log (Provider.deleteMessageFromQueue sdk queueName connectionString
                      sequenceNumber w))).

End WithSdk.
End Bulk.

(** ** The input boxes of [addConnection] *)

Module Dialog.

(** [s.includes(sub)] *)
Fixpoint includes (s sub : string) : bool :=
  match s with
  | EmptyString => String.prefix sub EmptyString
  | String _ rest => (String.prefix sub s || includes rest sub)%bool
  end.

(** [!value || value.trim().length === 0] for a string [value]. *)
Definition blank (value : string) : bool :=
  (String.eqb value "" || Nat.eqb (String.length (Js.trim value)) 0)%bool.

(** The [validateInput] callback of the name box: the message to show, or
    [None] for [null]. *)
Definition validateName (connections : list Connection.t) (value : string)
  : option string :=
  if blank value then Some "Connection name cannot be empty"
  else if existsb (fun c => String.eqb (Connection.name c) (Js.trim value)) connections
       then Some "A connection with this name already exists"
       else None.

(** The [validateInput] callback of the connection string box. *)
Definition validateConnectionString (value : string) : option string :=
  if blank value then Some "Connection string cannot be empty"
  else if negb (includes value "Endpoint=sb://")
       then Some "Invalid connection string format"
       else None.

(** What an input box with the callback [validate] can return: nothing
    when it is dismissed, or a value the callback let through. *)
Definition returns (validate : string -> option string) (result : option string)
  : Prop :=
  match result with
  | None => True
  | Some value => validate value = None
  end.

(** States reached through the dialog: as [Store.reachable], with the two
    boxes of an [addConnection] returning what their callbacks allow. *)
Inductive reachable : Store.State -> Prop :=
| reach_initial : reachable Store.initial
| reach_activate s : reachable s -> reachable (Store.loadConnections s)
| reach_add s nameBox csBox newId now :
    reachable s ->
    returns (validateName (Store.connections s)) nameBox ->
    returns validateConnectionString csBox ->
    reachable (Store.addConnection nameBox csBox newId now s)
| reach_delete s item confirm :
    reachable s -> reachable (Store.deleteConnection item confirm s).

End Dialog.

(** ** [_escapeHtml] *)

Module Html.

(** [s.replace(/c/g, repl)] for a one-character pattern. *)
Fixpoint replaceAll (c : ascii) (repl : string) (s : string) : string :=
  match s with
  | EmptyString => EmptyString
  | String a rest =>
      if Ascii.eqb a c then repl +:+ replaceAll c repl rest
      else String a (replaceAll c repl rest)
  end.

Definition quote : ascii := "034"%char.

Definition escapeHtml (unsafe : string) : string :=
  replaceAll "'"%char "&#039;"
    (replaceAll quote "&quot;"
       (replaceAll ">"%char "&gt;"
          (replaceAll "<"%char "&lt;"
             (replaceAll "&"%char "&amp;" unsafe)))).

(** The characters that open or close markup or an attribute value. *)
Definition special (a : ascii) : bool :=
  (Ascii.eqb a "<"%char || Ascii.eqb a ">"%char
   || Ascii.eqb a quote || Ascii.eqb a "'"%char)%bool.

(** No character of the text is special. *)
Fixpoint clean (s : string) : bool :=
  match s with
  | EmptyString => true
  | String a rest => (negb (special a) && clean rest)%bool
  end.

(** No character of the text is special or an ampersand. *)
Fixpoint plain (s : string) : bool :=
  match s with
  | EmptyString => true
  | String a rest =>
      (negb (special a) && negb (Ascii.eqb a "&"%char) && plain rest)%bool
  end.

End Html.

(** ** The message table of the panel *)

Module View.

(** The sequence number column: [msg.sequenceNumber?.toString() || 'N/A']. *)
Definition sequenceNumberText (msg : Received) : string :=
  match rSequenceNumber msg with
  | Some n => if String.eqb (Js.intToString n) "" then "N/A" else Js.intToString n
  | None => "N/A"
  end.

End View.

(** ** Listing queues (ConnectionsProvider) *)

Module Admin.

(** The field of [QueueRuntimeProperties] the tree shows. *)
Record QueueRuntimeProperties : Type := mkStats {
  activeMessageCount : Z
}.

(** [QueueTreeItem]: the queue, its statistics and the label
    [`${queue.name} (${stats.activeMessageCount})`]. *)
Record QueueTreeItem : Type := mkItem {
  queue : Queue.t;
  stats : QueueRuntimeProperties;
  label : string
}.

Definition treeItem (q : Queue.t) (st : QueueRuntimeProperties) : QueueTreeItem :=
  {| queue := q; stats := st;
     label := Queue.name q +:+ " (" +:+ Js.intToString (activeMessageCount st) +:+ ")" |}.

(** The administration client as seen by the extension: creating it for a
    connection string may throw; [listQueues] yields the names of some
    queues and then ends or throws; reading a queue's statistics may throw. *)
Record Client (W : Type) : Type := mkClient {
  newClient : string -> W -> W * option Js.Thrown;
  listQueues : string -> W -> W * (list string * option Js.Thrown);
  getQueueRuntimeProperties :
    string -> string -> W -> W * (Js.Thrown + QueueRuntimeProperties)
}.
Arguments newClient {W} _ _ _.
Arguments listQueues {W} _ _ _.
Arguments getQueueRuntimeProperties {W} _ _ _ _.

Section WithClient.
Context {W : Type} (admin : Client W).

Definition queueOf (connection : Connection.t) (queueName : string) : Queue.t :=
  {| Queue.name := queueName; Queue.connectionId := Connection.id connection |}.

(** The body of the loop of [getAllQueues] for one connection: what it
    pushes.  A missing secret skips the connection; an exception ends the
    connection's turn and keeps what was pushed before it. *)
Definition queuesOfConnection (st : Store.State) (connection : Connection.t)
    (w : W) : W * list (Queue.t * Connection.t) :=
  match Store.getConnectionString (Connection.id connection) st with
  | Some connectionString =>
      if Js.truthy (Some connectionString) then
        match newClient admin connectionString w with
        | (w1, Some _) => (w1, [])
        | (w1, None) =>
            match listQueues admin connectionString w1 with
            | (w2, (names, _)) =>
                (w2, map (fun n => (queueOf connection n, connection)) names)
            end
        end
      else (w, [])
  | None => (w, [])
  end.

Fixpoint allQueuesFrom (st : Store.State) (connections : list Connection.t)
    (w : W) : W * list (Queue.t * Connection.t) :=
  match connections with
  | [] => (w, [])
  | connection :: rest =>
      match queuesOfConnection st connection w with
      | (w1, found) =>
          match allQueuesFrom st rest w1 with
          | (w2, more) => (w2, found ++ more)
          end
      end
  end.

(** [getAllQueues] *)
Definition getAllQueues (st : Store.State) (w : W)
  : W * list (Queue.t * Connection.t) :=
  allQueuesFrom st (Store.connections st) w.

Definition lift {A : Type} (f : W -> W * (Js.Thrown + A)) : M.t A :=
  fun w =>
    match f w with
    | (w1, inr a) => (w1, [], Normal a)
    | (w1, inl e) => (w1, [], Abrupt e)
    end.

Definition liftUnit (f : W -> W * option Js.Thrown) : M.t unit :=
  fun w =>
    match f w with
    | (w1, None) => (w1, [], Normal tt)
    | (w1, Some e) => (w1, [], Abrupt e)
    end.

(** The loop of [getQueues] over the yielded names. *)
Fixpoint itemsFor (connection : Connection.t) (connectionString : string)
    (names : list string) : M.t (list QueueTreeItem) :=
  match names with
  | [] => M.ret []
  | n :: rest =>
      let* props := lift (getQueueRuntimeProperties admin connectionString n) in
      let* items := itemsFor connection connectionString rest in
      M.ret (treeItem (queueOf connection n) props :: items)
  end.

(** [getQueues] *)
Definition getQueues (st : Store.State) (connection : Connection.t)
  : M.t (list QueueTreeItem) :=
  M.tryCatch
    (match Store.getConnectionString (Connection.id connection) st with
     | Some connectionString =>
         if Js.truthy (Some connectionString) then
           liftUnit (newClient admin connectionString) ;;;
           let* listing :=
             (fun w => match listQueues admin connectionString w with
                       | (w1, l) => (w1, [], Normal l)
                       end) in
           let* items := itemsFor connection connectionString (fst listing) in
           match snd listing with
           | Some e => M.throw e
           | None => M.ret items
           end
         else
           M.emit (EvShowError
                     ("Connection string not found for " +:+ Connection.name connection)) ;;;
           M.ret []
     | None =>
         M.emit (EvShowError
                   ("Connection string not found for " +:+ Connection.name connection)) ;;;
         M.ret []
     end)
    (fun error =>
       M.emit (EvShowError
                 ("Failed to list queues for " +:+ Connection.name connection +:+ ": "
                  +:+ Js.errorMessage error)) ;;;
       M.ret []).

(** [busdriver.moveMessageToQueue] with its listing: [getAllQueues], then
    the quick pick over what it found ([pick] chooses among the offered
    queues, or nothing), then the move. *)
Definition moveCommand (sdk : Sdk W) (st : Store.State) (panelOpen : bool)
    (pick : list Queue.t -> option Queue.t) (messageData : MessageArg)
  : M.t (option Results) :=
  fun w =>
    match getAllQueues st w with
    | (w1, allQueues) =>
        Extension.moveMessageToQueueCommand sdk st panelOpen (map fst allQueues)
          (pick (map fst allQueues)) messageData w1
    end.

End WithClient.
End Admin.

(** ** The panel as a singleton (QueueMessagesPanel, extension.ts) *)

Module Lifecycle.
Section Host.
Context {W : Type}.

(** [createOrShow], on the static [currentPanel].  An open panel is
    revealed, takes the name and the connection id of the requested queue
    and is redrawn; its connection string is the one it was created with.
    Drawing the panel ([_update]) is the event [EvRefreshView]. *)
Definition createOrShow (queue : Queue.t) (connectionString : string)
    (currentPanel : option Panel.t) : M.t (W := W) (option Panel.t) :=
  match currentPanel with
  | Some panel =>
      M.emit EvRefreshView ;;;
      M.ret (Some {| Panel.queue :=
                       {| Queue.name := Queue.name queue;
                          Queue.connectionId := Queue.connectionId queue |};
                     Panel.connectionString := Panel.connectionString panel |})
  | None =>
      M.emit EvRefreshView ;;;
      M.ret (Some {| Panel.queue := queue;
                     Panel.connectionString := connectionString |})
  end.

(** [dispose] *)
Definition dispose (currentPanel : option Panel.t) : option Panel.t := None.

(** [busdriver.showQueueMessages] for the tree item of [queue]. *)
Definition showQueueMessagesCommand (st : Store.State) (queue : Queue.t)
    (currentPanel : option Panel.t) : M.t (W := W) (option Panel.t) :=
  match Store.getConnectionString (Queue.connectionId queue) st with
  | Some connectionString =>
      if Js.truthy (Some connectionString)
      then createOrShow queue connectionString currentPanel
      else M.emit (EvShowError "Connection string not found") ;;; M.ret currentPanel
  | None => M.emit (EvShowError "Connection string not found") ;;; M.ret currentPanel
  end.

(** Opening the queues of [queues] one after the other. *)
Fixpoint showAll (st : Store.State) (queues : list Queue.t)
    (currentPanel : option Panel.t) : M.t (W := W) (option Panel.t) :=
  match queues with
  | [] => M.ret currentPanel
  | queue :: rest =>
      let* panel := showQueueMessagesCommand st queue currentPanel in
      showAll st rest panel
  end.

End Host.
End Lifecycle.

(** ** More readers of event logs *)

Module Trace.

Definition isNotification (e : Event) : bool :=
  match e with
  | EvShowInformation _ | EvShowWarning _ | EvShowError _ => true
  | _ => false
  end.

(** The connection string an SDK call works with. *)
Definition connectionOf (e : Event) : option string :=
  match e with
  | EvCall (NewClient cs) _ => Some cs
  | EvCall (CreateSender cs _) _ => Some cs
  | EvCall (CreateReceiver cs _) _ => Some cs
  | EvCall (SendMessages cs _ _) _ => Some cs
  | EvCall (CompleteMessage cs _ _) _ => Some cs
  | EvCall (AbandonMessage cs _ _) _ => Some cs
  | EvCall (CloseSender cs _) _ => Some cs
  | EvCall (CloseReceiver cs _) _ => Some cs
  | EvCall (CloseClient cs) _ => Some cs
  | EvReceive cs _ _ _ _ => Some cs
  | _ => None
  end.

(** The calls of a log that did not throw on a matching message. *)
Definition completedTarget (sequenceNumber : string) (e : Event) : bool :=
  match e with
  | EvCall (CompleteMessage _ _ m) None => seqMatches m sequenceNumber
  | _ => false
  end.

(** The messages handed to [sendMessages], with the queue, in order. *)
Fixpoint sends (log : list Event) : list (string * ServiceBusMessage) :=
  match log with
  | [] => []
  | EvCall (SendMessages _ q m) _ :: rest => (q, m) :: sends rest
  | _ :: rest => sends rest
  end.

(** The call the scan makes on a received message: [completeMessage] when
    the message carries the wanted sequence number, [abandonMessage]
    otherwise. *)
Definition settle (cs q sequenceNumber : string) (m : Received) : Call :=
  if seqMatches m sequenceNumber then CompleteMessage cs q m
  else AbandonMessage cs q m.

Definition isSettle (c : Call) : bool :=
  match c with
  | CompleteMessage _ _ _ | AbandonMessage _ _ _ => true
  | _ => false
  end.

(** A call of the scan proper: a receive, or settling a received message. *)
Definition isScanCall (e : Event) : bool :=
  match e with
  | EvReceive _ _ _ _ _ => true
  | EvCall c _ => isSettle c
  | _ => false
  end.

End Trace.

(** ** More faults for the scripted broker *)

Module Faulty.

(** Closing a receiver throws [Error(text)]. *)
Definition closeReceiverFails (text : string) (c : Call) : option Js.Thrown :=
  match c with
  | CloseReceiver _ _ => Some (Js.ErrorObj text)
  | _ => None
  end.

(** Creating a receiver throws [Error(text)]. *)
Definition createReceiverFails (text : string) (c : Call) : option Js.Thrown :=
  match c with
  | CreateReceiver _ _ => Some (Js.ErrorObj text)
  | _ => None
  end.

(** A message that carries no sequence number. *)
Definition unnumbered : Received :=
  {| rSequenceNumber := None; rMessageId := Some "m0"; rBody := "{}" |}.

(** An administration client over a fixed catalogue: per connection
    string, the queues it lists with their counts, and how the listing
    ends. *)
Definition catalogue {W : Type}
    (entries : list (string * (list (string * Z) * option Js.Thrown)))
  : Admin.Client W :=
  {| Admin.newClient := fun _ w => (w, None);
     Admin.listQueues := fun cs w =>
       match List.find (fun e => String.eqb (fst e) cs) entries with
       | Some (_, (queues, ending)) => (w, (map fst queues, ending))
       | None => (w, ([], Some (Js.ErrorObj "unknown namespace")))
       end;
     Admin.getQueueRuntimeProperties := fun cs n w =>
       match List.find (fun e => String.eqb (fst e) cs) entries with
       | Some (_, (queues, _)) =>
           match List.find (fun qc => String.eqb (fst qc) n) queues with
           | Some (_, count) => (w, inr {| Admin.activeMessageCount := count |})
           | None => (w, inl (Js.ErrorObj "queue not found"))
           end
       | None => (w, inl (Js.ErrorObj "unknown namespace"))
       end |}.

End Faulty.

(** * Properties *)

(** ** Connection persistence *)

Lemma toStore_clean (conns : list Connection.t) :
  Forall (fun c => Connection.connectionString c = "") (map Store.toStore conns).
Proof.
  induction conns as [|c conns IH]; simpl; constructor; auto.
Qed.

Lemma saveConnections_clean (s : Store.State) :
  Store.metadataClean (Store.saveConnections s).
Proof. unfold Store.metadataClean; simpl. apply toStore_clean. Qed.

Lemma storeSecrets_keys (conns : list Connection.t) (sec : gmap string string) k v :
  Store.storeSecrets conns sec !! k = Some v ->
  sec !! k = Some v \/ exists connId, k = Store.secretKey connId.
Proof.
  revert sec. induction conns as [|c conns IH]; intros sec H; simpl in H.
  - now left.
  - apply IH in H as [H|H]; [|now right].
    destruct (decide (Store.secretKey (Connection.id c) = k)) as [<-|Hne].
    + right. now exists (Connection.id c).
    + left. now rewrite lookup_insert_ne in H.
Qed.

Lemma storeSecrets_last (conns : list Connection.t) c (sec : gmap string string) :
  Store.storeSecrets (conns ++ [c]) sec !! Store.secretKey (Connection.id c)
  = Some (Connection.connectionString c).
Proof.
  unfold Store.storeSecrets. rewrite fold_left_app. simpl.
  apply lookup_insert_eq.
Qed.

Lemma saveConnections_keyed (s : Store.State) :
  Store.secretsKeyed s -> Store.secretsKeyed (Store.saveConnections s).
Proof.
  intros Hs k v H. simpl in H.
  apply storeSecrets_keys in H as [H|H]; eauto.
Qed.

Lemma step_preserves (o : Store.Op) (s : Store.State) :
  Store.metadataClean s /\ Store.secretsKeyed s ->
  Store.metadataClean (Store.step o s) /\ Store.secretsKeyed (Store.step o s).
Proof.
  intros [Hc Hk]. destruct o as [|nameBox csBox newId now|item confirm]; simpl.
  - split; assumption.
  - unfold Store.addConnection.
    destruct nameBox as [nm|]; [|now split].
    destruct (Js.truthy (Some nm)); [|now split].
    destruct csBox as [cs|]; [|now split].
    destruct (Js.truthy (Some cs)); [|now split].
    split; [apply saveConnections_clean|].
    apply saveConnections_keyed. exact Hk.
  - unfold Store.deleteConnection.
    destruct confirm as [label|]; [|now split].
    destruct (String.eqb label "Delete"); [|now split].
    split; [apply saveConnections_clean|].
    apply saveConnections_keyed. exact Hk.
Qed.

(** C1: in every state reachable from a fresh installation by activating the
    extension, adding and deleting connections, every record of the
    persisted metadata has an empty [connectionString], and every entry of
    the secret store sits under a key [connection.<id>]; an accepted
    [addConnection] writes the trimmed secret under [connection.<id>] of the
    new connection (and a dismissed one changes nothing). *)
Theorem metadata_never_holds_secret (s : Store.State)
    (nameBox csBox : option string) (newId : string) (now : Z) :
  Store.reachable s ->
  Store.metadataClean s /\ Store.secretsKeyed s /\
  match nameBox, csBox with
  | Some nm, Some cs =>
      if (Js.truthy nameBox && Js.truthy csBox)%bool then
        Store.secrets (Store.addConnection nameBox csBox newId now s)
          !! ("connection." +:+ newId) = Some (Js.trim cs)
      else Store.addConnection nameBox csBox newId now s = s
  | _, _ => Store.addConnection nameBox csBox newId now s = s
  end.
Proof.
  intros Hr.
  assert (Hinv : Store.metadataClean s /\ Store.secretsKeyed s).
  { induction Hr as [|o s Hr IH].
    - split; [constructor|]. intros k v H. simpl in H.
      rewrite lookup_empty in H. discriminate.
    - now apply step_preserves. }
  destruct Hinv as [Hc Hk]. split; [exact Hc|]. split; [exact Hk|].
  unfold Store.addConnection.
  destruct nameBox as [nm|]; [|destruct csBox; reflexivity].
  destruct csBox as [cs|]; [|destruct (Js.truthy (Some nm)); reflexivity].
  destruct (Js.truthy (Some nm)), (Js.truthy (Some cs)); try reflexivity.
  cbn [andb].
  apply (storeSecrets_last (Store.connections s)
           {| Connection.id := newId; Connection.name := Js.trim nm;
              Connection.connectionString := Js.trim cs;
              Connection.createdAt := now |}).
Qed.

Lemma metadata_never_holds_secret_witness :
  Store.metadataClean Script.store /\ Store.secretsKeyed Script.store /\
  Store.secrets
    (Store.addConnection (Some "dev") (Some " Endpoint=sb://dev/ ") "c2" 1 Script.store)
    !! ("connection." +:+ "c2") = Some "Endpoint=sb://dev/".
Proof.
  apply (metadata_never_holds_secret Script.store
           (Some "dev") (Some " Endpoint=sb://dev/ ") "c2" 1).
  apply (Store.reach_step
           (Store.OpAdd (Some "prod") (Some Script.secret) "c1" 0)
           Store.initial Store.reach_initial).
Defined.

(** ** The two bulk loops *)

Section LoopFacts.
Context {W : Type} (sdk : Sdk W).

Lemma each_step (attempt : MessageData.t -> M.t (W := W) unit) msg rest r w :
  Bulk.each attempt (msg :: rest) r w =
  match attempt msg w with
  | (w1, ev1, Normal _) =>
      match Bulk.each attempt rest (pushSuccessful r msg) w1 with
      | (w2, ev2, c) => (w2, ev1 ++ ev2, c)
      end
  | (w1, ev1, Abrupt e) =>
      match Bulk.each attempt rest (pushFailed r msg (Js.errorMessage e)) w1 with
      | (w2, ev2, c) => (w2, ev1 ++ ev2, c)
      end
  end.
Proof.
  cbn [Bulk.each]. unfold M.bind, M.tryCatch, M.ret.
  destruct (attempt msg w) as [[w1 ev1] [u|e]]; rewrite app_nil_r; reflexivity.
Qed.

Lemma each_app (attempt : MessageData.t -> M.t (W := W) unit) pre post r w :
  Bulk.each attempt (pre ++ post) r w =
  M.bind (Bulk.each attempt pre r) (Bulk.each attempt post) w.
Proof.
  revert r w. induction pre as [|m pre IH]; intros r w.
  - cbn [app Bulk.each]. unfold M.bind, M.ret.
    destruct (Bulk.each attempt post r w) as [[w2 ev2] c]. reflexivity.
  - rewrite <- app_comm_cons. rewrite each_step.
    unfold M.bind at 1. rewrite each_step.
    destruct (attempt m w) as [[w1 ev1] [u|e]]; rewrite IH; unfold M.bind.
    + destruct (Bulk.each attempt pre (pushSuccessful r m) w1) as [[w2 ev2] [r2|e2]].
      * destruct (Bulk.each attempt post r2 w2) as [[w3 ev3] c].
        now rewrite app_assoc.
      * reflexivity.
    + destruct (Bulk.each attempt pre (pushFailed r m (Js.errorMessage e)) w1)
        as [[w2 ev2] [r2|e2]].
      * destruct (Bulk.each attempt post r2 w2) as [[w3 ev3] c].
        now rewrite app_assoc.
      * reflexivity.
Qed.

(** The loop never throws, and what it adds to [results] splits the input
    in order. *)
Lemma each_partition (attempt : MessageData.t -> M.t (W := W) unit) msgs r w :
  exists succ fail,
    M.completion (Bulk.each attempt msgs r w)
    = Normal {| successful := successful r ++ succ; failed := failed r ++ fail |}
    /\ Bulk.Partition msgs succ fail.
Proof.
  revert r w. induction msgs as [|m msgs IH]; intros r w.
  - exists [], []. split; [|constructor].
    cbn. rewrite !app_nil_r. now destruct r.
  - rewrite each_step.
    destruct (attempt m w) as [[w1 ev1] [u|e]].
    + destruct (IH (pushSuccessful r m) w1) as (succ & fail & Hc & Hp).
      exists (m :: succ), fail. split; [|now constructor].
      destruct (Bulk.each attempt msgs (pushSuccessful r m) w1) as [[w2 ev2] c].
      cbn in *. rewrite Hc. now rewrite <- app_assoc.
    + destruct (IH (pushFailed r m (Js.errorMessage e)) w1) as (succ & fail & Hc & Hp).
      exists succ, ((m, Js.errorMessage e) :: fail). split; [|now constructor].
      destruct (Bulk.each attempt msgs (pushFailed r m (Js.errorMessage e)) w1)
        as [[w2 ev2] c].
      cbn in *. rewrite Hc. now rewrite <- app_assoc.
Qed.

Lemma moveLoop_each targetName cs msgs r w :
  Provider.moveLoop sdk targetName cs msgs r w
  = Bulk.each (Provider.moveAttempt sdk targetName cs) msgs r w.
Proof.
  revert r w. induction msgs as [|m msgs IH]; intros r w; [reflexivity|].
  cbn [Provider.moveLoop Bulk.each]. unfold M.bind, Provider.moveOne.
  destruct (M.tryCatch _ _ w) as [[w1 ev1] [r1|e]]; [|reflexivity].
  now rewrite IH.
Qed.

Lemma deleteLoop_each queueName msgs r w :
  Provider.deleteLoop sdk queueName msgs r w
  = Bulk.each (Provider.deleteAttempt sdk queueName) msgs r w.
Proof.
  revert r w. induction msgs as [|m msgs IH]; intros r w; [reflexivity|].
  cbn [Provider.deleteLoop Bulk.each]. unfold M.bind, Provider.deleteOne.
  destruct (M.tryCatch _ _ w) as [[w1 ev1] [r1|e]]; [|reflexivity].
  now rewrite IH.
Qed.

Lemma notifyRemoved_run (msgs : list MessageData.t) (w : W) :
  Provider.notifyRemoved msgs w
  = (w, map (fun m => EvNotifyMessageRemoved (MessageData.sequenceNumber m)) msgs,
     Normal tt).
Proof.
  induction msgs as [|m msgs IH]; [reflexivity|].
  cbn [Provider.notifyRemoved]. unfold M.bind, M.emit. now rewrite IH.
Qed.

Lemma notifyRemoved_no_sdk (msgs : list MessageData.t) :
  forallb (fun e => negb (Log.isSdk e))
    (map (fun m => EvNotifyMessageRemoved (MessageData.sequenceNumber m)) msgs) = true.
Proof. induction msgs; simpl; auto. Qed.

Lemma moveSummary_no_sdk n targetName r :
  Log.isSdk (Provider.moveSummary n targetName r) = false.
Proof.
  unfold Provider.moveSummary.
  destruct (Nat.eqb (length (failed r)) 0); [reflexivity|].
  destruct (Nat.eqb (length (successful r)) 0); reflexivity.
Qed.

Lemma deleteSummary_no_sdk n queueName r :
  Log.isSdk (Provider.deleteSummary n queueName r) = false.
Proof.
  unfold Provider.deleteSummary.
  destruct (Nat.eqb (length (failed r)) 0); [reflexivity|].
  destruct (Nat.eqb (length (successful r)) 0); reflexivity.
Qed.

(** [moveMessageToQueue] with the target's secret at hand: some UI calls,
    the loop, some UI calls; the loop's [results] come back. *)
Lemma moveMessageToQueue_run st panelOpen messageData target cs w :
  Store.getConnectionString (Queue.connectionId target) st = Some cs ->
  Js.truthy (Some cs) = true ->
  exists r evStart evEnd,
    let run := Provider.moveLoop sdk (Queue.name target) cs
                 (normalize messageData) emptyResults w in
    M.completion run = Normal r
    /\ Provider.moveMessageToQueue sdk st panelOpen messageData target w
       = (M.world run, evStart ++ M.log run ++ evEnd, Normal (Some r))
    /\ forallb (fun e => negb (Log.isSdk e)) evStart = true
    /\ forallb (fun e => negb (Log.isSdk e)) evEnd = true.
Proof.
  intros Hcs Ht. unfold Provider.moveMessageToQueue. rewrite Hcs, Ht.
  destruct (each_partition (Provider.moveAttempt sdk (Queue.name target) cs)
              (normalize messageData) emptyResults w) as (succ & fail & Hc & _).
  rewrite <- moveLoop_each in Hc.
  destruct (Provider.moveLoop sdk (Queue.name target) cs (normalize messageData)
              emptyResults w) as [[w1 ev1] c] eqn:Hrun.
  cbn in Hc. subst c.
  set (r := {| successful := succ; failed := fail |}) in *.
  exists r.
  exists [EvProgress
            (if Nat.ltb 1 (length (normalize messageData))
             then "Moving " +:+ Js.natToString (length (normalize messageData))
                  +:+ " messages to " +:+ Queue.name target +:+ "..."
             else "Moving message to " +:+ Queue.name target +:+ "...")].
  exists (Provider.moveSummary (length (normalize messageData)) (Queue.name target) r
          :: (if (panelOpen && Nat.ltb 0 (length (successful r)))%bool
              then map (fun m => EvNotifyMessageRemoved (MessageData.sequenceNumber m))
                       (successful r)
              else [])
          ++ [EvRefreshTree]).
  cbn zeta. split; [reflexivity|].
  unfold M.bind, M.emit. rewrite Hrun. cbn [M.world M.log fst snd].
  destruct (panelOpen && Nat.ltb 0 (length (successful r)))%bool.
  - rewrite notifyRemoved_run.
    split; [reflexivity|]. split; [reflexivity|].
    cbn [forallb]. rewrite moveSummary_no_sdk, forallb_app, notifyRemoved_no_sdk.
    reflexivity.
  - unfold M.ret. split; [reflexivity|]. split; [reflexivity|].
    cbn [app forallb]. now rewrite moveSummary_no_sdk.
Qed.

(** [deleteMessages] on a batch whose first message names its source. *)
Lemma deleteMessages_run panelOpen messageData first rest sq w :
  normalize messageData = first :: rest ->
  MessageData.sourceQueue first = Some sq ->
  Js.truthy (MessageData.sourceConnectionString first) = true ->
  exists r evStart evEnd,
    let run := Provider.deleteLoop sdk (Queue.name sq) (first :: rest) emptyResults w in
    M.completion run = Normal r
    /\ Provider.deleteMessages sdk panelOpen messageData w
       = (M.world run, evStart ++ M.log run ++ evEnd, Normal (Some r))
    /\ forallb (fun e => negb (Log.isSdk e)) evStart = true
    /\ forallb (fun e => negb (Log.isSdk e)) evEnd = true.
Proof.
  intros Hn Hq Ht. unfold Provider.deleteMessages. rewrite Hn, Hq, Ht.
  destruct (each_partition (Provider.deleteAttempt sdk (Queue.name sq))
              (first :: rest) emptyResults w) as (succ & fail & Hc & _).
  rewrite <- deleteLoop_each in Hc.
  destruct (Provider.deleteLoop sdk (Queue.name sq) (first :: rest) emptyResults w)
    as [[w1 ev1] c] eqn:Hrun.
  cbn in Hc. subst c.
  set (r := {| successful := succ; failed := fail |}) in *.
  exists r.
  exists [EvProgress
            (if Nat.ltb 1 (length (first :: rest))
             then "Deleting " +:+ Js.natToString (length (first :: rest))
                  +:+ " messages..."
             else "Deleting message...")].
  exists (Provider.deleteSummary (length (first :: rest)) (Queue.name sq) r
          :: (if (panelOpen && Nat.ltb 0 (length (successful r)))%bool
              then [EvRefreshView] else [])
          ++ [EvRefreshTree]).
  cbn zeta. split; [reflexivity|].
  unfold M.bind, M.emit. rewrite Hrun. cbn [M.world M.log fst snd].
  destruct (panelOpen && Nat.ltb 0 (length (successful r)))%bool.
  - split; [reflexivity|]. split; [reflexivity|].
    cbn [app forallb]. now rewrite deleteSummary_no_sdk.
  - unfold M.ret. split; [reflexivity|]. split; [reflexivity|].
    cbn [app forallb]. now rewrite deleteSummary_no_sdk.
Qed.

Lemma partition_sublists input succ fail :
  Bulk.Partition input succ fail ->
  sublist succ input /\ sublist (map fst fail) input
  /\ length succ + length fail = length input.
Proof.
  induction 1 as [|m input succ fail _ (Hs & Hf & Hl)
                  |m error input succ fail _ (Hs & Hf & Hl)]; cbn.
  - repeat split; constructor.
  - repeat split; [now constructor|now constructor|lia].
  - repeat split; [now constructor|now constructor|lia].
Qed.

Lemma move_all_succeed targetName cs msgs r w :
  Bulk.allMovesSucceed sdk targetName cs msgs w = true ->
  M.completion (Bulk.each (Provider.moveAttempt sdk targetName cs) msgs r w)
  = Normal {| successful := successful r ++ msgs; failed := failed r |}.
Proof.
  revert r w. induction msgs as [|m msgs IH]; intros r w H.
  - cbn. rewrite app_nil_r. now destruct r.
  - rewrite each_step. cbn [Bulk.allMovesSucceed] in H.
    apply andb_true_iff in H as [Hsent H].
    unfold Provider.moveAttempt, M.bind.
    destruct (Provider.sendMessageToQueue sdk targetName cs m w)
      as [[w1 ev1] [u|e]]; [|discriminate].
    cbn [M.world fst] in H.
    assert (Hnext : forall w' ev',
              Bulk.allMovesSucceed sdk targetName cs msgs w' = true ->
              M.completion
                (let '(w2, ev2, c) :=
                   Bulk.each (Provider.moveAttempt sdk targetName cs) msgs
                     (pushSuccessful r m) w' in (w2, ev' ++ ev2, c))
              = Normal {| successful := successful r ++ m :: msgs;
                          failed := failed r |}).
    { intros w' ev' Hw'. specialize (IH (pushSuccessful r m) w' Hw').
      destruct (Bulk.each _ msgs (pushSuccessful r m) w') as [[w2 ev2] c].
      cbn in *. rewrite IH. now rewrite <- app_assoc. }
    destruct (MessageData.sourceQueue m) as [sq|];
      [destruct (MessageData.sourceConnectionString m) as [scs|];
       [destruct (Js.truthy (Some scs))|]|].
    + apply andb_true_iff in H as [Hdel H].
      destruct (Provider.deleteMessageFromQueue sdk (Queue.name sq) scs
                  (MessageData.sequenceNumber m) w1) as [[w2 ev2] [u2|e2]];
        [|discriminate].
      cbn [M.world fst] in H. now apply Hnext.
    + unfold M.ret. now apply Hnext.
    + unfold M.ret. now apply Hnext.
    + unfold M.ret. now apply Hnext.
Qed.

Lemma delete_all_succeed queueName msgs r w :
  Bulk.allDeletesSucceed sdk queueName msgs w = true ->
  M.completion (Bulk.each (Provider.deleteAttempt sdk queueName) msgs r w)
  = Normal {| successful := successful r ++ msgs; failed := failed r |}.
Proof.
  revert r w. induction msgs as [|m msgs IH]; intros r w H.
  - cbn. rewrite app_nil_r. now destruct r.
  - rewrite each_step. cbn [Bulk.allDeletesSucceed] in H.
    unfold Provider.deleteAttempt.
    destruct (MessageData.sourceConnectionString m) as [scs|]; [|discriminate].
    apply andb_true_iff in H as [Ht H]. rewrite Ht.
    apply andb_true_iff in H as [Hdel H].
    destruct (Provider.deleteMessageFromQueue sdk queueName scs
                (MessageData.sequenceNumber m) w) as [[w1 ev1] [u|e]];
      [|discriminate].
    cbn [M.world fst] in H. specialize (IH (pushSuccessful r m) w1 H).
    destruct (Bulk.each _ msgs (pushSuccessful r m) w1) as [[w2 ev2] c].
    cbn in *. rewrite IH. now rewrite <- app_assoc.
Qed.

End LoopFacts.

(** C2: when, along the run, the send of every item and the deletion of
    every item return normally, a bulk move ends with all N messages of the
    batch in [successful], in order, and nothing in [failed]; likewise for a
    bulk delete, whose deletions all go to the source queue named by the
    batch's first message. *)
Theorem bulk_all_succeed {W : Type} (sdk : Sdk W) st panelOpen messageData
    target cs first rest sq (w : W) :
  (Store.getConnectionString (Queue.connectionId target) st = Some cs ->
   Js.truthy (Some cs) = true ->
   Bulk.allMovesSucceed sdk (Queue.name target) cs (normalize messageData) w = true ->
   exists r,
     M.completion (Provider.moveMessageToQueue sdk st panelOpen messageData target w)
     = Normal (Some r)
     /\ successful r = normalize messageData /\ failed r = []
     /\ length (successful r) = length (normalize messageData)
     /\ length (failed r) = 0)
  /\
  (normalize messageData = first :: rest ->
   MessageData.sourceQueue first = Some sq ->
   Bulk.allDeletesSucceed sdk (Queue.name sq) (normalize messageData) w = true ->
   exists r,
     M.completion (Provider.deleteMessages sdk panelOpen messageData w)
     = Normal (Some r)
     /\ successful r = normalize messageData /\ failed r = []
     /\ length (successful r) = length (normalize messageData)
     /\ length (failed r) = 0).
Proof.
  split.
  - intros Hcs Ht Hall.
    destruct (moveMessageToQueue_run sdk st panelOpen messageData target cs w Hcs Ht)
      as (r & evStart & evEnd & Hc & Hrun & _).
    cbn zeta in Hc, Hrun. rewrite moveLoop_each in Hc.
    rewrite (move_all_succeed sdk _ _ _ emptyResults w Hall) in Hc.
    injection Hc as <-. eexists. split; [now rewrite Hrun|].
    cbn. repeat split.
  - intros Hn Hq Hall.
    assert (Ht : Js.truthy (MessageData.sourceConnectionString first) = true).
    { rewrite Hn in Hall. cbn [Bulk.allDeletesSucceed] in Hall.
      destruct (MessageData.sourceConnectionString first); [|discriminate].
      now apply andb_true_iff in Hall as [Ht _]. }
    destruct (deleteMessages_run sdk panelOpen messageData first rest sq w Hn Hq Ht)
      as (r & evStart & evEnd & Hc & Hrun & _).
    cbn zeta in Hc, Hrun. rewrite deleteLoop_each in Hc. rewrite <- Hn in Hc.
    rewrite (delete_all_succeed sdk _ _ emptyResults w Hall) in Hc.
    injection Hc as <-. eexists. split; [now rewrite Hrun|].
    cbn. repeat split.
Qed.

Lemma bulk_all_succeed_witness :
  (exists r,
     M.completion
       (Provider.moveMessageToQueue (Script.sdk Script.noFaults) Script.store true
          (Many Script.selection) Script.archive
          (Script.start [[Script.inbound 1; Script.inbound 2]; [Script.inbound 2]]))
     = Normal (Some r)
     /\ successful r = Script.selection /\ failed r = []
     /\ length (successful r) = 2 /\ length (failed r) = 0)
  /\
  (exists r,
     M.completion
       (Provider.deleteMessages (Script.sdk Script.noFaults) true
          (Many Script.selection)
          (Script.start [[Script.inbound 1; Script.inbound 2]; [Script.inbound 2]]))
     = Normal (Some r)
     /\ successful r = Script.selection /\ failed r = []
     /\ length (successful r) = 2 /\ length (failed r) = 0).
Proof.
  destruct (bulk_all_succeed (Script.sdk Script.noFaults) Script.store true
              (Many Script.selection) Script.archive Script.secret
              (Panel.attachSource Script.panel (Script.row 1))
              [Panel.attachSource Script.panel (Script.row 2)]
              Script.orders
              (Script.start [[Script.inbound 1; Script.inbound 2]; [Script.inbound 2]]))
    as [Hmove Hdelete].
  split.
  - apply Hmove; vm_compute; reflexivity.
  - apply Hdelete; vm_compute; reflexivity.
Defined.

(** The log of a bulk loop holds, for each item, the calls of the attempt
    on that item, made from the world the items before it left, after their
    calls and before the calls for the items after it. *)
Lemma each_in_turn {W : Type} (attempt : MessageData.t -> M.t (W := W) unit)
    pre msg post r0 (w : W) :
  let before := Bulk.each attempt pre r0 w in
  exists tail,
    M.log (Bulk.each attempt (pre ++ msg :: post) r0 w)
    = M.log before ++ M.log (attempt msg (M.world before)) ++ tail.
Proof.
  cbn zeta. rewrite each_app. unfold M.bind.
  destruct (each_partition attempt pre r0 w) as (succ & fail & Hc & _).
  destruct (Bulk.each attempt pre r0 w) as [[w1 ev1] c1]. cbn in Hc. subst c1.
  cbn [M.world M.log fst snd]. rewrite each_step.
  destruct (attempt msg w1) as [[w2 ev2] [u|e]]; cbn [M.log fst snd].
  - destruct (Bulk.each attempt post _ w2) as [[w3 ev3] c3]. now exists ev3.
  - destruct (Bulk.each attempt post _ w2) as [[w3 ev3] c3]. now exists ev3.
Qed.

(** C8: the loops take the items one after the other, in input order: the
    calls made for an item follow those for the items before it and precede
    those for the items after it.  So a bulk move, and a bulk delete that
    starts its loop, end with a [successful] list and a [failed] list that
    are order-preserving subsequences of the input and together split it. *)
Theorem bulk_results_follow_input_order {W : Type} (sdk : Sdk W) st panelOpen
    messageData target cs first rest sq (w : W) :
  (Store.getConnectionString (Queue.connectionId target) st = Some cs ->
   Js.truthy (Some cs) = true ->
   exists r,
     M.completion (Provider.moveMessageToQueue sdk st panelOpen messageData target w)
     = Normal (Some r)
     /\ Bulk.Partition (normalize messageData) (successful r) (failed r)
     /\ sublist (successful r) (normalize messageData)
     /\ sublist (map fst (failed r)) (normalize messageData)
     /\ length (successful r) + length (failed r) = length (normalize messageData)
     /\ forall pre msg post,
          normalize messageData = pre ++ msg :: post ->
          let before := Provider.moveLoop sdk (Queue.name target) cs pre
                          emptyResults w in
          exists tail,
            M.log (Provider.moveLoop sdk (Queue.name target) cs
                     (normalize messageData) emptyResults w)
            = M.log before
              ++ M.log (Provider.moveAttempt sdk (Queue.name target) cs msg
                          (M.world before))
              ++ tail)
  /\
  (normalize messageData = first :: rest ->
   MessageData.sourceQueue first = Some sq ->
   Js.truthy (MessageData.sourceConnectionString first) = true ->
   exists r,
     M.completion (Provider.deleteMessages sdk panelOpen messageData w)
     = Normal (Some r)
     /\ Bulk.Partition (normalize messageData) (successful r) (failed r)
     /\ sublist (successful r) (normalize messageData)
     /\ sublist (map fst (failed r)) (normalize messageData)
     /\ length (successful r) + length (failed r) = length (normalize messageData)
     /\ forall pre msg post,
          normalize messageData = pre ++ msg :: post ->
          let before := Provider.deleteLoop sdk (Queue.name sq) pre emptyResults w in
          exists tail,
            M.log (Provider.deleteLoop sdk (Queue.name sq)
                     (normalize messageData) emptyResults w)
            = M.log before
              ++ M.log (Provider.deleteAttempt sdk (Queue.name sq) msg
                          (M.world before))
              ++ tail).
Proof.
  split.
  - intros Hcs Ht.
    destruct (moveMessageToQueue_run sdk st panelOpen messageData target cs w Hcs Ht)
      as (r & evStart & evEnd & Hc & Hrun & _).
    cbn zeta in Hc, Hrun. rewrite moveLoop_each in Hc.
    destruct (each_partition (Provider.moveAttempt sdk (Queue.name target) cs)
                (normalize messageData) emptyResults w) as (succ & fail & Hc' & Hp).
    rewrite Hc in Hc'. injection Hc' as ->.
    exists {| successful := succ; failed := fail |}.
    split; [now rewrite Hrun|]. cbn. split; [exact Hp|].
    destruct (partition_sublists _ _ _ Hp) as (Hs & Hf & Hl).
    split; [exact Hs|]. split; [exact Hf|]. split; [exact Hl|].
    intros pre msg post ->. rewrite !moveLoop_each.
    apply (each_in_turn (Provider.moveAttempt sdk (Queue.name target) cs)).
  - intros Hn Hq Ht.
    destruct (deleteMessages_run sdk panelOpen messageData first rest sq w Hn Hq Ht)
      as (r & evStart & evEnd & Hc & Hrun & _).
    cbn zeta in Hc, Hrun. rewrite deleteLoop_each in Hc.
    destruct (each_partition (Provider.deleteAttempt sdk (Queue.name sq))
                (first :: rest) emptyResults w) as (succ & fail & Hc' & Hp).
    rewrite Hc in Hc'. injection Hc' as ->.
    exists {| successful := succ; failed := fail |}.
    split; [now rewrite Hrun|]. cbn. rewrite Hn. split; [exact Hp|].
    destruct (partition_sublists _ _ _ Hp) as (Hs & Hf & Hl).
    split; [exact Hs|]. split; [exact Hf|]. split; [exact Hl|].
    intros pre msg post ->. rewrite !deleteLoop_each.
    apply (each_in_turn (Provider.deleteAttempt sdk (Queue.name sq))).
Qed.

(** ** The scan of [deleteMessageFromQueue] *)

Section ScanFacts.
Context {W : Type} (sdk : Sdk W).
Variables (cs q sequenceNumber : string).

Lemma scanBatch_shape msgs found w :
  Scan.BatchRun cs q sequenceNumber msgs found
    (M.log (Provider.scanBatch sdk q cs sequenceNumber msgs found w))
    (M.completion (Provider.scanBatch sdk q cs sequenceNumber msgs found w)).
Proof.
  revert found w. induction msgs as [|m rest IH]; intros found w.
  - constructor.
  - cbn [Provider.scanBatch].
    destruct (seqMatches m sequenceNumber) eqn:Hm; unfold M.bind, M.call.
    + destruct (invoke sdk (CompleteMessage cs q m) w) as [w1 [e|]].
      * now constructor.
      * specialize (IH true w1).
        destruct (Provider.scanBatch sdk q cs sequenceNumber rest true w1)
          as [[w2 ev2] c].
        now constructor.
    + destruct (invoke sdk (AbandonMessage cs q m) w) as [w1 [e|]].
      * now constructor.
      * specialize (IH found w1).
        destruct (Provider.scanBatch sdk q cs sequenceNumber rest found w1)
          as [[w2 ev2] c].
        now constructor.
Qed.

Lemma scanAttempts_shape n found w :
  Scan.Run cs q sequenceNumber n found
    (M.log (Provider.scanAttempts sdk q cs sequenceNumber n found w))
    (M.completion (Provider.scanAttempts sdk q cs sequenceNumber n found w)).
Proof.
  revert found w. induction n as [|n IH]; intros found w.
  - constructor.
  - cbn [Provider.scanAttempts]. destruct found; [constructor|].
    unfold M.bind, M.receive.
    destruct (receiveMessages sdk cs q 100 5000 w) as [w1 [e|msgs]].
    + constructor.
    + pose proof (scanBatch_shape msgs false w1) as Hb.
      destruct (Provider.scanBatch sdk q cs sequenceNumber msgs false w1)
        as [[w2 ev2] [found'|e]]; cbn [M.log M.completion fst snd] in Hb.
      * destruct (negb found' && Nat.eqb (length msgs) 0)%bool eqn:Hbreak.
        -- apply andb_true_iff in Hbreak as [Hf Hl].
           destruct msgs; [|discriminate]. inversion Hb; subst.
           cbn. constructor.
        -- specialize (IH found' w2).
           destruct (Provider.scanAttempts sdk q cs sequenceNumber n found' w2)
             as [[w3 ev3] c].
           cbn in *. econstructor; eauto.
      * cbn. now constructor.
Qed.

Lemma deleteMessageFromQueue_shape w :
  Scan.DeleteRun cs q sequenceNumber
    (M.log (Provider.deleteMessageFromQueue sdk q cs sequenceNumber w))
    (M.completion (Provider.deleteMessageFromQueue sdk q cs sequenceNumber w)).
Proof.
  unfold Provider.deleteMessageFromQueue, M.bind, M.call, M.tryFinally.
  destruct (invoke sdk (NewClient cs) w) as [w1 [e|]]; [constructor|].
  destruct (invoke sdk (CreateReceiver cs q) w1) as [w2 [e|]]; [constructor|].
  pose proof (scanAttempts_shape Provider.maxAttempts false w2) as Hs.
  destruct (Provider.scanAttempts sdk q cs sequenceNumber Provider.maxAttempts false w2)
    as [[w3 ev3] c]; cbn [M.log M.completion fst snd] in Hs.
  destruct c as [[|]|e]; unfold M.ret, M.throw;
    (destruct (invoke sdk (CloseReceiver cs q) w3) as [w5 [e1|]];
     [|destruct (invoke sdk (CloseClient cs) w5) as [w6 [e2|]]]);
    cbn [M.log M.completion fst snd app]; rewrite ?app_nil_r;
    (econstructor; [exact Hs|constructor]).
Qed.

End ScanFacts.

(** ** Reading the logs of scans *)

Ltac log_cases :=
  repeat match goal with
         | |- context [match ?x with _ => _ end] => destruct x
         end.

Lemma received_app a b : Log.received (a ++ b) = Log.received a ++ Log.received b.
Proof.
  induction a as [|e a IH]; [reflexivity|].
  cbn. log_cases; cbn; rewrite ?IH, ?app_assoc; reflexivity.
Qed.

Lemma completeCalls_app a b :
  Log.completeCalls (a ++ b) = Log.completeCalls a ++ Log.completeCalls b.
Proof.
  induction a as [|e a IH]; [reflexivity|].
  cbn. log_cases; cbn; rewrite ?IH; reflexivity.
Qed.

Lemma abandonCalls_app a b :
  Log.abandonCalls (a ++ b) = Log.abandonCalls a ++ Log.abandonCalls b.
Proof.
  induction a as [|e a IH]; [reflexivity|].
  cbn. log_cases; cbn; rewrite ?IH; reflexivity.
Qed.

Lemma receiveArgs_app a b :
  Log.receiveArgs (a ++ b) = Log.receiveArgs a ++ Log.receiveArgs b.
Proof.
  induction a as [|e a IH]; [reflexivity|].
  cbn. log_cases; cbn; rewrite ?IH; reflexivity.
Qed.

Lemma thrown_app a b : Log.thrown (a ++ b) = Log.thrown a ++ Log.thrown b.
Proof.
  induction a as [|e a IH]; [reflexivity|].
  cbn. log_cases; cbn; rewrite ?IH; reflexivity.
Qed.

Lemma settleCallsSucceed_app a b :
  Log.settleCallsSucceed (a ++ b)
  = (Log.settleCallsSucceed a && Log.settleCallsSucceed b)%bool.
Proof.
  induction a as [|e a IH]; [reflexivity|].
  cbn. log_cases; cbn; rewrite ?IH; reflexivity.
Qed.

Lemma paced_quiet sequenceNumber a b :
  existsb Log.isReceive a = false ->
  Log.paced sequenceNumber (a ++ b) = Log.paced sequenceNumber b.
Proof.
  induction a as [|e a IH]; [reflexivity|].
  cbn [existsb app Log.paced]. intros H. apply orb_false_iff in H as [He Ha].
  destruct e; try discriminate; auto.
Qed.

Lemma paced_then_quiet sequenceNumber a b :
  existsb Log.isReceive b = false ->
  Log.paced sequenceNumber (a ++ b) = Log.paced sequenceNumber a.
Proof.
  intros Hb. induction a as [|e a IH].
  - cbn. rewrite <- (app_nil_r b). now apply paced_quiet.
  - cbn [app Log.paced]. destruct e; auto.
    now rewrite existsb_app, Hb, orb_false_r, IH.
Qed.

Lemma unmatched_batch sequenceNumber (msgs : list Received) :
  forallb (fun m => negb (seqMatches m sequenceNumber)) msgs = true ->
  existsb (fun m => seqMatches m sequenceNumber) msgs = false
  /\ List.filter (fun m => seqMatches m sequenceNumber) msgs = [].
Proof.
  induction msgs as [|m msgs IH]; cbn; [auto|].
  intros H. apply andb_true_iff in H as [Hm H].
  apply negb_true_iff in Hm. rewrite Hm. cbn. now apply IH.
Qed.

Section ScanLogs.
Variables (cs q sequenceNumber : string).

Abbreviation matches := (fun m => seqMatches m sequenceNumber).
Abbreviation differs := (fun m => negb (seqMatches m sequenceNumber)).

Lemma batch_quiet msgs found ev c :
  Scan.BatchRun cs q sequenceNumber msgs found ev c ->
  existsb Log.isReceive ev = false /\ Log.received ev = []
  /\ Log.receiveArgs ev = [] /\ forallb (fun e => negb (Log.isSend e)) ev = true
  /\ Forall (fun e => Log.queueOf e = Some q) ev.
Proof.
  induction 1; cbn; repeat split; try tauto; repeat constructor; tauto.
Qed.

Lemma batch_calls msgs found ev c :
  Scan.BatchRun cs q sequenceNumber msgs found ev c ->
  forallb matches (Log.completeCalls ev) = true
  /\ forallb differs (Log.abandonCalls ev) = true.
Proof.
  induction 1 as [|m rest found ev c Hm _ [IHc IHa]|m rest found e Hm
                  |m rest found ev c Hm _ [IHc IHa]|m rest found e Hm];
    cbn; rewrite ?Hm; cbn; auto.
Qed.

Lemma batch_normal msgs found ev found' :
  Scan.BatchRun cs q sequenceNumber msgs found ev (Normal found') ->
  found' = (found || existsb matches msgs)%bool
  /\ Log.abandonCalls ev = List.filter differs msgs
  /\ Log.completeCalls ev = List.filter matches msgs.
Proof.
  remember (Normal found') as c eqn:Hc. induction 1 as
    [|m rest found ev c Hm _ IH| |m rest found ev c Hm _ IH|]; try discriminate.
  - injection Hc as ->. cbn. rewrite orb_false_r. auto.
  - destruct (IH Hc) as (-> & Ha & Hcm). cbn. rewrite Hm. cbn.
    rewrite orb_true_r. repeat split; [exact Ha|now rewrite Hcm].
  - destruct (IH Hc) as (-> & Ha & Hcm). cbn. rewrite Hm. cbn.
    repeat split; [now rewrite Ha|exact Hcm].
Qed.

Lemma batch_settled msgs found ev c :
  Scan.BatchRun cs q sequenceNumber msgs found ev c ->
  Log.settleCallsSucceed ev = true -> exists found', c = Normal found'.
Proof.
  induction 1; cbn; intros Hs; eauto; discriminate.
Qed.

Lemma batch_thrown msgs found ev e :
  Scan.BatchRun cs q sequenceNumber msgs found ev (Abrupt e) ->
  In e (Log.thrown ev).
Proof.
  remember (Abrupt e) as c eqn:Hc. induction 1; try discriminate; cbn; auto.
  - injection Hc as ->. now left.
  - injection Hc as ->. now left.
Qed.

Lemma run_of_found n ev c :
  Scan.Run cs q sequenceNumber n true ev c -> ev = [] /\ c = Normal true.
Proof. inversion 1; auto. Qed.

Lemma run_receives n found ev c :
  Scan.Run cs q sequenceNumber n found ev c ->
  length (Log.receiveArgs ev) <= n
  /\ Forall (fun a => a = (100, 5000)) (Log.receiveArgs ev)
  /\ forallb (fun e => negb (Log.isSend e)) ev = true
  /\ Forall (fun e => Log.queueOf e = Some q) ev.
Proof.
  induction 1 as [found|n|n e|n msgs ev e Hb|n
                  |n msgs found' ev ev' c Hb Hbreak _ (IHl & IHa & IHs & IHq)];
    cbn [Log.receiveArgs length forallb Log.isSend negb andb].
  - repeat split; auto.
  - repeat split; auto; lia.
  - repeat split; auto; try lia; repeat constructor.
  - destruct (batch_quiet _ _ _ _ Hb) as (_ & _ & Ha & Hs & Hq).
    rewrite Ha. cbn. repeat split; auto; try lia; now constructor.
  - repeat split; auto; try lia; repeat constructor.
  - destruct (batch_quiet _ _ _ _ Hb) as (_ & _ & Ha & Hs & Hq).
    rewrite receiveArgs_app, Ha, forallb_app, Hs, IHs. cbn.
    repeat split; auto; try lia. constructor; [reflexivity|].
    apply Forall_app. now split.
Qed.

Lemma run_paced n found ev c :
  Scan.Run cs q sequenceNumber n found ev c ->
  Log.paced sequenceNumber ev = true.
Proof.
  induction 1 as [found|n|n e|n msgs ev e Hb|n
                  |n msgs found' ev ev' c Hb Hbreak Hr IH];
    cbn [Log.paced existsb]; auto.
  - destruct (batch_quiet _ _ _ _ Hb) as (Hq & _).
    rewrite Hq. cbn. rewrite <- (app_nil_r ev), paced_quiet; auto.
  - destruct (batch_quiet _ _ _ _ Hb) as (Hq & _).
    rewrite existsb_app, Hq, paced_quiet, IH by exact Hq. cbn [orb].
    destruct (existsb Log.isReceive ev') eqn:Hmore; [|reflexivity].
    destruct found'.
    + apply run_of_found in Hr as [-> _]. discriminate.
    + destruct (batch_normal _ _ _ _ Hb) as (Hf & _). cbn in Hf.
      cbn in Hbreak. cbn [Log.mayContinue]. rewrite Hbreak. cbn.
      rewrite andb_true_r. apply forallb_forall. intros m Hm.
      destruct (seqMatches m sequenceNumber) eqn:Hmm; [|reflexivity].
      assert (Hex : existsb matches msgs = true)
        by (apply existsb_exists; now exists m).
      rewrite Hex in Hf. discriminate.
Qed.

Lemma batch_calls_received msgs found ev c :
  Scan.BatchRun cs q sequenceNumber msgs found ev c ->
  incl (Log.completeCalls ev) msgs.
Proof.
  induction 1 as [|m rest found ev c Hm _ IH| |m rest found ev c Hm _ IH|];
    cbn; intros x Hx; cbn in *; try tauto.
  - destruct Hx as [->|Hx]; [now left|right; now apply IH].
  - right. now apply IH.
Qed.

Lemma batch_unmatched msgs found ev c :
  Scan.BatchRun cs q sequenceNumber msgs found ev c ->
  forallb differs msgs = true -> Log.completeCalls ev = [].
Proof.
  intros Hb Hd. destruct (Log.completeCalls ev) as [|m l] eqn:Hc; [reflexivity|].
  destruct (batch_calls _ _ _ _ Hb) as [Hm _]. rewrite Hc in Hm. cbn in Hm.
  apply andb_true_iff in Hm as [Hm _].
  pose proof (batch_calls_received _ _ _ _ Hb m) as Hin. rewrite Hc in Hin.
  specialize (Hin (or_introl eq_refl)).
  rewrite forallb_forall in Hd. specialize (Hd m Hin). cbn in Hd.
  rewrite Hm in Hd. discriminate.
Qed.

Lemma run_calls n found ev c :
  Scan.Run cs q sequenceNumber n found ev c ->
  forallb matches (Log.completeCalls ev) = true
  /\ forallb differs (Log.abandonCalls ev) = true.
Proof.
  induction 1 as [found|n|n e|n msgs ev e Hb|n
                  |n msgs found' ev ev' c Hb Hbreak _ [IHc IHa]];
    cbn [Log.completeCalls Log.abandonCalls forallb]; auto.
  - exact (batch_calls _ _ _ _ Hb).
  - destruct (batch_calls _ _ _ _ Hb) as [Hc Ha].
    rewrite completeCalls_app, abandonCalls_app, !forallb_app, Hc, Ha, IHc, IHa.
    auto.
Qed.

Lemma run_abandons n found ev c :
  Scan.Run cs q sequenceNumber n found ev c ->
  Log.settleCallsSucceed ev = true ->
  forall m, In m (Log.received ev) -> seqMatches m sequenceNumber = false ->
            In m (Log.abandonCalls ev).
Proof.
  induction 1 as [found|n|n e|n msgs ev e Hb|n
                  |n msgs found' ev ev' c Hb Hbreak _ IH];
    cbn [Log.received Log.abandonCalls Log.settleCallsSucceed];
    intros Hs m Hin Hm; try (now destruct Hin).
  - apply (batch_settled _ _ _ _ Hb) in Hs as [found' Hs]. discriminate.
  - rewrite settleCallsSucceed_app in Hs. apply andb_true_iff in Hs as [Hs Hs'].
    destruct (batch_quiet _ _ _ _ Hb) as (_ & Hr & _).
    destruct (batch_normal _ _ _ _ Hb) as (_ & Ha & _).
    rewrite received_app, Hr in Hin. cbn [app] in Hin.
    rewrite abandonCalls_app, Ha. apply in_or_app.
    apply in_app_or in Hin as [Hin|Hin].
    + left. apply filter_In. split; [exact Hin|]. now rewrite Hm.
    + right. now apply IH.
Qed.

Lemma run_unmatched n found ev c :
  Scan.Run cs q sequenceNumber n found ev c ->
  forallb differs (Log.received ev) = true ->
  Log.completeCalls ev = []
  /\ (c = Normal found \/ exists e, c = Abrupt e /\ In e (Log.thrown ev)).
Proof.
  induction 1 as [found|n|n e|n msgs ev e Hb|n
                  |n msgs found' ev ev' c Hb Hbreak _ IH];
    cbn [Log.received Log.completeCalls Log.thrown]; intros Hd.
  - auto.
  - auto.
  - split; [reflexivity|]. right. exists e. split; [reflexivity|now left].
  - rewrite forallb_app in Hd. apply andb_true_iff in Hd as [Hd _].
    split; [exact (batch_unmatched _ _ _ _ Hb Hd)|].
    right. exists e. split; [reflexivity|]. exact (batch_thrown _ _ _ _ Hb).
  - auto.
  - rewrite forallb_app in Hd. apply andb_true_iff in Hd as [Hd Hd'].
    rewrite received_app, forallb_app in Hd'.
    apply andb_true_iff in Hd' as [_ Hd'].
    destruct (batch_normal _ _ _ _ Hb) as (Hf & _ & Hc).
    destruct (unmatched_batch _ _ Hd) as [Hex Hfil].
    cbn in Hf. rewrite Hex in Hf. subst found'.
    destruct (IH Hd') as [Hc' Hout].
    rewrite completeCalls_app, Hc, Hfil, Hc'. split; [reflexivity|].
    destruct Hout as [->|(e & -> & He)]; [now left|].
    right. exists e. split; [reflexivity|].
    rewrite thrown_app. apply in_or_app. now right.
Qed.

End ScanLogs.

Section DeleteLogs.
Variables (cs q sequenceNumber : string).

Lemma closing_receiver {A : Type} (body : Completion A) ev c :
  Scan.Closing cs (CloseReceiver cs q) body ev c ->
  Log.received ev = [] /\ Log.completeCalls ev = [] /\ Log.abandonCalls ev = []
  /\ Log.receiveArgs ev = [] /\ existsb Log.isReceive ev = false
  /\ Log.settleCallsSucceed ev = true
  /\ forallb (fun e => negb (Log.isSend e)) ev = true
  /\ Forall (fun e => Log.queueOf e = None \/ Log.queueOf e = Some q) ev
  /\ (c = body \/ exists e, c = Abrupt e /\ In e (Log.thrown ev)).
Proof.
  inversion 1; subst; cbn; repeat split; auto;
    try (right; eexists; split; [reflexivity|]; cbn; tauto);
    repeat constructor; cbn; tauto.
Qed.

Lemma delete_receives ev c :
  Scan.DeleteRun cs q sequenceNumber ev c ->
  length (Log.receiveArgs ev) <= 5
  /\ Forall (fun a => a = (100, 5000)) (Log.receiveArgs ev)
  /\ Log.paced sequenceNumber ev = true.
Proof.
  inversion 1 as [e|e|scan c0 closing c' Hr Hc]; subst; cbn.
  - repeat split; auto; lia.
  - repeat split; auto; lia.
  - destruct (closing_receiver _ _ _ Hc) as (_ & _ & _ & Ha & Hq & _).
    destruct (run_receives _ _ _ _ _ _ _ Hr) as (Hl & Hf & _).
    rewrite receiveArgs_app, Ha, app_nil_r, paced_then_quiet by exact Hq.
    repeat split; auto. exact (run_paced _ _ _ _ _ _ _ Hr).
Qed.

Lemma delete_calls ev c :
  Scan.DeleteRun cs q sequenceNumber ev c ->
  forallb (fun m => seqMatches m sequenceNumber) (Log.completeCalls ev) = true
  /\ forallb (fun m => negb (seqMatches m sequenceNumber)) (Log.abandonCalls ev) = true.
Proof.
  inversion 1 as [e|e|scan c0 closing c' Hr Hc]; subst; cbn; auto.
  destruct (closing_receiver _ _ _ Hc) as (_ & Hcc & Hac & _).
  rewrite completeCalls_app, abandonCalls_app, Hcc, Hac, !app_nil_r.
  exact (run_calls _ _ _ _ _ _ _ Hr).
Qed.

Lemma delete_abandons ev c :
  Scan.DeleteRun cs q sequenceNumber ev c ->
  Log.settleCallsSucceed ev = true ->
  forall m, In m (Log.received ev) -> seqMatches m sequenceNumber = false ->
            In m (Log.abandonCalls ev).
Proof.
  inversion 1 as [e|e|scan c0 closing c' Hr Hc]; subst; cbn;
    intros Hs m Hin Hm; try (now destruct Hin).
  destruct (closing_receiver _ _ _ Hc) as (Hrc & _ & Hac & _).
  rewrite settleCallsSucceed_app in Hs. apply andb_true_iff in Hs as [Hs _].
  rewrite received_app, Hrc, app_nil_r in Hin.
  rewrite abandonCalls_app, Hac, app_nil_r.
  exact (run_abandons _ _ _ _ _ _ _ Hr Hs m Hin Hm).
Qed.

Lemma delete_unmatched ev c :
  Scan.DeleteRun cs q sequenceNumber ev c ->
  forallb (fun m => negb (seqMatches m sequenceNumber)) (Log.received ev) = true ->
  Log.completeCalls ev = []
  /\ exists e, c = Abrupt e
               /\ (e = Provider.notFound sequenceNumber \/ In e (Log.thrown ev)).
Proof.
  inversion 1 as [e|e|scan c0 closing c' Hr Hc]; subst; cbn; intros Hd.
  - split; [reflexivity|]. exists e. split; [reflexivity|]. right. now left.
  - split; [reflexivity|]. exists e. split; [reflexivity|]. right. now left.
  - destruct (closing_receiver _ _ _ Hc) as (Hrc & Hcc & _ & _ & _ & _ & _ & _ & Hout).
    rewrite received_app, Hrc, app_nil_r in Hd.
    destruct (run_unmatched _ _ _ _ _ _ _ Hr Hd) as [Hnone Hscan].
    rewrite completeCalls_app, Hnone, Hcc. split; [reflexivity|].
    rewrite thrown_app.
    destruct Hout as [->|(e & -> & He)].
    + destruct Hscan as [->|(e & -> & He)]; cbn.
      * eexists. split; [reflexivity|]. now left.
      * exists e. split; [reflexivity|]. right. apply in_or_app. now left.
    + exists e. split; [reflexivity|]. right. apply in_or_app. now right.
Qed.

Lemma delete_queue ev c :
  Scan.DeleteRun cs q sequenceNumber ev c ->
  forallb (fun e => negb (Log.isSend e)) ev = true
  /\ Forall (fun e => Log.queueOf e = None \/ Log.queueOf e = Some q) ev.
Proof.
  inversion 1 as [e|e|scan c0 closing c' Hr Hc]; subst; cbn.
  - split; [reflexivity|]. constructor; [now left|constructor].
  - split; [reflexivity|].
    constructor; [now left|]. constructor; [now right|constructor].
  - destruct (closing_receiver _ _ _ Hc) as (_ & _ & _ & _ & _ & _ & Hs & Hq & _).
    destruct (run_receives _ _ _ _ _ _ _ Hr) as (_ & _ & Hs' & Hq').
    rewrite forallb_app, Hs, Hs'. split; [reflexivity|].
    constructor; [now left|]. constructor; [now right|].
    apply Forall_app. split; [|exact Hq].
    eapply Forall_impl; [exact Hq'|]. cbn. tauto.
Qed.

End DeleteLogs.

Lemma paced_split sequenceNumber before cs q n t answer after :
  Log.paced sequenceNumber (before ++ EvReceive cs q n t answer :: after) = true ->
  existsb Log.isReceive after = true ->
  Log.mayContinue sequenceNumber answer = true.
Proof.
  induction before as [|e before IH]; cbn [app Log.paced]; intros H Hafter.
  - rewrite Hafter in H. now apply andb_true_iff in H as [H _].
  - destruct e; try (now apply IH).
    apply andb_true_iff in H as [_ H]. now apply IH.
Qed.

(** C7: a scan makes at most 5 receive calls, each asking for at most 100
    messages with a maximum wait of 5000 ms; a receive call is followed by
    another one only if it handed out a non-empty batch holding no message
    with the wanted sequence number, so the scan stops once the match was
    completed or an attempt came back empty. *)
Theorem scan_is_bounded {W : Type} (sdk : Sdk W)
    (queueName connectionString sequenceNumber : string) (w : W) :
  let log := M.log (Provider.deleteMessageFromQueue sdk queueName connectionString
                      sequenceNumber w) in
  length (Log.receiveArgs log) <= 5
  /\ Forall (fun a => a = (100, 5000)) (Log.receiveArgs log)
  /\ (forall before cs q n t answer after,
        log = before ++ EvReceive cs q n t answer :: after ->
        existsb Log.isReceive after = true ->
        exists msgs, answer = inr msgs /\ msgs <> []
                     /\ forall m, In m msgs -> seqMatches m sequenceNumber = false).
Proof.
  intros log.
  destruct (delete_receives _ _ _ _ _
              (deleteMessageFromQueue_shape sdk connectionString queueName
                 sequenceNumber w)) as (Hl & Ha & Hp).
  fold log in Hl, Ha, Hp. split; [exact Hl|]. split; [exact Ha|].
  intros before cs q n t answer after Hlog Hafter.
  rewrite Hlog in Hp. pose proof (paced_split _ _ _ _ _ _ _ _ Hp Hafter) as Hc.
  destruct answer as [e|msgs]; [discriminate|]. exists msgs.
  cbn in Hc. apply andb_true_iff in Hc as [Hne Hd].
  split; [reflexivity|]. split.
  - intros ->. discriminate.
  - intros m Hm. rewrite forallb_forall in Hd. specialize (Hd m Hm).
    now apply negb_true_iff in Hd.
Qed.

(** ** A scan that is cut short *)

Section ScanStops.
Variables (cs q sequenceNumber : string).

Abbreviation settled :=
  (fun x => EvCall (Trace.settle cs q sequenceNumber x) None).

(** A throwing call of the inner loop is its last one: the messages before
    it were settled without exception, those after it were not reached. *)
Lemma batch_stops msgs found ev c :
  Scan.BatchRun cs q sequenceNumber msgs found ev c ->
  forall before c0 e after,
    ev = before ++ EvCall c0 (Some e) :: after ->
    exists reached m unreached,
      msgs = reached ++ m :: unreached
      /\ before = map settled reached
      /\ c0 = Trace.settle cs q sequenceNumber m
      /\ after = [] /\ c = Abrupt e.
Proof.
  induction 1 as [found|m rest found ev c Hm _ IH|m rest found e Hm
                  |m rest found ev c Hm _ IH|m rest found e Hm];
    intros before c0 e0 after Hev.
  - destruct before; discriminate.
  - destruct before as [|b before]; cbn in Hev; [discriminate|].
    injection Hev as <- Hev.
    destruct (IH _ _ _ _ Hev) as (reached & m' & unreached & -> & -> & -> & -> & ->).
    exists (m :: reached), m', unreached. cbn [map app].
    unfold Trace.settle. rewrite Hm. auto.
  - destruct before as [|b before]; cbn in Hev.
    + injection Hev as <- <- <-. exists [], m, rest.
      unfold Trace.settle. rewrite Hm. auto.
    + injection Hev as _ Hev. destruct before; discriminate.
  - destruct before as [|b before]; cbn in Hev; [discriminate|].
    injection Hev as <- Hev.
    destruct (IH _ _ _ _ Hev) as (reached & m' & unreached & -> & -> & -> & -> & ->).
    exists (m :: reached), m', unreached. cbn [map app].
    unfold Trace.settle. rewrite Hm. auto.
  - destruct before as [|b before]; cbn in Hev.
    + injection Hev as <- <- <-. exists [], m, rest.
      unfold Trace.settle. rewrite Hm. auto.
    + injection Hev as _ Hev. destruct before; discriminate.
Qed.

Lemma run_stops n found ev c :
  Scan.Run cs q sequenceNumber n found ev c ->
  forall before c0 e after,
    ev = before ++ EvCall c0 (Some e) :: after ->
    exists prior reached m unreached,
      before = prior
               ++ EvReceive cs q 100 5000 (inr (reached ++ m :: unreached))
               :: map settled reached
      /\ c0 = Trace.settle cs q sequenceNumber m
      /\ after = [] /\ c = Abrupt e.
Proof.
  induction 1 as [found|n|n e|n msgs ev e Hb|n
                  |n msgs found' ev ev' c Hb Hbreak _ IH];
    intros before c0 e0 after Hev.
  - destruct before; discriminate.
  - destruct before; discriminate.
  - destruct before as [|b before]; cbn in Hev; [discriminate|].
    injection Hev as _ Hev. destruct before; discriminate.
  - destruct before as [|b before]; cbn in Hev; [discriminate|].
    injection Hev as <- Hev.
    destruct (batch_stops _ _ _ _ Hb _ _ _ _ Hev)
      as (reached & m & unreached & -> & -> & -> & -> & He).
    injection He as <-.
    exists [], reached, m, unreached. auto.
  - destruct before as [|b before]; cbn in Hev; [discriminate|].
    injection Hev as _ Hev. destruct before; discriminate.
  - destruct before as [|b before]; cbn in Hev; [discriminate|].
    injection Hev as <- Hev.
    apply List.app_eq_app in Hev as [l [[Hev Hl]|[Hbefore Hev]]].
    + destruct l as [|x l]; cbn in Hl.
      * symmetry in Hl. change (ev' = [] ++ EvCall c0 (Some e0) :: after) in Hl.
        destruct (IH _ _ _ _ Hl) as (prior & reached & m & unreached & Hnil & _).
        destruct prior; discriminate.
      * injection Hl as <- Hl.
        destruct (batch_stops _ _ _ _ Hb _ _ _ _ Hev)
          as (_ & _ & _ & _ & _ & _ & _ & Habs).
        discriminate.
    + destruct (IH _ _ _ _ Hev) as (prior & reached & m & unreached & -> & -> & -> & ->).
      exists (EvReceive cs q 100 5000 (inr msgs) :: ev ++ prior), reached, m, unreached.
      subst before. cbn [app]. rewrite <- app_assoc. auto.
Qed.

(** In [deleteMessageFromQueue]: after a throwing [completeMessage] or
    [abandonMessage] the [finally] block runs and nothing else. *)
Lemma delete_stops ev c :
  Scan.DeleteRun cs q sequenceNumber ev c ->
  forall before c0 e after,
    ev = before ++ EvCall c0 (Some e) :: after ->
    Trace.isSettle c0 = true ->
    exists prior reached m unreached,
      before = prior
               ++ EvReceive cs q 100 5000 (inr (reached ++ m :: unreached))
               :: map settled reached
      /\ c0 = Trace.settle cs q sequenceNumber m
      /\ Scan.Closing cs (CloseReceiver cs q) (Abrupt e) after c.
Proof.
  destruct 1 as [e'|e'|scan c1 closing c' Hr Hcl];
    intros before c0 e after Hev Hsettle.
  - destruct before as [|b before]; cbn in Hev.
    + injection Hev as <- _ _. discriminate.
    + injection Hev as _ Hev. destruct before; discriminate.
  - destruct before as [|b [|b' before]]; cbn in Hev; try discriminate.
    + injection Hev as _ <- _ _. discriminate.
    + injection Hev as _ _ Hev. destruct before; discriminate.
  - destruct before as [|b [|b' before]]; cbn in Hev; try discriminate.
    injection Hev as <- <- Hev.
    apply List.app_eq_app in Hev as [l [[Hev Hl]|[Hbefore Hev]]].
    + destruct l as [|x l]; cbn in Hl.
      * subst closing.
        inversion Hcl; subst; discriminate.
      * injection Hl as <- Hl.
        destruct (run_stops _ _ _ _ Hr _ _ _ _ Hev)
          as (prior & reached & m & unreached & -> & -> & -> & ->).
        cbn [app] in Hl. subst after.
        exists (EvCall (NewClient cs) None :: EvCall (CreateReceiver cs q) None :: prior),
          reached, m, unreached.
        cbn [Scan.verdict] in Hcl. auto.
    + exfalso. clear Hr Hbefore.
      destruct Hcl as [e1|e1|]; destruct l as [|x [|y [|z l]]]; cbn in Hev;
        try discriminate;
        repeat match goal with
               | H : _ :: _ = _ :: _ |- _ => injection H as ? H
               end;
        try discriminate; subst; discriminate.
Qed.

Lemma closing_settles_nothing {A : Type} (body : Completion A) ev c :
  Scan.Closing cs (CloseReceiver cs q) body ev c ->
  ((exists e, ev = [EvCall (CloseReceiver cs q) (Some e)])
   \/ (exists r, ev = [EvCall (CloseReceiver cs q) None; EvCall (CloseClient cs) r]))
  /\ Log.completeCalls ev = [] /\ Log.abandonCalls ev = []
  /\ existsb Log.isReceive ev = false.
Proof. inversion 1; subst; cbn; eauto 6. Qed.

Lemma closing_after_throw {A : Type} (e : Js.Thrown) ev (c : Completion A) :
  Scan.Closing cs (CloseReceiver cs q) (Abrupt e) ev c -> exists e', c = Abrupt e'.
Proof. inversion 1; subst; eauto. Qed.

End ScanStops.

(** C5, as the code has it: a scan calls [completeMessage] only on messages
    carrying the wanted sequence number and [abandonMessage] only on the
    others, so a non-matching message is never completed; and as long as no
    [completeMessage] or [abandonMessage] call throws, every non-matching
    message the scan received is abandoned, whether the scan finds its
    target, runs out of attempts or ends on an empty batch.  When such a
    call throws, the scan ends at once: the call was made on a message [m]
    of the batch received last, the messages of that batch before [m] were
    settled, each by one call that returned, and after the throwing call the
    log holds the closing of the receiver and of the client and nothing
    else, so the messages of the batch after [m] are neither abandoned nor
    completed; the whole call throws. *)
Theorem scan_settles_non_matching {W : Type} (sdk : Sdk W)
    (queueName connectionString sequenceNumber : string) (w : W) :
  let run := Provider.deleteMessageFromQueue sdk queueName connectionString
               sequenceNumber w in
  let log := M.log run in
  (forall m, In m (Log.completeCalls log) -> seqMatches m sequenceNumber = true)
  /\ (forall m, In m (Log.abandonCalls log) -> seqMatches m sequenceNumber = false)
  /\ (Log.settleCallsSucceed log = true ->
      Bulk.scanAbandonsAll sdk queueName connectionString sequenceNumber w)
  /\ (forall before c e after,
        log = before ++ EvCall c (Some e) :: after ->
        Trace.isSettle c = true ->
        exists prior reached m unreached,
          before
          = prior
            ++ EvReceive connectionString queueName 100 5000
                 (inr (reached ++ m :: unreached))
            :: map (fun x => EvCall (Trace.settle connectionString queueName
                                       sequenceNumber x) None) reached
          /\ c = Trace.settle connectionString queueName sequenceNumber m
          /\ ((exists e', after = [EvCall (CloseReceiver connectionString queueName)
                                     (Some e')])
              \/ (exists r, after = [EvCall (CloseReceiver connectionString queueName) None;
                                     EvCall (CloseClient connectionString) r]))
          /\ Log.completeCalls after = [] /\ Log.abandonCalls after = []
          /\ existsb Log.isReceive after = false
          /\ exists e', M.completion run = Abrupt e').
Proof.
  intros run log.
  pose proof (deleteMessageFromQueue_shape sdk connectionString queueName
                sequenceNumber w) as Hshape.
  fold run in Hshape. fold log in Hshape.
  destruct (delete_calls _ _ _ _ _ Hshape) as [Hc Ha].
  split; [|split; [|split]].
  - intros m Hm. rewrite forallb_forall in Hc. exact (Hc m Hm).
  - intros m Hm. rewrite forallb_forall in Ha. specialize (Ha m Hm).
    now apply negb_true_iff in Ha.
  - intros Hs m Hin Hm. exact (delete_abandons _ _ _ _ _ Hshape Hs m Hin Hm).
  - intros before c e after Hlog Hsettle.
    destruct (delete_stops _ _ _ _ _ Hshape _ _ _ _ Hlog Hsettle)
      as (prior & reached & m & unreached & Hbefore & Hcall & Hclosing).
    destruct (closing_settles_nothing _ _ _ _ _ Hclosing) as (Hafter & Hcc & Hac & Hrc).
    exists prior, reached, m, unreached.
    split; [exact Hbefore|]. split; [exact Hcall|]. split; [exact Hafter|].
    split; [exact Hcc|]. split; [exact Hac|]. split; [exact Hrc|].
    exact (closing_after_throw _ _ _ _ _ Hclosing).
Qed.

Lemma scan_settles_non_matching_witness :
  Bulk.scanAbandonsAll (Script.sdk Script.noFaults) "orders" Script.secret "3"
    (Script.start [[Script.inbound 1; Script.inbound 2]; [Script.inbound 3]])
  /\ exists e,
       M.completion
         (Provider.deleteMessageFromQueue (Script.sdk (Script.lockLost 1 "lock lost"))
            "orders" Script.secret "3"
            (Script.start [[Script.inbound 1; Script.inbound 2; Script.inbound 3]]))
       = Abrupt e.
Proof.
  split.
  - apply (scan_settles_non_matching (Script.sdk Script.noFaults) "orders"
             Script.secret "3"
             (Script.start [[Script.inbound 1; Script.inbound 2]; [Script.inbound 3]])).
    vm_compute. reflexivity.
  - destruct (scan_settles_non_matching (Script.sdk (Script.lockLost 1 "lock lost"))
                "orders" Script.secret "3"
                (Script.start [[Script.inbound 1; Script.inbound 2; Script.inbound 3]]))
      as (_ & _ & _ & Hstop).
    destruct (Hstop
                [EvCall (NewClient Script.secret) None;
                 EvCall (CreateReceiver Script.secret "orders") None;
                 EvReceive Script.secret "orders" 100 5000
                   (inr [Script.inbound 1; Script.inbound 2; Script.inbound 3])]
                (AbandonMessage Script.secret "orders" (Script.inbound 1))
                (Js.ErrorObj "lock lost")
                [EvCall (CloseReceiver Script.secret "orders") None;
                 EvCall (CloseClient Script.secret) None])
      as (_ & _ & _ & _ & _ & _ & _ & _ & _ & _ & Hthrows);
      [vm_compute; reflexivity|reflexivity|exact Hthrows].
Defined.

(** C5 as stated fails: when abandoning message 1 throws, the scan ends at
    once and message 2, received in the same batch and not the target, is
    never abandoned. *)
Lemma scan_leaves_message_unsettled :
  ~ Bulk.scanAbandonsAll (Script.sdk (Script.lockLost 1 "lock lost")) "orders"
      Script.secret "3"
      (Script.start [[Script.inbound 1; Script.inbound 2; Script.inbound 3]]).
Proof.
  intros H. specialize (H (Script.inbound 2)).
  assert (Hin : In (Script.inbound 2)
                  (Log.abandonCalls
                     (M.log (Provider.deleteMessageFromQueue
                               (Script.sdk (Script.lockLost 1 "lock lost")) "orders"
                               Script.secret "3"
                               (Script.start [[Script.inbound 1; Script.inbound 2;
                                               Script.inbound 3]]))))).
  { apply H; vm_compute; auto. }
  vm_compute in Hin. destruct Hin as [Hin|[]]. discriminate Hin.
Qed.

(** ** One item of a bulk move *)

Section ItemFacts.
Context {W : Type} (sdk : Sdk W).

(** The run of a bulk loop splits at any item: the items before it, the
    attempt on the item from the world they left, the items after it. *)
Lemma each_item (attempt : MessageData.t -> M.t (W := W) unit) pre msg post r0 r1 w :
  let before := Bulk.each attempt pre r0 w in
  let tried := attempt msg (M.world before) in
  let r2 := match M.completion tried with
            | Normal _ => pushSuccessful r1 msg
            | Abrupt e => pushFailed r1 msg (Js.errorMessage e)
            end in
  let rest := Bulk.each attempt post r2 (M.world tried) in
  M.completion before = Normal r1 ->
  Bulk.each attempt (pre ++ msg :: post) r0 w
  = (M.world rest, M.log before ++ M.log tried ++ M.log rest, M.completion rest).
Proof.
  cbn zeta. intros Hb. rewrite each_app. unfold M.bind.
  destruct (Bulk.each attempt pre r0 w) as [[w1 ev1] c1].
  cbn in Hb. subst c1. cbn [M.world M.log M.completion fst snd].
  rewrite each_step.
  destruct (attempt msg w1) as [[w2 ev2] [u|e]]; cbn [M.world M.log M.completion fst snd].
  - destruct (Bulk.each attempt post (pushSuccessful r1 msg) w2) as [[w3 ev3] c3].
    reflexivity.
  - destruct (Bulk.each attempt post (pushFailed r1 msg (Js.errorMessage e)) w2)
      as [[w3 ev3] c3].
    reflexivity.
Qed.

Lemma each_keeps_failed (attempt : MessageData.t -> M.t (W := W) unit) msgs r w x :
  In x (failed r) ->
  exists r', M.completion (Bulk.each attempt msgs r w) = Normal r' /\ In x (failed r').
Proof.
  intros Hx. destruct (each_partition attempt msgs r w) as (succ & fail & Hc & _).
  eexists. split; [exact Hc|]. cbn. apply in_or_app. now left.
Qed.

Lemma each_log_forall (P : Event -> Prop)
    (attempt : MessageData.t -> M.t (W := W) unit) msgs r w :
  (forall m w', Forall P (M.log (attempt m w'))) ->
  Forall P (M.log (Bulk.each attempt msgs r w)).
Proof.
  intros Hatt. revert r w. induction msgs as [|m msgs IH]; intros r w.
  - constructor.
  - rewrite each_step. specialize (Hatt m w).
    destruct (attempt m w) as [[w1 ev1] [u|e]]; cbn in Hatt.
    + specialize (IH (pushSuccessful r m) w1).
      destruct (Bulk.each attempt msgs (pushSuccessful r m) w1) as [[w2 ev2] c].
      cbn in *. apply Forall_app. now split.
    + specialize (IH (pushFailed r m (Js.errorMessage e)) w1).
      destruct (Bulk.each attempt msgs (pushFailed r m (Js.errorMessage e)) w1)
        as [[w2 ev2] c].
      cbn in *. apply Forall_app. now split.
Qed.

Ltac send_cases :=
  unfold Provider.sendMessageToQueue, M.bind, M.tryFinally, M.call;
  repeat match goal with
         | |- context [invoke sdk ?c ?w] => destruct (invoke sdk c w) as [? [?|]]
         end.

Lemma send_log_no_receiver targetName cs msg w :
  forallb (fun e => negb (Log.isReceiverCall e))
    (M.log (Provider.sendMessageToQueue sdk targetName cs msg w)) = true.
Proof. send_cases; reflexivity. Qed.

Lemma send_normal_delivers targetName cs msg w :
  M.completion (Provider.sendMessageToQueue sdk targetName cs msg w) = Normal tt ->
  In (EvCall (SendMessages cs targetName (Provider.outgoing msg)) None)
     (M.log (Provider.sendMessageToQueue sdk targetName cs msg w)).
Proof. send_cases; cbn; intros H; try discriminate; auto. Qed.

Lemma moveAttempt_send_throws targetName cs msg w e :
  M.completion (Provider.sendMessageToQueue sdk targetName cs msg w) = Abrupt e ->
  Provider.moveAttempt sdk targetName cs msg w
  = (M.world (Provider.sendMessageToQueue sdk targetName cs msg w),
     M.log (Provider.sendMessageToQueue sdk targetName cs msg w),
     Abrupt e).
Proof.
  unfold Provider.moveAttempt, M.bind.
  destruct (Provider.sendMessageToQueue sdk targetName cs msg w) as [[w1 ev1] [u|e']];
    cbn; intros H; [discriminate|]. now injection H as ->.
Qed.

Lemma moveAttempt_scans targetName cs msg sq scs w :
  M.completion (Provider.sendMessageToQueue sdk targetName cs msg w) = Normal tt ->
  MessageData.sourceQueue msg = Some sq ->
  MessageData.sourceConnectionString msg = Some scs ->
  Js.truthy (Some scs) = true ->
  let sent := Provider.sendMessageToQueue sdk targetName cs msg w in
  let scan := Provider.deleteMessageFromQueue sdk (Queue.name sq) scs
                (MessageData.sequenceNumber msg) (M.world sent) in
  Provider.moveAttempt sdk targetName cs msg w
  = (M.world scan, M.log sent ++ M.log scan, M.completion scan).
Proof.
  intros Hs Hq Hc Ht. cbn zeta. unfold Provider.moveAttempt, M.bind.
  rewrite Hq, Hc, Ht.
  destruct (Provider.sendMessageToQueue sdk targetName cs msg w) as [[w1 ev1] [u|e']];
    [|discriminate].
  cbn [M.world M.log fst snd].
  destruct (Provider.deleteMessageFromQueue sdk (Queue.name sq) scs
              (MessageData.sequenceNumber msg) w1) as [[w2 ev2] c].
  reflexivity.
Qed.

End ItemFacts.

(** C3: when, in a bulk move, the send to the destination throws for an
    item, the item is filed under [failed] with the text of what was thrown,
    and between the items before it and the items after it the log holds
    the calls of that send and nothing else: no receiver is created, so no
    deletion is attempted for the item. *)
Theorem failed_send_skips_deletion {W : Type} (sdk : Sdk W) st panelOpen target cs
    pre msg post e (w : W) :
  Store.getConnectionString (Queue.connectionId target) st = Some cs ->
  Js.truthy (Some cs) = true ->
  let before := Provider.moveLoop sdk (Queue.name target) cs pre emptyResults w in
  let sent := Provider.sendMessageToQueue sdk (Queue.name target) cs msg
                (M.world before) in
  M.completion sent = Abrupt e ->
  exists r1 r evStart evEnd,
    M.completion before = Normal r1
    /\ let rest := Provider.moveLoop sdk (Queue.name target) cs post
                     (pushFailed r1 msg (Js.errorMessage e)) (M.world sent) in
       M.completion rest = Normal r
       /\ Provider.moveMessageToQueue sdk st panelOpen (Many (pre ++ msg :: post))
            target w
          = (M.world rest,
             evStart ++ (M.log before ++ M.log sent ++ M.log rest) ++ evEnd,
             Normal (Some r))
       /\ In (msg, Js.errorMessage e) (failed r)
       /\ forallb (fun ev => negb (Log.isSdk ev)) evStart = true
       /\ forallb (fun ev => negb (Log.isSdk ev)) evEnd = true
       /\ forallb (fun ev => negb (Log.isReceiverCall ev)) (M.log sent) = true.
Proof.
  intros Hcs Ht before sent Hsent.
  destruct (moveMessageToQueue_run sdk st panelOpen (Many (pre ++ msg :: post))
              target cs w Hcs Ht) as (r & evStart & evEnd & Hc & Hrun & Hs & He).
  cbn zeta in Hc, Hrun. cbn [normalize] in Hc, Hrun.
  destruct (each_partition (Provider.moveAttempt sdk (Queue.name target) cs)
              pre emptyResults w) as (succ1 & fail1 & Hb & _).
  rewrite <- moveLoop_each in Hb. fold before in Hb.
  set (r1 := {| successful := successful emptyResults ++ succ1;
                failed := failed emptyResults ++ fail1 |}) in Hb.
  pose proof (each_item (Provider.moveAttempt sdk (Queue.name target) cs)
                pre msg post emptyResults r1 w) as Hitem.
  cbn zeta in Hitem. rewrite <- !moveLoop_each in Hitem. fold before in Hitem.
  specialize (Hitem Hb).
  rewrite (moveAttempt_send_throws sdk _ _ _ _ e Hsent) in Hitem.
  fold sent in Hitem. cbn [M.world M.log M.completion fst snd] in Hitem.
  rewrite Hitem in Hc, Hrun. cbn [M.world M.log M.completion fst snd] in Hc, Hrun.
  exists r1, r, evStart, evEnd. split; [exact Hb|]. cbn zeta.
  split; [exact Hc|]. split; [exact Hrun|].
  split; [|split; [exact Hs|split; [exact He|apply send_log_no_receiver]]].
  destruct (each_keeps_failed (Provider.moveAttempt sdk (Queue.name target) cs) post
              (pushFailed r1 msg (Js.errorMessage e))
              (M.world sent) (msg, Js.errorMessage e)) as (r' & Hr' & Hin).
  { cbn. apply in_or_app. right. now left. }
  rewrite <- moveLoop_each in Hr'. rewrite Hc in Hr'. now injection Hr' as ->.
Qed.

Lemma failed_send_skips_deletion_witness :
  exists r,
    M.completion
      (Provider.moveMessageToQueue
         (Script.sdk (Script.rejecting "m2" "quota exceeded")) Script.store true
         (Many Script.selection) Script.archive
         (Script.start [[Script.inbound 1; Script.inbound 2]]))
    = Normal (Some r)
    /\ In (Panel.attachSource Script.panel (Script.row 2), "quota exceeded") (failed r).
Proof.
  destruct (failed_send_skips_deletion
              (Script.sdk (Script.rejecting "m2" "quota exceeded")) Script.store true
              Script.archive Script.secret
              [Panel.attachSource Script.panel (Script.row 1)]
              (Panel.attachSource Script.panel (Script.row 2)) []
              (Js.ErrorObj "quota exceeded")
              (Script.start [[Script.inbound 1; Script.inbound 2]]))
    as (r1 & r & evStart & evEnd & Hb & Hrest & Hrun & Hin & _).
  - vm_compute. reflexivity.
  - vm_compute. reflexivity.
  - vm_compute. reflexivity.
  - exists r. split; [exact (f_equal snd Hrun)|exact Hin].
Defined.

(** C4: when, in a bulk move, the send for an item returned normally and the
    scan of its source queue received no message carrying the item's
    sequence number, the scan throws and the item is filed under [failed];
    the copy was sent, and after the send the item's part of the log is the
    scan alone, in which nothing is completed and nothing is sent: the copy
    is not rolled back. *)
Theorem unfound_original_fails_the_item {W : Type} (sdk : Sdk W) st panelOpen
    target cs pre msg post sq scs (w : W) :
  Store.getConnectionString (Queue.connectionId target) st = Some cs ->
  Js.truthy (Some cs) = true ->
  MessageData.sourceQueue msg = Some sq ->
  MessageData.sourceConnectionString msg = Some scs ->
  Js.truthy (Some scs) = true ->
  let before := Provider.moveLoop sdk (Queue.name target) cs pre emptyResults w in
  let sent := Provider.sendMessageToQueue sdk (Queue.name target) cs msg
                (M.world before) in
  let scan := Provider.deleteMessageFromQueue sdk (Queue.name sq) scs
                (MessageData.sequenceNumber msg) (M.world sent) in
  M.completion sent = Normal tt ->
  forallb (fun m => negb (seqMatches m (MessageData.sequenceNumber msg)))
    (Log.received (M.log scan)) = true ->
  exists e r1 r evStart evEnd,
    M.completion before = Normal r1
    /\ M.completion scan = Abrupt e
    /\ (e = Provider.notFound (MessageData.sequenceNumber msg)
        \/ In e (Log.thrown (M.log scan)))
    /\ let rest := Provider.moveLoop sdk (Queue.name target) cs post
                     (pushFailed r1 msg (Js.errorMessage e)) (M.world scan) in
       M.completion rest = Normal r
       /\ Provider.moveMessageToQueue sdk st panelOpen (Many (pre ++ msg :: post))
            target w
          = (M.world rest,
             evStart
             ++ (M.log before ++ (M.log sent ++ M.log scan) ++ M.log rest)
             ++ evEnd,
             Normal (Some r))
       /\ In (msg, Js.errorMessage e) (failed r)
       /\ In (EvCall (SendMessages cs (Queue.name target) (Provider.outgoing msg)) None)
             (M.log sent)
       /\ Log.completeCalls (M.log scan) = []
       /\ forallb (fun ev => negb (Log.isSend ev)) (M.log scan) = true
       /\ forallb (fun ev => negb (Log.isSdk ev)) evStart = true
       /\ forallb (fun ev => negb (Log.isSdk ev)) evEnd = true.
Proof.
  intros Hcs Ht Hq Hscs Hts before sent scan Hsent Hunmatched.
  pose proof (deleteMessageFromQueue_shape sdk scs (Queue.name sq)
                (MessageData.sequenceNumber msg) (M.world sent)) as Hshape.
  fold scan in Hshape.
  destruct (delete_unmatched _ _ _ _ _ Hshape Hunmatched) as (Hnone & e & Hthrow & He).
  destruct (delete_queue _ _ _ _ _ Hshape) as [Hnosend _].
  destruct (moveMessageToQueue_run sdk st panelOpen (Many (pre ++ msg :: post))
              target cs w Hcs Ht) as (r & evStart & evEnd & Hc & Hrun & Hs & Hend).
  cbn zeta in Hc, Hrun. cbn [normalize] in Hc, Hrun.
  destruct (each_partition (Provider.moveAttempt sdk (Queue.name target) cs)
              pre emptyResults w) as (succ1 & fail1 & Hb & _).
  rewrite <- moveLoop_each in Hb. fold before in Hb.
  set (r1 := {| successful := successful emptyResults ++ succ1;
                failed := failed emptyResults ++ fail1 |}) in Hb.
  pose proof (each_item (Provider.moveAttempt sdk (Queue.name target) cs)
                pre msg post emptyResults r1 w) as Hitem.
  cbn zeta in Hitem. rewrite <- !moveLoop_each in Hitem. fold before in Hitem.
  specialize (Hitem Hb).
  rewrite (moveAttempt_scans sdk _ _ _ sq scs _ Hsent Hq Hscs Hts) in Hitem.
  fold sent in Hitem. fold scan in Hitem.
  cbn [M.world M.log M.completion fst snd] in Hitem. rewrite Hthrow in Hitem.
  rewrite Hitem in Hc, Hrun. cbn [M.world M.log M.completion fst snd] in Hc, Hrun.
  exists e, r1, r, evStart, evEnd.
  split; [exact Hb|]. split; [exact Hthrow|]. split; [exact He|]. cbn zeta.
  split; [exact Hc|]. split; [exact Hrun|]. split.
  - destruct (each_keeps_failed (Provider.moveAttempt sdk (Queue.name target) cs) post
                (pushFailed r1 msg (Js.errorMessage e))
                (M.world scan) (msg, Js.errorMessage e)) as (r' & Hr' & Hin).
    { cbn. apply in_or_app. right. now left. }
    rewrite <- moveLoop_each in Hr'. rewrite Hc in Hr'. now injection Hr' as ->.
  - split; [exact (send_normal_delivers sdk _ _ _ _ Hsent)|].
    split; [exact Hnone|]. split; [exact Hnosend|]. split; [exact Hs|exact Hend].
Qed.

Lemma unfound_original_fails_the_item_witness :
  exists r,
    M.completion
      (Provider.moveMessageToQueue (Script.sdk Script.noFaults) Script.store true
         (Many Script.selection) Script.archive
         (Script.start [[Script.inbound 1; Script.inbound 5]; [Script.inbound 5]]))
    = Normal (Some r)
    /\ In (Panel.attachSource Script.panel (Script.row 2),
           "Message 2 not found in queue") (failed r).
Proof.
  destruct (unfound_original_fails_the_item
              (Script.sdk Script.noFaults) Script.store true
              Script.archive Script.secret
              [Panel.attachSource Script.panel (Script.row 1)]
              (Panel.attachSource Script.panel (Script.row 2)) []
              Script.orders Script.secret
              (Script.start [[Script.inbound 1; Script.inbound 5]; [Script.inbound 5]]))
    as (e & r1 & r & evStart & evEnd & Hb & Hthrow & He & Hrest & Hrun & Hin & _).
  - vm_compute. reflexivity.
  - vm_compute. reflexivity.
  - vm_compute. reflexivity.
  - vm_compute. reflexivity.
  - vm_compute. reflexivity.
  - vm_compute. reflexivity.
  - vm_compute. reflexivity.
  - exists r. split; [exact (f_equal snd Hrun)|].
    assert (Hscan : @Abrupt unit e
                    = Abrupt (Js.ErrorObj "Message 2 not found in queue")).
    { rewrite <- Hthrow. vm_compute. reflexivity. }
    injection Hscan as ->. exact Hin.
Defined.

Lemma bulk_results_follow_input_order_witness :
  (exists r,
     M.completion
       (Provider.moveMessageToQueue
          (Script.sdk (Script.rejecting "m1" "quota exceeded")) Script.store true
          (Many Script.selection) Script.archive
          (Script.start [[Script.inbound 2]]))
     = Normal (Some r)
     /\ Bulk.Partition Script.selection (successful r) (failed r))
  /\
  (exists r,
     M.completion
       (Provider.deleteMessages (Script.sdk Script.noFaults) true
          (Many Script.selection) (Script.start [[Script.inbound 2]; [Script.inbound 2]]))
     = Normal (Some r)
     /\ Bulk.Partition Script.selection (successful r) (failed r)).
Proof.
  split.
  - destruct (bulk_results_follow_input_order
                (Script.sdk (Script.rejecting "m1" "quota exceeded")) Script.store true
                (Many Script.selection) Script.archive Script.secret
                (Panel.attachSource Script.panel (Script.row 1))
                [Panel.attachSource Script.panel (Script.row 2)]
                Script.orders (Script.start [[Script.inbound 2]])) as [Hmove _].
    destruct Hmove as (r & Hr & Hp & _); [vm_compute; reflexivity..|].
    exists r. split; [exact Hr|exact Hp].
  - destruct (bulk_results_follow_input_order
                (Script.sdk Script.noFaults) Script.store true
                (Many Script.selection) Script.archive Script.secret
                (Panel.attachSource Script.panel (Script.row 1))
                [Panel.attachSource Script.panel (Script.row 2)]
                Script.orders (Script.start [[Script.inbound 2]; [Script.inbound 2]]))
      as [_ Hdelete].
    destruct Hdelete as (r & Hr & Hp & _); [vm_compute; reflexivity..|].
    exists r. split; [exact Hr|exact Hp].
Defined.

(** ** Bulk delete and the first message *)

Lemma deleteAttempt_queue {W : Type} (sdk : Sdk W) queueName msg (w : W) :
  Forall (fun e => Log.queueOf e = None \/ Log.queueOf e = Some queueName)
    (M.log (Provider.deleteAttempt sdk queueName msg w)).
Proof.
  unfold Provider.deleteAttempt.
  destruct (MessageData.sourceConnectionString msg) as [scs|]; [|constructor].
  destruct (Js.truthy (Some scs)); [|constructor].
  exact (proj2 (delete_queue _ _ _ _ _
                  (deleteMessageFromQueue_shape sdk scs queueName
                     (MessageData.sequenceNumber msg) w))).
Qed.

Lemma receiverQueues_app a b :
  Log.receiverQueues (a ++ b) = Log.receiverQueues a ++ Log.receiverQueues b.
Proof.
  induction a as [|e a IH]; [reflexivity|].
  cbn. log_cases; cbn; rewrite ?IH; reflexivity.
Qed.

Lemma batch_creates_no_receiver cs q sequenceNumber msgs found ev c :
  Scan.BatchRun cs q sequenceNumber msgs found ev c -> Log.receiverQueues ev = [].
Proof. induction 1; cbn; auto. Qed.

Lemma run_creates_no_receiver cs q sequenceNumber n found ev c :
  Scan.Run cs q sequenceNumber n found ev c -> Log.receiverQueues ev = [].
Proof.
  induction 1 as [found|n|n e|n msgs ev e Hb|n
                  |n msgs found' ev ev' c Hb Hbreak _ IH]; cbn; auto.
  - exact (batch_creates_no_receiver _ _ _ _ _ _ _ Hb).
  - rewrite receiverQueues_app, IH.
    now rewrite (batch_creates_no_receiver _ _ _ _ _ _ _ Hb).
Qed.

(** A deletion creates one receiver, on the queue it was given, unless
    creating the client throws. *)
Lemma delete_creates_receiver cs q sequenceNumber ev c :
  Scan.DeleteRun cs q sequenceNumber ev c ->
  Log.receiverQueues ev = [q] \/ exists e, ev = [EvCall (NewClient cs) (Some e)].
Proof.
  destruct 1 as [e|e|scan c0 closing c' Hr Hcl].
  - right. now exists e.
  - now left.
  - left. cbn. rewrite receiverQueues_app.
    rewrite (run_creates_no_receiver _ _ _ _ _ _ _ Hr).
    destruct Hcl; reflexivity.
Qed.

Lemma deleteAttempt_unfold {W : Type} (sdk : Sdk W) queueName msg (w : W) :
  Provider.deleteAttempt sdk queueName msg w
  = match MessageData.sourceConnectionString msg with
    | Some scs =>
        if Js.truthy (MessageData.sourceConnectionString msg) then
          Provider.deleteMessageFromQueue sdk queueName scs
            (MessageData.sequenceNumber msg) w
        else (w, [], Abrupt (Js.ErrorObj "Connection string missing"))
    | None => (w, [], Abrupt (Js.ErrorObj "Connection string missing"))
    end.
Proof.
  unfold Provider.deleteAttempt.
  destruct (MessageData.sourceConnectionString msg) as [scs|]; [|reflexivity].
  destruct (Js.truthy (Some scs)); reflexivity.
Qed.

Lemma quiet_events_settle_nothing (evs : list Event) :
  forallb (fun e => negb (Log.isSdk e)) evs = true ->
  Log.completeCalls evs = [] /\ Log.abandonCalls evs = []
  /\ existsb Log.isReceive evs = false.
Proof.
  induction evs as [|e evs IH]; cbn; intros H; [auto|].
  apply andb_true_iff in H as [He H].
  destruct e; try discriminate; now apply IH.
Qed.

(** C10: a bulk delete of a non-empty batch looks at the provenance of the
    first message only.  If that message has no source queue or no source
    connection string, the call shows an error and returns: the broker is
    left as it was and no SDK call is made.  Otherwise the loop runs, and
    for every item of the batch, whatever its own [sourceQueue], the item's
    part of the run, after the items before it and before the items after
    it, is one [deleteMessageFromQueue] on the source queue of the first
    message, with the item's own connection string and sequence number: it
    creates its receiver on that queue, every call of it that names a queue
    names that one, and its outcome files the item under [successful] or
    [failed].  An item without connection string makes no call and is filed
    under [failed].  Before the loop nothing is called on the SDK, and what
    follows it (the summary, the panel's redraw, the tree refresh) receives,
    completes and abandons nothing. *)
Theorem delete_consults_first_message {W : Type} (sdk : Sdk W) panelOpen
    messageData first rest (w : W) :
  normalize messageData = first :: rest ->
  let run := Provider.deleteMessages sdk panelOpen messageData w in
  match MessageData.sourceQueue first with
  | Some sq =>
      if Js.truthy (MessageData.sourceConnectionString first) then
        let loop := Provider.deleteLoop sdk (Queue.name sq) (first :: rest)
                      emptyResults w in
        exists r evStart evEnd,
          run = (M.world loop, evStart ++ M.log loop ++ evEnd, Normal (Some r))
          /\ M.completion loop = Normal r
          /\ forallb (fun e => negb (Log.isSdk e)) evStart = true
          /\ Log.completeCalls evEnd = [] /\ Log.abandonCalls evEnd = []
          /\ existsb Log.isReceive evEnd = false
          /\ forall pre msg post,
               first :: rest = pre ++ msg :: post ->
               let before := Provider.deleteLoop sdk (Queue.name sq) pre
                               emptyResults w in
               exists r1,
                 M.completion before = Normal r1
                 /\ if Js.truthy (MessageData.sourceConnectionString msg) then
                      exists scs,
                        MessageData.sourceConnectionString msg = Some scs
                        /\ let deletion :=
                             Provider.deleteMessageFromQueue sdk (Queue.name sq) scs
                               (MessageData.sequenceNumber msg) (M.world before) in
                           let after :=
                             Provider.deleteLoop sdk (Queue.name sq) post
                               match M.completion deletion with
                               | Normal _ => pushSuccessful r1 msg
                               | Abrupt e => pushFailed r1 msg (Js.errorMessage e)
                               end
                               (M.world deletion) in
                           loop = (M.world after,
                                   M.log before ++ M.log deletion ++ M.log after,
                                   M.completion after)
                           /\ (Log.receiverQueues (M.log deletion) = [Queue.name sq]
                               \/ exists e,
                                    M.log deletion = [EvCall (NewClient scs) (Some e)])
                           /\ Forall (fun e => Log.queueOf e = None
                                               \/ Log.queueOf e = Some (Queue.name sq))
                                (M.log deletion)
                    else
                      let after :=
                        Provider.deleteLoop sdk (Queue.name sq) post
                          (pushFailed r1 msg "Connection string missing")
                          (M.world before) in
                      loop = (M.world after, M.log before ++ M.log after,
                              M.completion after)
      else
        run = (w, [EvShowError "Cannot delete message: source queue information missing"],
               Normal None)
  | None =>
      run = (w, [EvShowError "Cannot delete message: source queue information missing"],
             Normal None)
  end.
Proof.
  intros Hn run.
  destruct (MessageData.sourceQueue first) as [sq|] eqn:Hq.
  - destruct (Js.truthy (MessageData.sourceConnectionString first)) eqn:Ht.
    + destruct (deleteMessages_run sdk panelOpen messageData first rest sq w Hn Hq Ht)
        as (r & evStart & evEnd & Hc & Hrun & Hs & He).
      cbn zeta in Hc, Hrun. fold run in Hrun. cbn zeta.
      destruct (quiet_events_settle_nothing _ He) as (Hcc & Hac & Hrc).
      exists r, evStart, evEnd.
      split; [exact Hrun|]. split; [exact Hc|]. split; [exact Hs|].
      split; [exact Hcc|]. split; [exact Hac|]. split; [exact Hrc|].
      intros pre msg post ->.
      destruct (each_partition (Provider.deleteAttempt sdk (Queue.name sq))
                  pre emptyResults w) as (succ1 & fail1 & Hb & _).
      rewrite <- deleteLoop_each in Hb.
      set (r1 := {| successful := successful emptyResults ++ succ1;
                    failed := failed emptyResults ++ fail1 |}) in Hb.
      exists r1. split; [exact Hb|].
      pose proof (each_item (Provider.deleteAttempt sdk (Queue.name sq))
                    pre msg post emptyResults r1 w) as Hitem.
      cbn zeta in Hitem. rewrite <- !deleteLoop_each in Hitem.
      specialize (Hitem Hb). rewrite deleteAttempt_unfold in Hitem.
      destruct (MessageData.sourceConnectionString msg) as [scs|] eqn:Hscs.
      * destruct (Js.truthy (Some scs)) eqn:Hts.
        -- exists scs. split; [reflexivity|]. split; [exact Hitem|].
           pose proof (deleteMessageFromQueue_shape sdk scs (Queue.name sq)
                         (MessageData.sequenceNumber msg)
                         (M.world (Provider.deleteLoop sdk (Queue.name sq) pre
                                     emptyResults w))) as Hshape.
           split; [exact (delete_creates_receiver _ _ _ _ _ Hshape)|].
           exact (proj2 (delete_queue _ _ _ _ _ Hshape)).
        -- exact Hitem.
      * exact Hitem.
    + subst run. unfold Provider.deleteMessages. now rewrite Hn, Hq, Ht.
  - subst run. unfold Provider.deleteMessages. now rewrite Hn, Hq.
Qed.

Lemma delete_consults_first_message_witness :
  MessageData.sourceQueue Script.elsewhere = Some Script.archive
  /\ (exists tail,
        M.log (Provider.deleteLoop (Script.sdk Script.noFaults) "orders"
                 [Panel.attachSource Script.panel (Script.row 1); Script.elsewhere]
                 emptyResults
                 (Script.start [[Script.inbound 1; Script.inbound 2]; [Script.inbound 2]]))
        = M.log (Provider.deleteLoop (Script.sdk Script.noFaults) "orders"
                   [Panel.attachSource Script.panel (Script.row 1)] emptyResults
                   (Script.start [[Script.inbound 1; Script.inbound 2];
                                  [Script.inbound 2]]))
          ++ M.log (Provider.deleteMessageFromQueue (Script.sdk Script.noFaults)
                      "orders" Script.secret "2"
                      (M.world
                         (Provider.deleteLoop (Script.sdk Script.noFaults) "orders"
                            [Panel.attachSource Script.panel (Script.row 1)]
                            emptyResults
                            (Script.start [[Script.inbound 1; Script.inbound 2];
                                           [Script.inbound 2]]))))
          ++ tail)
  /\ Log.receiverQueues
       (M.log (Provider.deleteMessageFromQueue (Script.sdk Script.noFaults)
                 "orders" Script.secret "2"
                 (M.world
                         (Provider.deleteLoop (Script.sdk Script.noFaults) "orders"
                            [Panel.attachSource Script.panel (Script.row 1)]
                            emptyResults
                            (Script.start [[Script.inbound 1; Script.inbound 2];
                                           [Script.inbound 2]])))))
     = ["orders"]
  /\ Provider.deleteMessages (Script.sdk Script.noFaults) true
       (Many [Script.row 1; Script.elsewhere])
       (Script.start [[Script.inbound 1; Script.inbound 2]])
     = (Script.start [[Script.inbound 1; Script.inbound 2]],
        [EvShowError "Cannot delete message: source queue information missing"],
        Normal None).
Proof.
  split; [reflexivity|].
  pose proof (delete_consults_first_message (Script.sdk Script.noFaults) true
                (Many [Panel.attachSource Script.panel (Script.row 1); Script.elsewhere])
                (Panel.attachSource Script.panel (Script.row 1)) [Script.elsewhere]
                (Script.start [[Script.inbound 1; Script.inbound 2]; [Script.inbound 2]])
                eq_refl) as Hrun.
  cbv beta iota zeta delta [Script.panel Panel.attachSource Panel.queue
                            Panel.connectionString MessageData.sourceQueue
                            MessageData.sourceConnectionString] in Hrun.
  destruct Hrun as (r & evStart & evEnd & Hrun & _ & _ & _ & _ & _ & Hitems).
  destruct (Hitems [Panel.attachSource Script.panel (Script.row 1)] Script.elsewhere []
              eq_refl) as (r1 & _ & Hitem).
  destruct Hitem as (scs & Hscs & Hloop & Hreceiver & _).
  injection Hscs as <-.
  split; [|split].
  - eexists. exact (f_equal (fun x => snd (fst x)) Hloop).
  - destruct Hreceiver as [Hreceiver|[e He]]; [exact Hreceiver|].
    vm_compute in He. discriminate He.
  - apply (delete_consults_first_message (Script.sdk Script.noFaults) true
             (Many [Script.row 1; Script.elsewhere])
             (Script.row 1) [Script.elsewhere]
             (Script.start [[Script.inbound 1; Script.inbound 2]])).
    reflexivity.
Defined.

(** ** Drag and drop *)

Lemma sendAll_never_scans {W : Type} (sdk : Sdk W) targetName cs msgs (w : W) :
  forallb (fun e => negb (Log.isReceiverCall e))
    (M.log (Provider.sendAll sdk targetName cs msgs w)) = true.
Proof.
  revert w. induction msgs as [|m msgs IH]; intros w; [reflexivity|].
  cbn [Provider.sendAll]. unfold M.bind.
  pose proof (send_log_no_receiver sdk targetName cs m w) as Hs.
  destruct (Provider.sendMessageToQueue sdk targetName cs m w) as [[w1 ev1] [u|e]];
    cbn [M.log fst snd] in *; [|exact Hs].
  specialize (IH w1).
  destruct (Provider.sendAll sdk targetName cs msgs w1) as [[w2 ev2] c].
  cbn [M.log fst snd] in *. now rewrite forallb_app, Hs, IH.
Qed.

Lemma notifyRemoved_never_scans (msgs : list MessageData.t) :
  forallb (fun e => negb (Log.isReceiverCall e))
    (map (fun m => EvNotifyMessageRemoved (MessageData.sequenceNumber m)) msgs) = true.
Proof. induction msgs; cbn; auto. Qed.

(** Whatever is dropped on whatever queue, [processMessageMove] creates no
    receiver and receives, completes and abandons nothing. *)
Lemma processMessageMove_never_scans {W : Type} (sdk : Sdk W) st panelOpen target
    messageData (w : W) :
  forallb (fun e => negb (Log.isReceiverCall e))
    (M.log (Provider.processMessageMove sdk st panelOpen target messageData w)) = true.
Proof.
  unfold Provider.processMessageMove, M.tryCatch.
  destruct (Store.getConnectionString (Queue.connectionId target) st) as [cs|];
    [|reflexivity].
  destruct (Js.truthy (Some cs)); [|reflexivity].
  unfold M.bind, M.emit.
  pose proof (sendAll_never_scans sdk (Queue.name target) cs
                (normalize messageData) w) as Hs.
  destruct (Provider.sendAll sdk (Queue.name target) cs (normalize messageData) w)
    as [[w1 ev1] [u|e]]; cbn [M.log fst snd] in Hs.
  - destruct panelOpen.
    + rewrite notifyRemoved_run. cbn [M.log fst snd app forallb negb Log.isReceiverCall].
      rewrite forallb_app, Hs. cbn.
      now rewrite forallb_app, notifyRemoved_never_scans.
    + cbn. now rewrite forallb_app, Hs.
  - cbn. now rewrite forallb_app, Hs.
Qed.

(** C6 at a drop: message 7 of the queue [orders] is dragged onto the queue
    [archive].  The drop sends the copy, reports the message as moved and
    tells the panel to drop its row, but creates no receiver: the original
    is neither received nor completed and stays in [orders].  The move
    command on the same row, as the panel submits it, does scan [orders] and
    completes the original. *)
Theorem drop_leaves_original_in_source :
  let dropped :=
    Provider.handleDrop (Script.sdk Script.noFaults) Script.store true
      (Some Script.archive) (Some (Many [Script.row 7])) Script.noData
      (Script.start [[Script.inbound 7]]) in
  let moved :=
    Provider.moveMessageToQueue (Script.sdk Script.noFaults) Script.store true
      (Many [Panel.attachSource Script.panel (Script.row 7)]) Script.archive
      (Script.start [[Script.inbound 7]]) in
  M.log dropped
  = [EvProgress "Moving message to archive...";
     EvCall (NewClient Script.secret) None;
     EvCall (CreateSender Script.secret "archive") None;
     EvCall (SendMessages Script.secret "archive" (Provider.outgoing (Script.row 7))) None;
     EvCall (CloseSender Script.secret "archive") None;
     EvCall (CloseClient Script.secret) None;
     EvShowInformation "Message moved to archive";
     EvNotifyMessageRemoved "7";
     EvRefreshTree]
  /\ Script.completed (M.world dropped) = []
  /\ Script.batches (M.world dropped) = [[Script.inbound 7]]
  /\ Log.receiverQueues (M.log moved) = ["orders"]
  /\ Script.completed (M.world moved) = [Script.inbound 7].
Proof. vm_compute. repeat split. Qed.

(** ** Provenance of the snapshots *)

(** Every snapshot the panel passes to a command carries both fields. *)
Lemma panel_commands_carry_provenance panel command data pending name msgs :
  In (Panel.ExecuteCommand name msgs)
     (snd (Panel.onDidReceiveMessage panel command data pending)) ->
  Forall Panel.hasProvenance msgs.
Proof.
  unfold Panel.onDidReceiveMessage.
  repeat match goal with
         | |- context [if ?b then _ else _] => destruct b
         end; cbn; intros H; try tauto;
    destruct H as [H|[]]; try discriminate; injection H as _ <-;
    apply List.Forall_forall; intros m Hm; apply in_map_iff in Hm as (m0 & <- & _);
    split; cbn; eauto.
Qed.

(** C9 at a drag: the snapshot of row 7, as the webview builds it, is kept
    by [startDrag] as it came, without source queue and without source
    connection string; the drop hands that very snapshot to
    [processMessageMove], which sends it to the target queue. *)
Theorem dragged_snapshot_lacks_provenance :
  let pending :=
    fst (Panel.onDidReceiveMessage Script.panel "startDrag"
           (Many [Script.row 7]) None) in
  pending = Some (Many [Script.row 7])
  /\ MessageData.sourceQueue (Script.row 7) = None
  /\ MessageData.sourceConnectionString (Script.row 7) = None
  /\ ~ Panel.hasProvenance (Script.row 7)
  /\ Provider.handleDrop (Script.sdk Script.noFaults) Script.store true
       (Some Script.archive) pending Script.noData (Script.start [[Script.inbound 7]])
     = M.bind
         (Provider.processMessageMove (Script.sdk Script.noFaults) Script.store true
            Script.archive (Many [Script.row 7]))
         (fun _ => M.ret None) (Script.start [[Script.inbound 7]])
  /\ Script.delivered
       (M.world
          (Provider.handleDrop (Script.sdk Script.noFaults) Script.store true
             (Some Script.archive) pending Script.noData
             (Script.start [[Script.inbound 7]])))
     = [("archive", Provider.outgoing (Script.row 7))].
Proof.
  cbn zeta. split; [reflexivity|]. split; [reflexivity|]. split; [reflexivity|].
  split.
  - intros [[sq Hsq] _]. discriminate Hsq.
  - split; [reflexivity|]. vm_compute. reflexivity.
Qed.

(** What the panel passes on for a selection posted by the webview is a
    non-empty batch whose messages all name the panel's queue and secret. *)
Lemma posted_selection_is_sourced panel command selected posted data pending name msgs :
  Panel.postSelection command selected = Some (posted, data) ->
  In (Panel.ExecuteCommand name msgs)
     (snd (Panel.onDidReceiveMessage panel posted data pending)) ->
  exists first rest,
    msgs = first :: rest
    /\ MessageData.sourceQueue first = Some (Panel.queue panel)
    /\ MessageData.sourceConnectionString first = Some (Panel.connectionString panel)
    /\ Forall Panel.hasProvenance msgs.
Proof.
  intros Hpost Hin.
  pose proof (panel_commands_carry_provenance _ _ _ _ _ _ Hin) as Hall.
  destruct selected as [|m selected]; [discriminate|].
  injection Hpost as <- <-.
  unfold Panel.onDidReceiveMessage in Hin.
  repeat match type of Hin with
         | context [if ?b then _ else _] => destruct b
         end; cbn in Hin; try tauto;
    destruct Hin as [Hin|[]]; try discriminate; injection Hin as _ <-;
    eexists; eexists; repeat split; try reflexivity; exact Hall.
Qed.

(** * Further properties of the code *)

(** ** The secret store over time *)

Lemma secretKey_inj a b : Store.secretKey a = Store.secretKey b -> a = b.
Proof. unfold Store.secretKey. cbn. intros H. now injection H. Qed.

Lemma storeSecrets_keeps (conns : list Connection.t) (sec : gmap string string) k :
  is_Some (sec !! k) -> is_Some (Store.storeSecrets conns sec !! k).
Proof.
  revert sec. induction conns as [|c conns IH]; intros sec H; [exact H|].
  cbn. apply IH. apply lookup_insert_is_Some.
  destruct (decide (Store.secretKey (Connection.id c) = k)); [now left|now right].
Qed.

Lemma storeSecrets_other (conns : list Connection.t) (sec : gmap string string) i :
  (forall c, In c conns -> Connection.id c <> i) ->
  Store.storeSecrets conns sec !! Store.secretKey i = sec !! Store.secretKey i.
Proof.
  revert sec. induction conns as [|c conns IH]; intros sec H; [reflexivity|].
  cbn. rewrite IH by (intros c' Hc'; apply H; now right).
  apply lookup_insert_ne. intros Heq. apply secretKey_inj in Heq.
  now apply (H c (or_introl eq_refl)).
Qed.

Lemma storeSecrets_blank (conns : list Connection.t) (sec : gmap string string) k :
  (forall c, In c conns -> Connection.connectionString c = "") ->
  sec !! k = Some "" \/ (exists c, In c conns /\ Store.secretKey (Connection.id c) = k) ->
  Store.storeSecrets conns sec !! k = Some "".
Proof.
  revert sec. induction conns as [|a conns IH]; intros sec Hall H.
  - destruct H as [H|(c & [] & _)]. exact H.
  - cbn. apply IH; [intros c Hc; apply Hall; now right|].
    assert (Ha : Connection.connectionString a = "") by (apply Hall; now left).
    destruct H as [H|(c & [<-|Hc] & Hk)].
    + left. destruct (decide (Store.secretKey (Connection.id a) = k)) as [<-|Hne].
      * rewrite lookup_insert_eq. now rewrite Ha.
      * now rewrite lookup_insert_ne.
    + left. rewrite Hk, lookup_insert_eq. now rewrite Ha.
    + right. now exists c.
Qed.

Lemma reachable_clean (s : Store.State) :
  Store.reachable s -> Store.metadataClean s /\ Store.secretsKeyed s.
Proof.
  induction 1 as [|o s Hr IH].
  - split; [constructor|]. intros k v H. cbn in H.
    rewrite lookup_empty in H. discriminate.
  - now apply step_preserves.
Qed.

(** X1: no operation on connections removes anything from the secret
    store; in particular [deleteConnection], confirmed or not, leaves the
    secret of the deleted connection where it was, so [getConnectionString]
    still returns it. *)
Theorem secrets_outlive_their_connection (o : Store.Op) (item : Connection.t)
    (confirm : option string) (s : Store.State) (k : string) :
  (is_Some (Store.secrets s !! k) -> is_Some (Store.secrets (Store.step o s) !! k))
  /\ Store.getConnectionString (Connection.id item)
       (Store.deleteConnection item confirm s)
     = Store.getConnectionString (Connection.id item) s.
Proof.
  split.
  - intros H. destruct o as [|nameBox csBox newId now|it cf]; cbn.
    + exact H.
    + unfold Store.addConnection.
      destruct nameBox as [nm|]; [|exact H].
      destruct (Js.truthy (Some nm)); [|exact H].
      destruct csBox as [cs|]; [|exact H].
      destruct (Js.truthy (Some cs)); [|exact H].
      cbn. now apply storeSecrets_keeps.
    + unfold Store.deleteConnection.
      destruct cf as [label|]; [|exact H].
      destruct (String.eqb label "Delete"); [|exact H].
      cbn. now apply storeSecrets_keeps.
  - unfold Store.deleteConnection, Store.getConnectionString.
    destruct confirm as [label|]; [|reflexivity].
    destruct (String.eqb label "Delete"); [|reflexivity].
    cbn. apply storeSecrets_other.
    intros c Hc Heq. apply filter_In in Hc as [_ Hc].
    rewrite Heq, String.eqb_refl in Hc. discriminate.
Qed.

(** X2: the constructor loads the connections from the metadata, where the
    secrets are blank, and [saveConnections] writes every loaded
    connection's string back to the secret store.  So after a restart, the
    first accepted [addConnection] or confirmed [deleteConnection] replaces
    the secret of every other stored connection by the empty string. *)
Theorem saving_after_restart_blanks_secrets (s : Store.State) (c item : Connection.t)
    (nameBox csBox : option string) (newId : string) (now : Z) :
  Store.reachable s ->
  In c (Store.globalState s) ->
  (Js.truthy nameBox = true -> Js.truthy csBox = true ->
   Connection.id c <> newId ->
   Store.getConnectionString (Connection.id c)
     (Store.addConnection nameBox csBox newId now (Store.loadConnections s))
   = Some "")
  /\ (Connection.id c <> Connection.id item ->
      Store.getConnectionString (Connection.id c)
        (Store.deleteConnection item (Some "Delete") (Store.loadConnections s))
      = Some "").
Proof.
  intros Hr Hin.
  assert (Hclean : forall c', In c' (Store.globalState s) ->
                              Connection.connectionString c' = "").
  { destruct (reachable_clean s Hr) as [Hc _]. now apply List.Forall_forall. }
  split.
  - intros Hn Hc Hne. unfold Store.addConnection, Store.getConnectionString.
    destruct nameBox as [nm|]; [|discriminate]. rewrite Hn.
    destruct csBox as [cs|]; [|discriminate]. rewrite Hc.
    cbn. unfold Store.storeSecrets. rewrite fold_left_app. cbn.
    rewrite lookup_insert_ne
      by (intros Heq; apply secretKey_inj in Heq; now apply Hne).
    apply storeSecrets_blank; [exact Hclean|]. right. now exists c.
  - intros Hne. unfold Store.deleteConnection, Store.getConnectionString. cbn.
    apply storeSecrets_blank.
    + intros c' Hc'. apply filter_In in Hc' as [Hc' _]. now apply Hclean.
    + right. exists c. split; [|reflexivity]. apply filter_In. split; [exact Hin|].
      apply negb_true_iff. now apply String.eqb_neq.
Qed.

Lemma saving_after_restart_blanks_secrets_witness :
  Store.getConnectionString "c1"
    (Store.addConnection (Some "dev") (Some "Endpoint=sb://dev/") "c2" 1
       (Store.loadConnections Script.store))
  = Some "".
Proof.
  apply (saving_after_restart_blanks_secrets Script.store
           (Store.toStore
              {| Connection.id := "c1"; Connection.name := "prod";
                 Connection.connectionString := Script.secret;
                 Connection.createdAt := 0 |})
           (Store.toStore
              {| Connection.id := "c1"; Connection.name := "prod";
                 Connection.connectionString := Script.secret;
                 Connection.createdAt := 0 |})
           (Some "dev") (Some "Endpoint=sb://dev/") "c2" 1).
  - apply (Store.reach_step
             (Store.OpAdd (Some "prod") (Some Script.secret) "c1" 0)
             Store.initial Store.reach_initial).
  - vm_compute. left. reflexivity.
  - reflexivity.
  - reflexivity.
  - discriminate.
Defined.

(** ** The dialog of [addConnection] *)

Lemma names_toStore (conns : list Connection.t) :
  map Connection.name (map Store.toStore conns) = map Connection.name conns.
Proof. induction conns as [|c conns IH]; cbn; [reflexivity|now rewrite IH]. Qed.

Lemma names_filter (f : Connection.t -> bool) (conns : list Connection.t) :
  List.NoDup (map Connection.name conns) ->
  List.NoDup (map Connection.name (List.filter f conns)).
Proof.
  induction conns as [|c conns IH]; cbn; intros H; [constructor|].
  apply List.NoDup_cons_iff in H as [Hc H].
  destruct (f c); [|now apply IH]. cbn.
  apply List.NoDup_cons_iff. split; [|now apply IH].
  intros Hin. apply Hc. apply in_map_iff in Hin as (c' & Hn & Hc').
  apply filter_In in Hc' as [Hc' _]. apply in_map_iff. now exists c'.
Qed.

Lemma names_add (conns : list Connection.t) (c : Connection.t) :
  List.NoDup (map Connection.name conns) ->
  existsb (fun c' => String.eqb (Connection.name c') (Connection.name c)) conns = false ->
  List.NoDup (map Connection.name (conns ++ [c])).
Proof.
  induction conns as [|a conns IH]; cbn; intros H Hex.
  - constructor; [tauto|constructor].
  - apply List.NoDup_cons_iff in H as [Ha H].
    apply orb_false_iff in Hex as [Hac Hex].
    apply List.NoDup_cons_iff. split; [|now apply IH].
    rewrite map_app, in_app_iff. intros [Hin|[Hin|[]]]; [now apply Ha|].
    rewrite Hin, String.eqb_refl in Hac. discriminate.
Qed.

(** X3: as long as the name box returns only what its [validateInput] lets
    through, no two connections carry the same name, in memory or in the
    persisted metadata, whatever is added, deleted or reloaded. *)
Theorem connection_names_stay_distinct (s : Store.State) :
  Dialog.reachable s ->
  List.NoDup (map Connection.name (Store.connections s))
  /\ List.NoDup (map Connection.name (Store.globalState s)).
Proof.
  induction 1 as [|s Hr [IHc IHg]|s nameBox csBox newId now Hr [IHc IHg] Hn Hcs
                  |s item confirm Hr [IHc IHg]].
  - cbn. split; constructor.
  - cbn. split; assumption.
  - unfold Store.addConnection.
    destruct nameBox as [nm|]; [|now split].
    destruct (Js.truthy (Some nm)); [|now split].
    destruct csBox as [cs|]; [|now split].
    destruct (Js.truthy (Some cs)); [|now split].
    cbn [Store.saveConnections Store.connections Store.globalState].
    rewrite names_toStore.
    assert (Hnew : List.NoDup
                     (map Connection.name
                        (Store.connections s
                         ++ [{| Connection.id := newId; Connection.name := Js.trim nm;
                                Connection.connectionString := Js.trim cs;
                                Connection.createdAt := now |}]))).
    { apply names_add; [exact IHc|]. cbn in Hn. unfold Dialog.validateName in Hn.
      destruct (Dialog.blank nm); [discriminate|].
      cbn [Connection.name].
      destruct (existsb _ (Store.connections s)); [discriminate|reflexivity]. }
    now split.
  - unfold Store.deleteConnection.
    destruct confirm as [label|]; [|now split].
    destruct (String.eqb label "Delete"); [|now split].
    cbn [Store.saveConnections Store.connections Store.globalState].
    rewrite names_toStore. split; now apply names_filter.
Qed.

Lemma connection_names_stay_distinct_witness :
  List.NoDup
    (map Connection.name
       (Store.connections
          (Store.addConnection (Some " dev ") (Some "Endpoint=sb://dev/") "c2" 1
             Script.store))).
Proof.
  apply (connection_names_stay_distinct
           (Store.addConnection (Some " dev ") (Some "Endpoint=sb://dev/") "c2" 1
              Script.store)).
  apply Dialog.reach_add; [|reflexivity|reflexivity].
  apply (Dialog.reach_add Store.initial (Some "prod") (Some Script.secret) "c1" 0);
    [constructor|reflexivity|reflexivity].
Defined.

Lemma trim_of_unblank (value : string) :
  Dialog.blank value = false -> value <> "" /\ Js.trim value <> "".
Proof.
  unfold Dialog.blank. intros H. apply orb_false_iff in H as [Hv Ht].
  split.
  - now apply String.eqb_neq.
  - intros Heq. rewrite Heq in Ht. discriminate.
Qed.

(** X4: what the two validated boxes return is never rejected by the
    [!name] / [!connectionString] checks, so an undismissed dialog always
    adds the connection, and the secret stored for it is a non-empty string:
    [getConnectionString] of the new id passes every later
    [!connectionString] check. *)
Theorem validated_connection_has_usable_secret (s : Store.State)
    (nm cs newId : string) (now : Z) :
  Dialog.returns (Dialog.validateName (Store.connections s)) (Some nm) ->
  Dialog.returns Dialog.validateConnectionString (Some cs) ->
  let s' := Store.addConnection (Some nm) (Some cs) newId now s in
  Store.getConnectionString newId s' = Some (Js.trim cs)
  /\ Js.truthy (Store.getConnectionString newId s') = true
  /\ Dialog.includes cs "Endpoint=sb://" = true
  /\ length (Store.connections s') = S (length (Store.connections s)).
Proof.
  cbn [Dialog.returns]. unfold Dialog.validateName, Dialog.validateConnectionString.
  intros Hn Hc.
  destruct (Dialog.blank nm) eqn:Hbn; [discriminate|].
  destruct (Dialog.blank cs) eqn:Hbc; [discriminate|].
  destruct (Dialog.includes cs "Endpoint=sb://") eqn:Hinc; [|discriminate].
  destruct (trim_of_unblank nm Hbn) as [Hnm _].
  destruct (trim_of_unblank cs Hbc) as [Hcs Htrim].
  assert (Htn : Js.truthy (Some nm) = true)
    by (cbn; apply negb_true_iff; now apply String.eqb_neq).
  assert (Htc : Js.truthy (Some cs) = true)
    by (cbn; apply negb_true_iff; now apply String.eqb_neq).
  cbn zeta. unfold Store.addConnection. rewrite Htn, Htc.
  assert (Hget : Store.getConnectionString newId
                   (Store.saveConnections
                      {| Store.connections :=
                           Store.connections s
                           ++ [{| Connection.id := newId; Connection.name := Js.trim nm;
                                  Connection.connectionString := Js.trim cs;
                                  Connection.createdAt := now |}];
                         Store.secrets := Store.secrets s;
                         Store.globalState := Store.globalState s |})
                 = Some (Js.trim cs)).
  { apply (storeSecrets_last (Store.connections s)
             {| Connection.id := newId; Connection.name := Js.trim nm;
                Connection.connectionString := Js.trim cs;
                Connection.createdAt := now |}). }
  rewrite Hget. split; [reflexivity|]. split.
  - cbn. apply negb_true_iff. now apply String.eqb_neq.
  - split; [reflexivity|]. cbn. rewrite length_app. cbn. lia.
Qed.

Lemma validated_connection_has_usable_secret_witness :
  Store.getConnectionString "c2"
    (Store.addConnection (Some " dev ") (Some " Endpoint=sb://dev/ ") "c2" 1 Script.store)
  = Some "Endpoint=sb://dev/".
Proof.
  apply (validated_connection_has_usable_secret Script.store
           " dev " " Endpoint=sb://dev/ " "c2" 1); reflexivity.
Defined.

(** ** Sending and scanning, call by call *)

Section CallFacts.
Context {W : Type} (sdk : Sdk W).

Ltac sdk_cases :=
  repeat match goal with
         | |- context [invoke sdk ?c ?w] => destruct (invoke sdk c w) as [? [?|]]
         end.

(** X5: [sendMessageToQueue] hands at most one message to the SDK, for the
    queue it was given: the copy with the body and the message id of the
    snapshot and with its application properties, in which the three
    [original...] keys hold the snapshot's enqueue time, delivery count and
    sequence number (a property of the original under one of these names is
    overwritten); when the call returns normally the message was sent. *)
Theorem copy_keeps_message_and_marks_origin targetName cs msg k (w : W) :
  let run := Provider.sendMessageToQueue sdk targetName cs msg w in
  (Trace.sends (M.log run) = []
   \/ Trace.sends (M.log run) = [(targetName, Provider.outgoing msg)])
  /\ (M.completion run = Normal tt ->
      Trace.sends (M.log run) = [(targetName, Provider.outgoing msg)])
  /\ sbBody (Provider.outgoing msg) = MessageData.body msg
  /\ sbMessageId (Provider.outgoing msg) = MessageData.messageId msg
  /\ applicationProperties (Provider.outgoing msg) !! "originalEnqueuedTime"
     = Some (PStr (MessageData.enqueuedTime msg))
  /\ applicationProperties (Provider.outgoing msg) !! "originalDeliveryCount"
     = Some (PNum (MessageData.deliveryCount msg))
  /\ applicationProperties (Provider.outgoing msg) !! "originalSequenceNumber"
     = Some (PStr (MessageData.sequenceNumber msg))
  /\ (k <> "originalEnqueuedTime" -> k <> "originalDeliveryCount" ->
      k <> "originalSequenceNumber" ->
      applicationProperties (Provider.outgoing msg) !! k
      = MessageData.properties msg !! k).
Proof.
  cbn zeta. split; [|split].
  - unfold Provider.sendMessageToQueue, M.bind, M.tryFinally, M.call.
    sdk_cases; cbn; auto.
  - unfold Provider.sendMessageToQueue, M.bind, M.tryFinally, M.call.
    sdk_cases; cbn; intros H; try discriminate; reflexivity.
  - split; [reflexivity|]. split; [reflexivity|]. unfold Provider.outgoing. cbn.
    split; [|split; [|split]].
    + rewrite lookup_insert_ne by discriminate.
      rewrite lookup_insert_ne by discriminate. apply lookup_insert_eq.
    + rewrite lookup_insert_ne by discriminate. apply lookup_insert_eq.
    + apply lookup_insert_eq.
    + intros H1 H2 H3. now rewrite !lookup_insert_ne by congruence.
Qed.

Lemma batch_scan_calls cs q sequenceNumber msgs found ev c :
  Scan.BatchRun cs q sequenceNumber msgs found ev c ->
  forallb Trace.isScanCall ev = true.
Proof. induction 1; cbn; auto. Qed.

Lemma run_scan_calls cs q sequenceNumber n found ev c :
  Scan.Run cs q sequenceNumber n found ev c ->
  forallb Trace.isScanCall ev = true.
Proof.
  induction 1 as [found|n|n e|n msgs ev e Hb|n
                  |n msgs found' ev ev' c Hb Hbreak _ IH]; cbn; auto.
  - exact (batch_scan_calls _ _ _ _ _ _ _ Hb).
  - rewrite forallb_app, IH. now rewrite (batch_scan_calls _ _ _ _ _ _ _ Hb).
Qed.

(** X6: the calls of [sendMessageToQueue] and of [deleteMessageFromQueue],
    in full.  When creating the client throws, that is the only call made;
    when creating the sender (the receiver) throws, it is the second and
    last call, and the client is not closed; in both cases the call throws
    what was thrown.  Once the sender (the receiver) was created, the log
    goes on with the one send (with receives and settlements only) and ends
    with closing the sender (the receiver) and then, unless that threw,
    closing the client, whatever happened in between; what a close throws
    is what the call throws. *)
Theorem created_handles_are_closed targetName cs msg sequenceNumber (w : W) :
  let sent := Provider.sendMessageToQueue sdk targetName cs msg w in
  let scanned := Provider.deleteMessageFromQueue sdk targetName cs sequenceNumber w in
  ((exists e, M.log sent = [EvCall (NewClient cs) (Some e)]
              /\ M.completion sent = Abrupt e)
   \/ (exists e, M.log sent = [EvCall (NewClient cs) None;
                               EvCall (CreateSender cs targetName) (Some e)]
                 /\ M.completion sent = Abrupt e)
   \/ (exists r closing,
         M.log sent
         = [EvCall (NewClient cs) None; EvCall (CreateSender cs targetName) None;
            EvCall (SendMessages cs targetName (Provider.outgoing msg)) r] ++ closing
         /\ ((exists e, closing = [EvCall (CloseSender cs targetName) (Some e)]
                        /\ M.completion sent = Abrupt e)
             \/ (exists e, closing = [EvCall (CloseSender cs targetName) None;
                                      EvCall (CloseClient cs) (Some e)]
                           /\ M.completion sent = Abrupt e)
             \/ (closing = [EvCall (CloseSender cs targetName) None;
                            EvCall (CloseClient cs) None]
                 /\ M.completion sent = match r with
                                        | Some e => Abrupt e
                                        | None => Normal tt
                                        end))))
  /\ ((exists e, M.log scanned = [EvCall (NewClient cs) (Some e)]
                 /\ M.completion scanned = Abrupt e)
      \/ (exists e, M.log scanned = [EvCall (NewClient cs) None;
                                     EvCall (CreateReceiver cs targetName) (Some e)]
                    /\ M.completion scanned = Abrupt e)
      \/ (exists body closing,
            M.log scanned
            = [EvCall (NewClient cs) None; EvCall (CreateReceiver cs targetName) None]
              ++ body ++ closing
            /\ forallb Trace.isScanCall body = true
            /\ ((exists e, closing = [EvCall (CloseReceiver cs targetName) (Some e)]
                           /\ M.completion scanned = Abrupt e)
                \/ (exists e, closing = [EvCall (CloseReceiver cs targetName) None;
                                         EvCall (CloseClient cs) (Some e)]
                              /\ M.completion scanned = Abrupt e)
                \/ closing = [EvCall (CloseReceiver cs targetName) None;
                              EvCall (CloseClient cs) None]))).
Proof.
  cbn zeta. split.
  - unfold Provider.sendMessageToQueue, M.bind, M.tryFinally, M.call.
    destruct (invoke sdk (NewClient cs) w) as [w1 [e|]];
      [left; now exists e|right].
    destruct (invoke sdk (CreateSender cs targetName) w1) as [w2 [e|]];
      [left; now exists e|right].
    destruct (invoke sdk (SendMessages cs targetName (Provider.outgoing msg)) w2)
      as [w3 r].
    exists r.
    destruct r as [e|];
      (destruct (invoke sdk (CloseSender cs targetName) w3) as [w4 [e1|]];
       [|destruct (invoke sdk (CloseClient cs) w4) as [w5 [e2|]]]);
      cbn; eexists; (split; [reflexivity|]); eauto 6.
  - pose proof (deleteMessageFromQueue_shape sdk cs targetName sequenceNumber w) as Hs.
    set (log := M.log _) in *. set (c := M.completion _) in *. clearbody log c.
    destruct Hs as [e|e|scan c0 closing c' Hr Hcl].
    + left. now exists e.
    + right. left. now exists e.
    + right. right. exists scan, closing. split; [reflexivity|].
      split; [exact (run_scan_calls _ _ _ _ _ _ _ Hr)|].
      destruct Hcl; eauto 6.
Qed.

End CallFacts.

Section Verdicts.
Variables (cs q sequenceNumber : string).

Lemma batch_verdict msgs found ev c :
  Scan.BatchRun cs q sequenceNumber msgs found ev c ->
  match c with
  | Normal found' =>
      Log.thrown ev = []
      /\ found' = (found || existsb (Trace.completedTarget sequenceNumber) ev)%bool
  | Abrupt e => In e (Log.thrown ev)
  end.
Proof.
  induction 1 as [found|m rest found ev c Hm _ IH|m rest found e Hm
                  |m rest found ev c Hm _ IH|m rest found e Hm]; cbn.
  - split; [reflexivity|]. now rewrite orb_false_r.
  - destruct c as [found'|e]; [|exact IH].
    destruct IH as [Ht Hf]. split; [exact Ht|]. rewrite Hm. cbn.
    rewrite orb_true_r. now rewrite Hf.
  - now left.
  - destruct c as [found'|e]; [|exact IH].
    destruct IH as [Ht Hf]. now split.
  - now left.
Qed.

Lemma run_verdict n found ev c :
  Scan.Run cs q sequenceNumber n found ev c ->
  match c with
  | Normal found' =>
      Log.thrown ev = []
      /\ found' = (found || existsb (Trace.completedTarget sequenceNumber) ev)%bool
  | Abrupt e => In e (Log.thrown ev)
  end.
Proof.
  induction 1 as [found|n|n e|n msgs ev e Hb|n
                  |n msgs found' ev ev' c Hb Hbreak _ IH]; cbn.
  - split; [reflexivity|]. now rewrite orb_false_r.
  - now split.
  - now left.
  - exact (batch_verdict _ _ _ _ Hb).
  - now split.
  - pose proof (batch_verdict _ _ _ _ Hb) as [Ht Hf]. cbn in Hf.
    rewrite thrown_app, Ht, existsb_app. cbn [app].
    destruct c as [found''|e]; [|exact IH].
    destruct IH as [Ht' Hf']. split; [exact Ht'|]. now rewrite Hf', Hf.
Qed.

Lemma delete_verdict ev c :
  Scan.DeleteRun cs q sequenceNumber ev c ->
  c = Normal tt
  <-> Log.thrown ev = []
      /\ existsb (Trace.completedTarget sequenceNumber) ev = true.
Proof.
  destruct 1 as [e|e|scan c0 closing c' Hr Hcl]; cbn.
  - split; [discriminate|]. intros [H _]. discriminate.
  - split; [discriminate|]. intros [H _]. discriminate.
  - pose proof (run_verdict _ _ _ _ Hr) as Hv.
    rewrite thrown_app, existsb_app.
    inversion Hcl as [e Hev Hc|e Hev Hc|Hev Hc]; subst; cbn.
    + split; [discriminate|]. intros [H _].
      apply app_eq_nil in H as [_ H]. discriminate.
    + split; [discriminate|]. intros [H _].
      apply app_eq_nil in H as [_ H]. discriminate.
    + rewrite orb_false_r. destruct c0 as [[|]|e]; cbn.
      * destruct Hv as [Ht Hf]. cbn in Hf. rewrite Ht. split; auto.
      * destruct Hv as [Ht Hf]. cbn in Hf. split; [discriminate|].
        intros [_ H]. rewrite H in Hf. discriminate.
      * split; [discriminate|]. intros [H _].
        apply app_eq_nil in H as [H _]. rewrite H in Hv. destruct Hv.
Qed.

Lemma delete_masked ev c pre e close :
  Scan.DeleteRun cs q sequenceNumber ev c ->
  ev = pre ++ [EvCall close (Some e)] ->
  c = Abrupt e.
Proof.
  destruct 1 as [e'|e'|scan c0 closing c' Hr Hcl]; intros Hev.
  - destruct pre as [|x [|y pre]]; cbn in Hev; try discriminate. congruence.
  - change [EvCall (NewClient cs) None; EvCall (CreateReceiver cs q) (Some e')]
      with ([EvCall (NewClient cs) None] ++ [EvCall (CreateReceiver cs q) (Some e')])
      in Hev.
    apply app_inj_tail in Hev as [_ Hev]. congruence.
  - inversion Hcl as [e' Hc He|e' Hc He|Hc He]; subst.
    + rewrite 2 app_comm_cons in Hev.
      apply app_inj_tail in Hev as [_ Hev]. congruence.
    + change [EvCall (CloseReceiver cs q) None; EvCall (CloseClient cs) (Some e')]
        with ([EvCall (CloseReceiver cs q) None] ++ [EvCall (CloseClient cs) (Some e')])
        in Hev.
      rewrite 2 app_comm_cons in Hev. rewrite app_assoc in Hev.
      apply app_inj_tail in Hev as [_ Hev]. congruence.
    + change [EvCall (CloseReceiver cs q) None; EvCall (CloseClient cs) None]
        with ([EvCall (CloseReceiver cs q) None] ++ [EvCall (CloseClient cs) None])
        in Hev.
      rewrite 2 app_comm_cons in Hev. rewrite app_assoc in Hev.
      apply app_inj_tail in Hev as [_ Hev]. discriminate.
Qed.

End Verdicts.

(** X7: [deleteMessageFromQueue] returns normally exactly when none of its
    SDK calls threw and one of them was a [completeMessage] on a message
    carrying the wanted sequence number: a reported deletion is a real one,
    and any exception on the way, also while abandoning another message or
    while closing, makes the call throw. *)
Theorem deletion_succeeds_iff_target_completed {W : Type} (sdk : Sdk W)
    (queueName connectionString sequenceNumber : string) (w : W) :
  let run := Provider.deleteMessageFromQueue sdk queueName connectionString
               sequenceNumber w in
  M.completion run = Normal tt
  <-> Log.thrown (M.log run) = []
      /\ existsb (Trace.completedTarget sequenceNumber) (M.log run) = true.
Proof.
  cbn zeta. apply (delete_verdict connectionString queueName).
  apply deleteMessageFromQueue_shape.
Qed.

(** X8: when the last call of [deleteMessageFromQueue] threw, which is then
    a creation or a close, the call throws that very value, whatever the
    scan did before: a message that was found and completed is reported as
    failed when closing the receiver or the client throws. *)
Theorem closing_error_masks_the_scan {W : Type} (sdk : Sdk W)
    (queueName connectionString sequenceNumber : string) (w : W) pre close e :
  let run := Provider.deleteMessageFromQueue sdk queueName connectionString
               sequenceNumber w in
  M.log run = pre ++ [EvCall close (Some e)] ->
  M.completion run = Abrupt e.
Proof.
  cbn zeta. intros H.
  exact (delete_masked connectionString queueName sequenceNumber _ _ pre e close
           (deleteMessageFromQueue_shape sdk connectionString queueName
              sequenceNumber w) H).
Qed.

Lemma closing_error_masks_the_scan_witness :
  M.completion
    (Provider.deleteMessageFromQueue
       (Script.sdk (Faulty.closeReceiverFails "link detached")) "orders"
       Script.secret "1" (Script.start [[Script.inbound 1]]))
  = Abrupt (Js.ErrorObj "link detached")
  /\ Script.completed
       (M.world
          (Provider.deleteMessageFromQueue
             (Script.sdk (Faulty.closeReceiverFails "link detached")) "orders"
             Script.secret "1" (Script.start [[Script.inbound 1]])))
     = [Script.inbound 1].
Proof.
  split.
  - apply (closing_error_masks_the_scan
             (Script.sdk (Faulty.closeReceiverFails "link detached")) "orders"
             Script.secret "1" (Script.start [[Script.inbound 1]])
             [EvCall (NewClient Script.secret) None;
              EvCall (CreateReceiver Script.secret "orders") None;
              EvReceive Script.secret "orders" 100 5000 (inr [Script.inbound 1]);
              EvCall (CompleteMessage Script.secret "orders" (Script.inbound 1)) None]
             (CloseReceiver Script.secret "orders")).
    vm_compute. reflexivity.
  - vm_compute. reflexivity.
Defined.

(** ** The sequence number column *)

Lemma intToString_shape (z : Z) :
  Js.intToString z <> "" /\ Js.intToString z <> "N/A".
Proof.
  unfold Js.intToString, NilZero.string_of_int.
  destruct (Z.to_int z) as [d|d]; [|split; discriminate].
  unfold NilZero.string_of_uint. destruct d; cbn; split; discriminate.
Qed.

(** X9: the text the panel shows, and puts into its snapshots, as the
    sequence number of a message identifies that message in a scan when the
    message has a sequence number; for a message without one it is the
    placeholder [N/A], which no received message matches, so a scan for such
    a row completes nothing and always throws. *)
Theorem sequence_number_text_identifies_numbered_messages {W : Type} (sdk : Sdk W)
    (queueName connectionString : string) (msg : Received) (w : W) :
  match rSequenceNumber msg with
  | Some n =>
      View.sequenceNumberText msg = Js.intToString n
      /\ seqMatches msg (View.sequenceNumberText msg) = true
  | None =>
      View.sequenceNumberText msg = "N/A"
      /\ (forall other, seqMatches other (View.sequenceNumberText msg) = false)
      /\ let run := Provider.deleteMessageFromQueue sdk queueName connectionString
                      (View.sequenceNumberText msg) w in
         Log.completeCalls (M.log run) = []
         /\ exists e, M.completion run = Abrupt e
  end.
Proof.
  unfold View.sequenceNumberText, seqMatches.
  destruct (rSequenceNumber msg) as [n|] eqn:Hn.
  - destruct (intToString_shape n) as [Hne _].
    apply String.eqb_neq in Hne. rewrite Hne.
    split; [reflexivity|]. apply String.eqb_refl.
  - split; [reflexivity|].
    assert (Hnone : forall other,
              match rSequenceNumber other with
              | Some k => String.eqb (Js.intToString k) "N/A"
              | None => false
              end = false).
    { intros other. destruct (rSequenceNumber other) as [k|]; [|reflexivity].
      apply String.eqb_neq. apply intToString_shape. }
    split; [exact Hnone|]. cbn zeta.
    destruct (delete_unmatched connectionString queueName "N/A" _ _
                (deleteMessageFromQueue_shape sdk connectionString queueName "N/A" w))
      as (Hc & e & He & _).
    + apply forallb_forall. intros m _. apply negb_true_iff. apply Hnone.
    + split; [exact Hc|]. now exists e.
Qed.

(** ** What a bulk operation shows *)

Section UiFacts.
Context {W : Type} (sdk : Sdk W).

Ltac ui_cases :=
  repeat match goal with
         | |- context [invoke sdk ?c ?w] => destruct (invoke sdk c w) as [? [?|]]
         end.

Lemma send_sdk_only targetName cs msg w :
  Forall (fun e => Log.isSdk e = true)
    (M.log (Provider.sendMessageToQueue sdk targetName cs msg w)).
Proof.
  unfold Provider.sendMessageToQueue, M.bind, M.tryFinally, M.call.
  ui_cases; cbn; repeat constructor.
Qed.

Lemma batch_sdk_only cs q sequenceNumber msgs found ev c :
  Scan.BatchRun cs q sequenceNumber msgs found ev c ->
  Forall (fun e => Log.isSdk e = true /\ Trace.connectionOf e = Some cs) ev.
Proof. induction 1; repeat constructor; assumption. Qed.

Lemma run_sdk_only cs q sequenceNumber n found ev c :
  Scan.Run cs q sequenceNumber n found ev c ->
  Forall (fun e => Log.isSdk e = true /\ Trace.connectionOf e = Some cs) ev.
Proof.
  induction 1 as [found|n|n e|n msgs ev e Hb|n
                  |n msgs found' ev ev' c Hb Hbreak _ IH];
    repeat constructor.
  - exact (batch_sdk_only _ _ _ _ _ _ _ Hb).
  - apply Forall_app. split; [exact (batch_sdk_only _ _ _ _ _ _ _ Hb)|exact IH].
Qed.

Lemma delete_sdk_only cs q sequenceNumber ev c :
  Scan.DeleteRun cs q sequenceNumber ev c ->
  Forall (fun e => Log.isSdk e = true /\ Trace.connectionOf e = Some cs) ev.
Proof.
  destruct 1 as [e|e|scan c0 closing c' Hr Hcl]; repeat constructor.
  apply Forall_app. split; [exact (run_sdk_only _ _ _ _ _ _ _ Hr)|].
  inversion Hcl; subst; repeat constructor.
Qed.

Lemma deleteAttempt_sdk_only queueName msg w :
  Forall (fun e => Log.isSdk e = true)
    (M.log (Provider.deleteAttempt sdk queueName msg w)).
Proof.
  unfold Provider.deleteAttempt.
  destruct (MessageData.sourceConnectionString msg) as [scs|]; [|constructor].
  destruct (Js.truthy (Some scs)); [|constructor].
  eapply Forall_impl;
    [exact (delete_sdk_only _ _ _ _ _
              (deleteMessageFromQueue_shape sdk scs queueName
                 (MessageData.sequenceNumber msg) w))|].
  cbn. tauto.
Qed.

Lemma moveAttempt_sdk_only targetName cs msg w :
  Forall (fun e => Log.isSdk e = true)
    (M.log (Provider.moveAttempt sdk targetName cs msg w)).
Proof.
  unfold Provider.moveAttempt, M.bind.
  pose proof (send_sdk_only targetName cs msg w) as Hs.
  destruct (Provider.sendMessageToQueue sdk targetName cs msg w) as [[w1 ev1] [u|e]];
    cbn [M.log fst snd] in *; [|exact Hs].
  assert (Hd : forall q scs,
             Forall (fun e => Log.isSdk e = true)
               (M.log (Provider.deleteMessageFromQueue sdk q scs
                         (MessageData.sequenceNumber msg) w1))).
  { intros q scs. eapply Forall_impl;
      [exact (delete_sdk_only _ _ _ _ _
                (deleteMessageFromQueue_shape sdk scs q
                   (MessageData.sequenceNumber msg) w1))|].
    cbn. tauto. }
  destruct (MessageData.sourceQueue msg) as [sq|];
    [destruct (MessageData.sourceConnectionString msg) as [scs|];
     [destruct (Js.truthy (Some scs))|]|];
    try (cbn; rewrite app_nil_r; exact Hs).
  specialize (Hd (Queue.name sq) scs).
  destruct (Provider.deleteMessageFromQueue sdk (Queue.name sq) scs
              (MessageData.sequenceNumber msg) w1) as [[w2 ev2] c].
  cbn in *. apply Forall_app. now split.
Qed.

Lemma filter_ui_of_sdk (evs : list Event) :
  Forall (fun e => Log.isSdk e = true) evs ->
  List.filter (fun e => negb (Log.isSdk e)) evs = [].
Proof.
  induction 1 as [|e evs He _ IH]; cbn; [reflexivity|]. now rewrite He.
Qed.

Lemma filter_ui_removed (msgs : list MessageData.t) :
  List.filter (fun e => negb (Log.isSdk e))
    (map (fun m => EvNotifyMessageRemoved (MessageData.sequenceNumber m)) msgs)
  = map (fun m => EvNotifyMessageRemoved (MessageData.sequenceNumber m)) msgs.
Proof. induction msgs as [|m msgs IH]; cbn; [reflexivity|now rewrite IH]. Qed.

Lemma moveMessageToQueue_unfold st panelOpen messageData target cs w :
  Store.getConnectionString (Queue.connectionId target) st = Some cs ->
  Js.truthy (Some cs) = true ->
  exists r,
    let run := Provider.moveLoop sdk (Queue.name target) cs
                 (normalize messageData) emptyResults w in
    M.completion run = Normal r
    /\ Provider.moveMessageToQueue sdk st panelOpen messageData target w
       = (M.world run,
          EvProgress
            (if Nat.ltb 1 (length (normalize messageData))
             then "Moving " +:+ Js.natToString (length (normalize messageData))
                  +:+ " messages to " +:+ Queue.name target +:+ "..."
             else "Moving message to " +:+ Queue.name target +:+ "...")
          :: M.log run
          ++ Provider.moveSummary (length (normalize messageData)) (Queue.name target) r
          :: (if panelOpen
              then map (fun m => EvNotifyMessageRemoved (MessageData.sequenceNumber m))
                       (successful r)
              else [])
          ++ [EvRefreshTree],
          Normal (Some r)).
Proof.
  intros Hcs Ht. unfold Provider.moveMessageToQueue. rewrite Hcs, Ht.
  destruct (each_partition (Provider.moveAttempt sdk (Queue.name target) cs)
              (normalize messageData) emptyResults w) as (succ & fail & Hc & _).
  rewrite <- moveLoop_each in Hc.
  destruct (Provider.moveLoop sdk (Queue.name target) cs (normalize messageData)
              emptyResults w) as [[w1 ev1] c] eqn:Hrun.
  cbn in Hc. subst c.
  set (r := {| successful := succ; failed := fail |}) in *.
  exists r. cbn zeta. split; [reflexivity|].
  unfold M.bind, M.emit. rewrite Hrun. cbn [M.world M.log fst snd].
  destruct panelOpen; cbn [andb].
  - destruct (Nat.ltb 0 (length (successful r))) eqn:Hlen.
    + rewrite notifyRemoved_run. reflexivity.
    + destruct (successful r); [reflexivity|discriminate].
  - reflexivity.
Qed.

Lemma deleteMessages_unfold panelOpen messageData first rest sq w :
  normalize messageData = first :: rest ->
  MessageData.sourceQueue first = Some sq ->
  Js.truthy (MessageData.sourceConnectionString first) = true ->
  exists r,
    let run := Provider.deleteLoop sdk (Queue.name sq) (first :: rest) emptyResults w in
    M.completion run = Normal r
    /\ Provider.deleteMessages sdk panelOpen messageData w
       = (M.world run,
          EvProgress
            (if Nat.ltb 1 (length (first :: rest))
             then "Deleting " +:+ Js.natToString (length (first :: rest))
                  +:+ " messages..."
             else "Deleting message...")
          :: M.log run
          ++ Provider.deleteSummary (length (first :: rest)) (Queue.name sq) r
          :: (if (panelOpen && Nat.ltb 0 (length (successful r)))%bool
              then [EvRefreshView] else [])
          ++ [EvRefreshTree],
          Normal (Some r)).
Proof.
  intros Hn Hq Ht. unfold Provider.deleteMessages. rewrite Hn, Hq, Ht.
  destruct (each_partition (Provider.deleteAttempt sdk (Queue.name sq))
              (first :: rest) emptyResults w) as (succ & fail & Hc & _).
  rewrite <- deleteLoop_each in Hc.
  destruct (Provider.deleteLoop sdk (Queue.name sq) (first :: rest) emptyResults w)
    as [[w1 ev1] c] eqn:Hrun.
  cbn in Hc. subst c.
  set (r := {| successful := succ; failed := fail |}) in *.
  exists r. cbn zeta. split; [reflexivity|].
  unfold M.bind, M.emit. rewrite Hrun. cbn [M.world M.log fst snd].
  destruct (panelOpen && Nat.ltb 0 (length (successful r)))%bool; reflexivity.
Qed.

End UiFacts.

Section UiProperties.
Context {W : Type} (sdk : Sdk W).

Lemma moveLoop_sdk_only targetName cs msgs r w :
  Forall (fun e => Log.isSdk e = true)
    (M.log (Provider.moveLoop sdk targetName cs msgs r w)).
Proof.
  rewrite moveLoop_each. apply each_log_forall.
  intros m w'. apply moveAttempt_sdk_only.
Qed.

Lemma deleteLoop_sdk_only queueName msgs r w :
  Forall (fun e => Log.isSdk e = true)
    (M.log (Provider.deleteLoop sdk queueName msgs r w)).
Proof.
  rewrite deleteLoop_each. apply each_log_forall.
  intros m w'. apply deleteAttempt_sdk_only.
Qed.

(** X10: a bulk move that has its target's secret never throws, and what
    it does on the UI is, in this order: the progress notification, exactly
    one summary, the removal from the open panel of the rows of the
    successful messages and of no other row, and the refresh of the tree.
    The summary is an information when nothing failed, an error when
    nothing succeeded, and a warning otherwise. *)
Theorem bulk_move_reports_once st panelOpen messageData target cs (w : W) :
  Store.getConnectionString (Queue.connectionId target) st = Some cs ->
  Js.truthy (Some cs) = true ->
  let run := Provider.moveMessageToQueue sdk st panelOpen messageData target w in
  exists r title summary,
    M.completion run = Normal (Some r)
    /\ List.filter (fun e => negb (Log.isSdk e)) (M.log run)
       = EvProgress title :: summary
         :: (if panelOpen
             then map (fun m => EvNotifyMessageRemoved (MessageData.sequenceNumber m))
                      (successful r)
             else [])
         ++ [EvRefreshTree]
    /\ match failed r, successful r with
       | [], _ => exists text, summary = EvShowInformation text
       | _ :: _, [] => exists text, summary = EvShowError text
       | _ :: _, _ :: _ => exists text, summary = EvShowWarning text
       end.
Proof.
  intros Hcs Ht run.
  destruct (moveMessageToQueue_unfold sdk st panelOpen messageData target cs w Hcs Ht)
    as (r & Hc & Hrun).
  cbn zeta in Hc, Hrun. subst run. rewrite Hrun. cbn [M.completion M.log fst snd].
  exists r. eexists. exists (Provider.moveSummary (length (normalize messageData))
                               (Queue.name target) r).
  split; [reflexivity|]. split.
  - cbn [List.filter Log.isSdk negb]. f_equal.
    rewrite List.filter_app, (filter_ui_of_sdk _ (moveLoop_sdk_only _ _ _ _ _)).
    cbn [app List.filter]. rewrite moveSummary_no_sdk. cbn [negb]. f_equal.
    rewrite List.filter_app. cbn. f_equal.
    destruct panelOpen; [apply filter_ui_removed|reflexivity].
  - unfold Provider.moveSummary.
    destruct (failed r) as [|f fs]; cbn; [eauto|].
    destruct (successful r) as [|m ms]; cbn; eauto.
Qed.

(** X11: a bulk delete that starts its loop never throws and shows, in this
    order: the progress notification, exactly one summary (information,
    error or warning as for a move), one redraw of the open panel if at
    least one message was deleted, and the refresh of the tree. *)
Theorem bulk_delete_reports_once panelOpen messageData first rest sq (w : W) :
  normalize messageData = first :: rest ->
  MessageData.sourceQueue first = Some sq ->
  Js.truthy (MessageData.sourceConnectionString first) = true ->
  let run := Provider.deleteMessages sdk panelOpen messageData w in
  exists r title summary,
    M.completion run = Normal (Some r)
    /\ List.filter (fun e => negb (Log.isSdk e)) (M.log run)
       = EvProgress title :: summary
         :: (if (panelOpen && negb (Nat.eqb (length (successful r)) 0))%bool
             then [EvRefreshView] else [])
         ++ [EvRefreshTree]
    /\ match failed r, successful r with
       | [], _ => exists text, summary = EvShowInformation text
       | _ :: _, [] => exists text, summary = EvShowError text
       | _ :: _, _ :: _ => exists text, summary = EvShowWarning text
       end.
Proof.
  intros Hn Hq Ht run.
  destruct (deleteMessages_unfold sdk panelOpen messageData first rest sq w Hn Hq Ht)
    as (r & Hc & Hrun).
  cbn zeta in Hc, Hrun. subst run. rewrite Hrun. cbn [M.completion M.log fst snd].
  exists r. eexists. exists (Provider.deleteSummary (length (first :: rest))
                               (Queue.name sq) r).
  split; [reflexivity|]. split.
  - cbn [List.filter Log.isSdk negb]. f_equal.
    rewrite List.filter_app, (filter_ui_of_sdk _ (deleteLoop_sdk_only _ _ _ _)).
    cbn [app List.filter]. rewrite deleteSummary_no_sdk. cbn [negb]. f_equal.
    destruct panelOpen; cbn [andb]; [|reflexivity].
    destruct (successful r); reflexivity.
  - unfold Provider.deleteSummary.
    destruct (failed r) as [|f fs]; cbn; [eauto|].
    destruct (successful r) as [|m ms]; cbn; eauto.
Qed.

End UiProperties.

Lemma bulk_move_reports_once_witness :
  exists r title summary,
    M.completion
      (Provider.moveMessageToQueue (Script.sdk (Script.rejecting "m2" "quota exceeded"))
         Script.store true (Many Script.selection) Script.archive
         (Script.start [[Script.inbound 1]]))
    = Normal (Some r)
    /\ List.filter (fun e => negb (Log.isSdk e))
         (M.log
            (Provider.moveMessageToQueue
               (Script.sdk (Script.rejecting "m2" "quota exceeded"))
               Script.store true (Many Script.selection) Script.archive
               (Script.start [[Script.inbound 1]])))
       = EvProgress title :: summary
         :: map (fun m => EvNotifyMessageRemoved (MessageData.sequenceNumber m))
                (successful r)
         ++ [EvRefreshTree].
Proof.
  destruct (bulk_move_reports_once (Script.sdk (Script.rejecting "m2" "quota exceeded"))
              Script.store true (Many Script.selection) Script.archive Script.secret
              (Script.start [[Script.inbound 1]]))
    as (r & title & summary & Hc & Hui & _); [vm_compute; reflexivity..|].
  exists r, title, summary. split; [exact Hc|exact Hui].
Defined.

Lemma bulk_delete_reports_once_witness :
  exists r title summary,
    M.completion
      (Provider.deleteMessages (Script.sdk Script.noFaults) true (Many Script.selection)
         (Script.start [[Script.inbound 1]]))
    = Normal (Some r)
    /\ List.filter (fun e => negb (Log.isSdk e))
         (M.log
            (Provider.deleteMessages (Script.sdk Script.noFaults) true
               (Many Script.selection) (Script.start [[Script.inbound 1]])))
       = [EvProgress title; summary; EvRefreshView; EvRefreshTree]
    /\ exists text, summary = EvShowWarning text.
Proof.
  destruct (bulk_delete_reports_once (Script.sdk Script.noFaults) true
              (Many Script.selection)
              (Panel.attachSource Script.panel (Script.row 1))
              [Panel.attachSource Script.panel (Script.row 2)] Script.orders
              (Script.start [[Script.inbound 1]]))
    as (r & title & summary & Hc & Hui & Hkind); [vm_compute; reflexivity..|].
  exists r, title, summary. split; [exact Hc|].
  assert (Hr : Normal (Some r)
               = M.completion
                   (Provider.deleteMessages (Script.sdk Script.noFaults) true
                      (Many Script.selection) (Script.start [[Script.inbound 1]])))
    by (symmetry; exact Hc).
  vm_compute in Hr. injection Hr as ->. split; [exact Hui|exact Hkind].
Defined.

(** ** Failures and empty batches *)

Section EdgeFacts.
Context {W : Type} (sdk : Sdk W).

Lemma processMessageMove_returns st panelOpen target messageData (w : W) :
  M.completion (Provider.processMessageMove sdk st panelOpen target messageData w)
  = Normal tt.
Proof.
  unfold Provider.processMessageMove, M.tryCatch.
  destruct (Store.getConnectionString (Queue.connectionId target) st) as [cs|];
    [|reflexivity].
  destruct (Js.truthy (Some cs)); [|reflexivity].
  unfold M.bind, M.emit.
  destruct (Provider.sendAll sdk (Queue.name target) cs (normalize messageData) w)
    as [[w1 ev1] [u|e]]; [|reflexivity].
  destruct panelOpen; [rewrite notifyRemoved_run|]; reflexivity.
Qed.

(** X12: no exception leaves a bulk operation or a drop, whatever the broker
    does: [moveMessageToQueue], [processMessageMove] and [handleDrop] always
    return normally, and so does [deleteMessages] on every non-empty batch.
    The one exception that escapes is the [TypeError] of [deleteMessages] on
    an empty array, raised before anything is shown or called. *)
Theorem bulk_operations_contain_failures st panelOpen messageData target dropTarget
    pending dataTransfer (w : W) :
  (exists outcome,
     M.completion (Provider.moveMessageToQueue sdk st panelOpen messageData target w)
     = Normal outcome)
  /\ M.completion (Provider.processMessageMove sdk st panelOpen target messageData w)
     = Normal tt
  /\ (exists pending',
        M.completion (Provider.handleDrop sdk st panelOpen dropTarget pending
                        dataTransfer w) = Normal pending')
  /\ match normalize messageData with
     | [] => Provider.deleteMessages sdk panelOpen messageData w
             = (w, [], Abrupt Provider.undefinedFirstMessage)
     | _ :: _ => exists outcome,
                   M.completion (Provider.deleteMessages sdk panelOpen messageData w)
                   = Normal outcome
     end.
Proof.
  split; [|split; [|split]].
  - destruct (Store.getConnectionString (Queue.connectionId target) st) as [cs|] eqn:Hcs.
    + destruct (Js.truthy (Some cs)) eqn:Ht.
      * destruct (moveMessageToQueue_unfold sdk st panelOpen messageData target cs w
                    Hcs Ht) as (r & _ & Hrun).
        cbn zeta in Hrun. rewrite Hrun. now exists (Some r).
      * unfold Provider.moveMessageToQueue. rewrite Hcs, Ht. now exists None.
    + unfold Provider.moveMessageToQueue. rewrite Hcs. now exists None.
  - apply processMessageMove_returns.
  - unfold Provider.handleDrop, Provider.dropTextPlain.
    destruct dropTarget as [tq|]; [|now exists pending].
    assert (Hmove : forall messages,
              M.completion
                ((Provider.processMessageMove sdk st panelOpen tq messages ;;;
                  M.ret None) w) = Normal (@None MessageArg)).
    { intros messages. unfold M.bind.
      pose proof (processMessageMove_returns st panelOpen tq messages w) as Hp.
      destruct (Provider.processMessageMove sdk st panelOpen tq messages w)
        as [[w1 ev1] c]. cbn in Hp. subst c. reflexivity. }
    destruct pending as [messages|]; [exists None; apply Hmove|].
    destruct (Provider.uriList dataTransfer) as [[|[messages|]]|];
      try (exists None; apply Hmove);
      (destruct (Provider.textPlain dataTransfer) as [[messages|]|];
       [exists None; apply Hmove|now exists None..]).
  - unfold Provider.deleteMessages.
    destruct (normalize messageData) as [|first rest] eqn:Hn; [reflexivity|].
    destruct (MessageData.sourceQueue first) as [sq|] eqn:Hq; [|now exists None].
    destruct (Js.truthy (MessageData.sourceConnectionString first)) eqn:Ht;
      [|now exists None].
    destruct (deleteMessages_unfold sdk panelOpen messageData first rest sq w Hn Hq Ht)
      as (r & _ & Hrun).
    cbn zeta in Hrun. unfold Provider.deleteMessages in Hrun.
    rewrite Hn, Hq, Ht in Hrun. rewrite Hrun. now exists (Some r).
Qed.

(** X13: an empty batch is not noticed by the two move paths: with the
    target's secret at hand, [moveMessageToQueue] and [processMessageMove]
    make no SDK call and still announce "Message moved to" the target. *)
Theorem empty_batch_is_announced_as_moved st panelOpen target cs (w : W) :
  Store.getConnectionString (Queue.connectionId target) st = Some cs ->
  Js.truthy (Some cs) = true ->
  Provider.moveMessageToQueue sdk st panelOpen (Many []) target w
  = (w,
     [EvProgress ("Moving message to " +:+ Queue.name target +:+ "...");
      EvShowInformation ("Message moved to " +:+ Queue.name target);
      EvRefreshTree],
     Normal (Some emptyResults))
  /\ Provider.processMessageMove sdk st panelOpen target (Many []) w
     = (w,
        [EvProgress ("Moving message to " +:+ Queue.name target +:+ "...");
         EvShowInformation ("Message moved to " +:+ Queue.name target);
         EvRefreshTree],
        Normal tt).
Proof.
  intros Hcs Ht. split.
  - unfold Provider.moveMessageToQueue. rewrite Hcs, Ht.
    destruct panelOpen; reflexivity.
  - unfold Provider.processMessageMove. rewrite Hcs, Ht.
    destruct panelOpen; reflexivity.
Qed.

Lemma sendAll_app targetName cs pre post w :
  Provider.sendAll sdk targetName cs (pre ++ post) w
  = M.bind (Provider.sendAll sdk targetName cs pre)
      (fun _ => Provider.sendAll sdk targetName cs post) w.
Proof.
  revert w. induction pre as [|m pre IH]; intros w.
  - cbn. unfold M.bind, M.ret.
    destruct (Provider.sendAll sdk targetName cs post w) as [[w1 ev1] c]. reflexivity.
  - cbn [app Provider.sendAll]. unfold M.bind.
    destruct (Provider.sendMessageToQueue sdk targetName cs m w) as [[w1 ev1] [u|e]];
      [|reflexivity].
    rewrite IH. unfold M.bind.
    destruct (Provider.sendAll sdk targetName cs pre w1) as [[w2 ev2] [u2|e2]];
      [|reflexivity].
    destruct (Provider.sendAll sdk targetName cs post w2) as [[w3 ev3] c].
    now rewrite app_assoc.
Qed.

(** X14: a drop stops at the first send that throws.  The messages before
    it were copied to the target, the messages after it are not sent, and
    all that is shown is one error with the thrown text: no success message,
    no row removed from the panel, no refresh of the tree, although the
    copies of the earlier messages exist. *)
Theorem drop_stops_at_first_failed_send st panelOpen target cs pre msg post e (w : W) :
  Store.getConnectionString (Queue.connectionId target) st = Some cs ->
  Js.truthy (Some cs) = true ->
  let before := Provider.sendAll sdk (Queue.name target) cs pre w in
  let sent := Provider.sendMessageToQueue sdk (Queue.name target) cs msg
                (M.world before) in
  M.completion before = Normal tt ->
  M.completion sent = Abrupt e ->
  exists title,
    Provider.processMessageMove sdk st panelOpen target (Many (pre ++ msg :: post)) w
    = (M.world sent,
       EvProgress title
       :: (M.log before ++ M.log sent)
       ++ [EvShowError ("Failed to move message(s): " +:+ Js.errorMessage e)],
       Normal tt).
Proof.
  intros Hcs Ht before sent Hb Hs.
  unfold Provider.processMessageMove, M.tryCatch. rewrite Hcs, Ht.
  cbn [normalize]. unfold M.bind at 1, M.emit at 1. unfold M.bind at 1.
  rewrite sendAll_app. unfold M.bind at 1. fold before.
  destruct before as [[w1 ev1] c1] eqn:Hbefore. cbn in Hb. subst c1.
  cbn [Provider.sendAll]. unfold M.bind at 1.
  cbn [M.world fst] in sent. fold sent.
  destruct sent as [[w2 ev2] c2] eqn:Hsent. cbn in Hs. subst c2.
  eexists. cbn [M.world M.log fst snd app]. unfold M.emit. reflexivity.
Qed.

End EdgeFacts.

Lemma drop_stops_at_first_failed_send_witness :
  exists title,
    M.log
      (Provider.processMessageMove (Script.sdk (Script.rejecting "m2" "quota exceeded"))
         Script.store true Script.archive
         (Many [Script.row 1; Script.row 2; Script.row 3]) (Script.start []))
    = EvProgress title
      :: (M.log (Provider.sendAll (Script.sdk (Script.rejecting "m2" "quota exceeded"))
                   "archive" Script.secret [Script.row 1] (Script.start []))
          ++ M.log (Provider.sendMessageToQueue
                      (Script.sdk (Script.rejecting "m2" "quota exceeded"))
                      "archive" Script.secret (Script.row 2) (Script.start [])))
      ++ [EvShowError "Failed to move message(s): quota exceeded"].
Proof.
  destruct (drop_stops_at_first_failed_send
              (Script.sdk (Script.rejecting "m2" "quota exceeded")) Script.store true
              Script.archive Script.secret [Script.row 1] (Script.row 2) [Script.row 3]
              (Js.ErrorObj "quota exceeded") (Script.start []))
    as (title & Hrun); [vm_compute; reflexivity..|].
  exists title. exact (f_equal (fun x => snd (fst x)) Hrun).
Defined.

(** ** Snapshots without provenance in a bulk move *)

Section Unsourced.
Context {W : Type} (sdk : Sdk W).

Lemma moveAttempt_unsourced targetName cs msg (w : W) :
  MessageData.sourceQueue msg = None
  \/ Js.truthy (MessageData.sourceConnectionString msg) = false ->
  Provider.moveAttempt sdk targetName cs msg w
  = Provider.sendMessageToQueue sdk targetName cs msg w.
Proof.
  intros H. unfold Provider.moveAttempt, M.bind.
  destruct (Provider.sendMessageToQueue sdk targetName cs msg w) as [[w1 ev1] [[]|e]];
    [|reflexivity].
  destruct (MessageData.sourceQueue msg) as [sq|];
    [|cbn; now rewrite app_nil_r].
  destruct (MessageData.sourceConnectionString msg) as [scs|];
    [|cbn; now rewrite app_nil_r].
  destruct H as [H|H]; [discriminate|]. rewrite H. cbn. now rewrite app_nil_r.
Qed.

Lemma moveSummary_no_receiver n targetName r :
  Log.isReceiverCall (Provider.moveSummary n targetName r) = false.
Proof.
  unfold Provider.moveSummary.
  destruct (Nat.eqb (length (failed r)) 0); [reflexivity|].
  destruct (Nat.eqb (length (successful r)) 0); reflexivity.
Qed.

(** X15: a bulk move of snapshots that lack the source queue or the source
    connection string is a copy: no receiver is ever created and nothing is
    scanned, and the loop files each message under [successful] or [failed]
    by the outcome of its send alone. *)
Theorem unsourced_move_is_a_copy st panelOpen messageData target cs (w : W) :
  Store.getConnectionString (Queue.connectionId target) st = Some cs ->
  Js.truthy (Some cs) = true ->
  Forall (fun m => MessageData.sourceQueue m = None
                   \/ Js.truthy (MessageData.sourceConnectionString m) = false)
    (normalize messageData) ->
  let run := Provider.moveMessageToQueue sdk st panelOpen messageData target w in
  forallb (fun e => negb (Log.isReceiverCall e)) (M.log run) = true
  /\ Provider.moveLoop sdk (Queue.name target) cs (normalize messageData) emptyResults w
     = Bulk.each (Provider.sendMessageToQueue sdk (Queue.name target) cs)
         (normalize messageData) emptyResults w.
Proof.
  intros Hcs Ht Hall run.
  assert (Heach : forall msgs r w',
            Forall (fun m => MessageData.sourceQueue m = None
                             \/ Js.truthy (MessageData.sourceConnectionString m) = false)
              msgs ->
            Bulk.each (Provider.moveAttempt sdk (Queue.name target) cs) msgs r w'
            = Bulk.each (Provider.sendMessageToQueue sdk (Queue.name target) cs)
                msgs r w').
  { induction msgs as [|m msgs IH]; intros r w' Hm; [reflexivity|].
    apply Forall_cons in Hm as [Hm Hms].
    rewrite !each_step, (moveAttempt_unsourced _ _ _ _ Hm).
    destruct (Provider.sendMessageToQueue sdk (Queue.name target) cs m w')
      as [[w1 ev1] [u|e]]; now rewrite IH. }
  split; [|rewrite moveLoop_each; now apply Heach].
  destruct (moveMessageToQueue_unfold sdk st panelOpen messageData target cs w Hcs Ht)
    as (r & _ & Hrun).
  cbn zeta in Hrun. subst run. rewrite Hrun. cbn [M.log fst snd forallb].
  rewrite forallb_app. cbn [Log.isReceiverCall negb andb].
  apply andb_true_iff. split.
  - rewrite moveLoop_each, Heach by exact Hall.
    apply forallb_forall. intros ev Hev.
    assert (Hq : Forall (fun e => negb (Log.isReceiverCall e) = true)
                   (M.log (Bulk.each
                             (Provider.sendMessageToQueue sdk (Queue.name target) cs)
                             (normalize messageData) emptyResults w))).
    { apply each_log_forall. intros m w'. apply List.Forall_forall.
      apply forallb_forall. apply send_log_no_receiver. }
    rewrite List.Forall_forall in Hq. now apply Hq.
  - cbn [forallb]. rewrite moveSummary_no_receiver. cbn [andb].
    rewrite forallb_app. cbn. rewrite andb_true_r.
    destruct panelOpen; [apply notifyRemoved_never_scans|reflexivity].
Qed.

End Unsourced.

Lemma unsourced_move_is_a_copy_witness :
  forallb (fun e => negb (Log.isReceiverCall e))
    (M.log (Provider.moveMessageToQueue (Script.sdk Script.noFaults) Script.store true
              (Many [Script.row 1; Script.row 2]) Script.archive
              (Script.start [[Script.inbound 1; Script.inbound 2]]))) = true.
Proof.
  apply (unsourced_move_is_a_copy (Script.sdk Script.noFaults) Script.store true
           (Many [Script.row 1; Script.row 2]) Script.archive Script.secret
           (Script.start [[Script.inbound 1; Script.inbound 2]])).
  - vm_compute. reflexivity.
  - reflexivity.
  - repeat constructor.
Defined.

(** ** The panel as a singleton *)

Lemma queue_eta (q : Queue.t) :
  {| Queue.name := Queue.name q; Queue.connectionId := Queue.connectionId q |} = q.
Proof. now destruct q. Qed.

Lemma last_of_nonempty (a : Queue.t) (l : list Queue.t) (d d' : Queue.t) :
  List.last (a :: l) d = List.last (a :: l) d'.
Proof.
  revert a. induction l as [|b l IH]; intros a; [reflexivity|].
  change (List.last (b :: l) d = List.last (b :: l) d'). apply IH.
Qed.

(** X16: the panel keeps the connection string it was created with.  While
    it stays open, showing further queues changes its queue (when the
    queue's connection has a secret; otherwise an error is shown and the
    panel is left alone) but never its connection string, so the snapshots
    it then submits for a move or a delete carry the first connection's
    secret together with the last queue. *)
Theorem open_panel_keeps_its_connection_string {W : Type} st queues panel msg (w : W) :
  exists panel',
    M.completion (Lifecycle.showAll st queues (Some panel) w) = Normal (Some panel')
    /\ Panel.connectionString panel' = Panel.connectionString panel
    /\ MessageData.sourceConnectionString (Panel.attachSource panel' msg)
       = Some (Panel.connectionString panel)
    /\ (Forall (fun q => Js.truthy (Store.getConnectionString (Queue.connectionId q) st)
                         = true) queues ->
        Panel.queue panel' = List.last queues (Panel.queue panel)).
Proof.
  revert panel w. induction queues as [|q queues IH]; intros panel w.
  - exists panel. repeat split; reflexivity.
  - cbn [Lifecycle.showAll]. unfold M.bind, Lifecycle.showQueueMessagesCommand.
    assert (Hkeep : forall evs,
              exists panel',
                M.completion
                  (let '(w2, ev2, r) := Lifecycle.showAll st queues (Some panel) w in
                   (w2, evs ++ ev2, r)) = Normal (Some panel')
                /\ Panel.connectionString panel' = Panel.connectionString panel
                /\ MessageData.sourceConnectionString (Panel.attachSource panel' msg)
                   = Some (Panel.connectionString panel)).
    { intros evs. destruct (IH panel w) as (p' & Hc & Hcs & Hs & _).
      exists p'. destruct (Lifecycle.showAll st queues (Some panel) w) as [[w2 ev2] c].
      cbn in *. split; [exact Hc|]. split; [exact Hcs|exact Hs]. }
    destruct (Store.getConnectionString (Queue.connectionId q) st) as [cs|] eqn:Hg.
    + destruct (Js.truthy (Some cs)) eqn:Ht.
      * cbn [Lifecycle.createOrShow]. unfold M.bind, M.emit, M.ret. cbn [app].
        rewrite queue_eta.
        destruct (IH {| Panel.queue := q;
                        Panel.connectionString := Panel.connectionString panel |} w)
          as (p' & Hc & Hcs & Hs & Hq).
        clear Hkeep. exists p'.
        destruct (Lifecycle.showAll st queues
                    (Some {| Panel.queue := q;
                             Panel.connectionString := Panel.connectionString panel |})
                    w) as [[w2 ev2] c].
        cbn in *. split; [exact Hc|]. split; [exact Hcs|].
        split; [exact Hs|].
        intros Hall. apply Forall_cons in Hall as [_ Hall].
        rewrite (Hq Hall). destruct queues as [|q' queues]; [reflexivity|].
        change (List.last (q :: q' :: queues) (Panel.queue panel))
          with (List.last (q' :: queues) (Panel.queue panel)).
        apply last_of_nonempty.
      * unfold M.bind, M.emit, M.ret. cbn [app].
        destruct (Hkeep [EvShowError "Connection string not found"])
          as (p' & Hc & Hcs & Hs).
        exists p'. split; [exact Hc|]. split; [exact Hcs|].
        split; [exact Hs|].
        intros Hall. apply Forall_cons in Hall as [Hq _].
        rewrite Hg, Ht in Hq. discriminate.
    + unfold M.bind, M.emit, M.ret. cbn [app].
      destruct (Hkeep [EvShowError "Connection string not found"])
        as (p' & Hc & Hcs & Hs).
      exists p'. split; [exact Hc|]. split; [exact Hcs|].
      split; [exact Hs|].
      intros Hall. apply Forall_cons in Hall as [Hq _].
      rewrite Hg in Hq. discriminate.
Qed.

(** ** Escaping *)

Lemma append_associative (a b c : string) : (a +:+ b) +:+ c = a +:+ (b +:+ c).
Proof.
  induction a as [|x a IH]; [reflexivity|].
  change (String x ((a +:+ b) +:+ c) = String x (a +:+ (b +:+ c))). now rewrite IH.
Qed.

Lemma replaceAll_app (c : ascii) (repl s1 s2 : string) :
  Html.replaceAll c repl (s1 +:+ s2)
  = Html.replaceAll c repl s1 +:+ Html.replaceAll c repl s2.
Proof.
  induction s1 as [|a s1 IH]; [reflexivity|].
  change (Html.replaceAll c repl (String a (s1 +:+ s2))
          = Html.replaceAll c repl (String a s1) +:+ Html.replaceAll c repl s2).
  change (Html.replaceAll c repl (String a (s1 +:+ s2)))
    with (if Ascii.eqb a c then repl +:+ Html.replaceAll c repl (s1 +:+ s2)
          else String a (Html.replaceAll c repl (s1 +:+ s2))).
  change (Html.replaceAll c repl (String a s1))
    with (if Ascii.eqb a c then repl +:+ Html.replaceAll c repl s1
          else String a (Html.replaceAll c repl s1)).
  rewrite IH. destruct (Ascii.eqb a c); [|reflexivity].
  now rewrite append_associative.
Qed.

Lemma escapeHtml_app (s1 s2 : string) :
  Html.escapeHtml (s1 +:+ s2) = Html.escapeHtml s1 +:+ Html.escapeHtml s2.
Proof. unfold Html.escapeHtml. now rewrite !replaceAll_app. Qed.

Lemma escapeHtml_one (a : ascii) :
  Html.escapeHtml (String a EmptyString)
  = if Ascii.eqb a "&"%char then "&amp;"
    else if Ascii.eqb a "<"%char then "&lt;"
    else if Ascii.eqb a ">"%char then "&gt;"
    else if Ascii.eqb a Html.quote then "&quot;"
    else if Ascii.eqb a "'"%char then "&#039;"
    else String a EmptyString.
Proof.
  unfold Html.escapeHtml. cbn [Html.replaceAll].
  destruct (Ascii.eqb a "&"%char) eqn:E1; [reflexivity|]. cbn [Html.replaceAll].
  destruct (Ascii.eqb a "<"%char) eqn:E2; [reflexivity|]. cbn [Html.replaceAll].
  destruct (Ascii.eqb a ">"%char) eqn:E3; [reflexivity|]. cbn [Html.replaceAll].
  destruct (Ascii.eqb a Html.quote) eqn:E4; [reflexivity|]. cbn [Html.replaceAll].
  destruct (Ascii.eqb a "'"%char) eqn:E5; reflexivity.
Qed.

Lemma escapeHtml_cons (a : ascii) (s : string) :
  Html.escapeHtml (String a s)
  = Html.escapeHtml (String a EmptyString) +:+ Html.escapeHtml s.
Proof. now rewrite <- escapeHtml_app. Qed.

Lemma clean_app (s1 s2 : string) :
  Html.clean (s1 +:+ s2) = (Html.clean s1 && Html.clean s2)%bool.
Proof.
  induction s1 as [|a s1 IH]; [reflexivity|].
  change (Html.clean (String a (s1 +:+ s2))
          = (Html.clean (String a s1) && Html.clean s2)%bool).
  change (Html.clean (String a (s1 +:+ s2)))
    with (negb (Html.special a) && Html.clean (s1 +:+ s2))%bool.
  change (Html.clean (String a s1))
    with (negb (Html.special a) && Html.clean s1)%bool.
  now rewrite IH, andb_assoc.
Qed.

(** X17: the text [_escapeHtml] returns holds none of the characters
    [<], [>], the double quote and the apostrophe; escaping goes through
    concatenation; and a text without these characters and without
    ampersand comes back unchanged. *)
Theorem escaped_text_is_clean (s1 s2 : string) :
  Html.clean (Html.escapeHtml s1) = true
  /\ Html.escapeHtml (s1 +:+ s2) = Html.escapeHtml s1 +:+ Html.escapeHtml s2
  /\ (Html.plain s1 = true -> Html.escapeHtml s1 = s1).
Proof.
  split; [|split; [apply escapeHtml_app|]].
  - induction s1 as [|a s1 IH]; [reflexivity|].
    rewrite escapeHtml_cons, clean_app, IH, andb_true_r, escapeHtml_one.
    destruct (Ascii.eqb a "&"%char); [reflexivity|].
    destruct (Ascii.eqb a "<"%char) eqn:E2; [reflexivity|].
    destruct (Ascii.eqb a ">"%char) eqn:E3; [reflexivity|].
    destruct (Ascii.eqb a Html.quote) eqn:E4; [reflexivity|].
    destruct (Ascii.eqb a "'"%char) eqn:E5; [reflexivity|].
    cbn. unfold Html.special. now rewrite E2, E3, E4, E5.
  - induction s1 as [|a s1 IH]; [reflexivity|].
    cbn [Html.plain]. intros H. apply andb_true_iff in H as [H Hp].
    apply andb_true_iff in H as [Hs Ha]. apply negb_true_iff in Hs, Ha.
    unfold Html.special in Hs.
    apply orb_false_iff in Hs as [Hs E5]. apply orb_false_iff in Hs as [Hs E4].
    apply orb_false_iff in Hs as [E2 E3].
    rewrite escapeHtml_cons, escapeHtml_one, Ha, E2, E3, E4, E5, (IH Hp).
    reflexivity.
Qed.

Lemma escaped_text_is_clean_witness :
  Html.escapeHtml "order 66" = "order 66".
Proof.
  apply (escaped_text_is_clean "order 66" ""). reflexivity.
Defined.

(** X18: [_escapeHtml] loses nothing: two texts with the same escaped form
    are the same text. *)
Theorem escaping_is_injective (s1 s2 : string) :
  Html.escapeHtml s1 = Html.escapeHtml s2 -> s1 = s2.
Proof.
  revert s2. induction s1 as [|a1 s1 IH]; intros [|a2 s2] H.
  - reflexivity.
  - rewrite escapeHtml_cons, escapeHtml_one in H. exfalso.
    repeat match type of H with
           | context [if ?b then _ else _] => destruct b
           end; discriminate H.
  - rewrite escapeHtml_cons, escapeHtml_one in H. exfalso.
    repeat match type of H with
           | context [if ?b then _ else _] => destruct b
           end; discriminate H.
  - rewrite (escapeHtml_cons a1), (escapeHtml_cons a2), !escapeHtml_one in H.
    destruct (Ascii.eqb a1 "&"%char) eqn:A1;
      [apply Ascii.eqb_eq in A1|
       destruct (Ascii.eqb a1 "<"%char) eqn:A2;
       [apply Ascii.eqb_eq in A2|
        destruct (Ascii.eqb a1 ">"%char) eqn:A3;
        [apply Ascii.eqb_eq in A3|
         destruct (Ascii.eqb a1 Html.quote) eqn:A4;
         [apply Ascii.eqb_eq in A4|
          destruct (Ascii.eqb a1 "'"%char) eqn:A5;
          [apply Ascii.eqb_eq in A5|]]]]];
      (destruct (Ascii.eqb a2 "&"%char) eqn:B1;
       [apply Ascii.eqb_eq in B1|
        destruct (Ascii.eqb a2 "<"%char) eqn:B2;
        [apply Ascii.eqb_eq in B2|
         destruct (Ascii.eqb a2 ">"%char) eqn:B3;
         [apply Ascii.eqb_eq in B3|
          destruct (Ascii.eqb a2 Html.quote) eqn:B4;
          [apply Ascii.eqb_eq in B4|
           destruct (Ascii.eqb a2 "'"%char) eqn:B5;
           [apply Ascii.eqb_eq in B5|]]]]]);
      subst; cbn [String.append] in H; try discriminate H;
      try (injection H as H; f_equal; now apply IH);
      try (injection H as Ha H; subst;
           first [ rewrite Ascii.eqb_refl in *; discriminate
                 | f_equal; now apply IH ]).
Qed.

(** ** Listing queues *)

Section Listing.
Context {W : Type} (admin : Admin.Client W).

Lemma queuesOfConnection_owned st connection (w : W) q c :
  In (q, c) (snd (Admin.queuesOfConnection admin st connection w)) ->
  c = connection
  /\ Queue.connectionId q = Connection.id connection
  /\ Js.truthy (Store.getConnectionString (Connection.id connection) st) = true.
Proof.
  unfold Admin.queuesOfConnection.
  destruct (Store.getConnectionString (Connection.id connection) st) as [cs|];
    [|intros []].
  destruct (Js.truthy (Some cs)) eqn:Ht; [|intros []].
  destruct (Admin.newClient admin cs w) as [w1 [e|]]; [intros []|].
  destruct (Admin.listQueues admin cs w1) as [w2 [names ending]]. cbn.
  intros H. apply in_map_iff in H as (n & Heq & _). injection Heq as <- <-.
  split; [reflexivity|]. split; reflexivity.
Qed.

(** X19: [getAllQueues] never throws, and every queue it returns belongs to
    one of the provider's connections: the pair holds that connection, the
    queue carries its id, and the connection has a non-empty secret.
    Connections without secret and connections whose client cannot be
    created contribute nothing; a listing that throws contributes the queues
    it yielded before. *)
Theorem listed_queues_belong_to_connections st (w : W) q c connection names e :
  (In (q, c) (snd (Admin.getAllQueues admin st w)) ->
   In c (Store.connections st)
   /\ Queue.connectionId q = Connection.id c
   /\ Js.truthy (Store.getConnectionString (Connection.id c) st) = true)
  /\ (Js.truthy (Store.getConnectionString (Connection.id connection) st) = false ->
      Admin.queuesOfConnection admin st connection w = (w, []))
  /\ (forall cs w1 w2,
        Store.getConnectionString (Connection.id connection) st = Some cs ->
        Js.truthy (Some cs) = true ->
        Admin.newClient admin cs w = (w1, None) ->
        Admin.listQueues admin cs w1 = (w2, (names, Some e)) ->
        Admin.queuesOfConnection admin st connection w
        = (w2, map (fun n => (Admin.queueOf connection n, connection)) names)).
Proof.
  split; [|split].
  - unfold Admin.getAllQueues. generalize (Store.connections st) as conns.
    intros conns. revert w. induction conns as [|a conns IH]; intros w; [intros []|].
    cbn [Admin.allQueuesFrom].
    pose proof (queuesOfConnection_owned st a w q c) as Ha.
    destruct (Admin.queuesOfConnection admin st a w) as [w1 found].
    specialize (IH w1).
    destruct (Admin.allQueuesFrom admin st conns w1) as [w2 more].
    cbn in *. intros H. apply in_app_or in H as [H|H].
    + destruct (Ha H) as (-> & Hid & Ht). split; [now left|now split].
    + destruct (IH H) as (Hin & Hid & Ht). split; [now right|now split].
  - unfold Admin.queuesOfConnection.
    destruct (Store.getConnectionString (Connection.id connection) st) as [cs|];
      [|reflexivity].
    intros Ht. now rewrite Ht.
  - intros cs w1 w2 Hcs Ht Hnew Hlist. unfold Admin.queuesOfConnection.
    now rewrite Hcs, Ht, Hnew, Hlist.
Qed.

Lemma itemsFor_run connection cs names (w : W) :
  M.log (Admin.itemsFor admin connection cs names w) = []
  /\ match M.completion (Admin.itemsFor admin connection cs names w) with
     | Normal items =>
         map (fun it => Queue.name (Admin.queue it)) items = names
         /\ Forall (fun it =>
                      Queue.connectionId (Admin.queue it) = Connection.id connection
                      /\ Admin.label it
                         = Queue.name (Admin.queue it) +:+ " (" +:+
                           Js.intToString (Admin.activeMessageCount (Admin.stats it))
                           +:+ ")") items
     | Abrupt _ => True
     end.
Proof.
  revert w. induction names as [|n names IH]; intros w.
  - cbn. repeat split; constructor.
  - cbn [Admin.itemsFor]. unfold M.bind, Admin.lift.
    destruct (Admin.getQueueRuntimeProperties admin cs n w) as [w1 [e|props]];
      [now split|].
    destruct (IH w1) as [Hlog Hc].
    destruct (Admin.itemsFor admin connection cs names w1) as [[w2 ev2] [items|e]];
      cbn in *; subst ev2; [|now split].
    destruct Hc as [Hn Hall]. split; [reflexivity|]. split; [now rewrite Hn|].
    constructor; [now split|exact Hall].
Qed.

(** X20: [getQueues] never throws and is all or nothing.  Either nothing is
    shown and every tree item it returns belongs to the connection and is
    labelled with the queue's name and message count; or it returns no item
    at all and shows exactly one error.  The second is what happens when the
    secret is missing and when the listing ends with an exception: the
    queues yielded before the exception are dropped. *)
Theorem queue_listing_is_all_or_nothing st connection (w : W) :
  let run := Admin.getQueues admin st connection w in
  exists items,
    M.completion run = Normal items
    /\ ((M.log run = []
         /\ Forall (fun it =>
                      Queue.connectionId (Admin.queue it) = Connection.id connection
                      /\ Admin.label it
                         = Queue.name (Admin.queue it) +:+ " (" +:+
                           Js.intToString (Admin.activeMessageCount (Admin.stats it))
                           +:+ ")") items)
        \/ (items = [] /\ exists text, M.log run = [EvShowError text]))
    /\ (Js.truthy (Store.getConnectionString (Connection.id connection) st) = false ->
        items = []
        /\ M.log run
           = [EvShowError ("Connection string not found for "
                           +:+ Connection.name connection)])
    /\ (forall cs w1 w2 names e,
          Store.getConnectionString (Connection.id connection) st = Some cs ->
          Js.truthy (Some cs) = true ->
          Admin.newClient admin cs w = (w1, None) ->
          Admin.listQueues admin cs w1 = (w2, (names, Some e)) ->
          items = [] /\ exists text, M.log run = [EvShowError text]).
Proof.
  cbn zeta. unfold Admin.getQueues, M.tryCatch.
  destruct (Store.getConnectionString (Connection.id connection) st) as [cs|] eqn:Hcs.
  - destruct (Js.truthy (Some cs)) eqn:Ht.
    + unfold M.bind, Admin.liftUnit.
      destruct (Admin.newClient admin cs w) as [w1 [e|]] eqn:Hnew.
      * cbn. exists []. split; [reflexivity|]. split; [right; eauto|].
        split; [discriminate|]. intros cs' w1' w2 names e' Heq _ Hn _.
        injection Heq as <-. rewrite Hnew in Hn. discriminate.
      * destruct (Admin.listQueues admin cs w1) as [w2 [names ending]] eqn:Hlist.
        cbn [fst snd].
        destruct (itemsFor_run connection cs names w2) as [Hlog Hitems].
        destruct (Admin.itemsFor admin connection cs names w2)
          as [[w3 ev3] [items|e]]; cbn in Hlog, Hitems; subst ev3.
        -- destruct ending as [e|]; cbn.
           ++ exists []. split; [reflexivity|]. split; [right; eauto|].
              split; [discriminate|]. intros; eauto.
           ++ exists items. split; [reflexivity|]. split; [left; tauto|].
              split; [discriminate|]. intros cs' w1' w2' names' e' Heq _ Hn Hl.
              injection Heq as <-. rewrite Hnew in Hn. injection Hn as <-.
              rewrite Hlist in Hl. discriminate.
        -- cbn. exists []. split; [reflexivity|]. split; [right; eauto|].
           split; [discriminate|]. intros; eauto.
    + cbn. exists []. split; [reflexivity|]. split; [right; eauto|].
      split; [intros _; now split|].
      intros cs' w1 w2 names e Heq Ht'. injection Heq as <-.
      cbn in Ht, Ht'. congruence.
  - cbn. exists []. split; [reflexivity|]. split; [right; eauto|].
    split; [intros _; now split|]. intros cs' w1 w2 names e Heq. discriminate.
Qed.

End Listing.

Lemma listed_queues_belong_to_connections_witness :
  Admin.queuesOfConnection
    (Faulty.catalogue [(Script.secret, ([("orders", 3%Z); ("archive", 0%Z)],
                                        Some (Js.ErrorObj "timeout")))])
    Script.store
    {| Connection.id := "c1"; Connection.name := "prod";
       Connection.connectionString := ""; Connection.createdAt := 0 |} tt
  = (tt,
     [({| Queue.name := "orders"; Queue.connectionId := "c1" |},
       {| Connection.id := "c1"; Connection.name := "prod";
          Connection.connectionString := ""; Connection.createdAt := 0 |});
      ({| Queue.name := "archive"; Queue.connectionId := "c1" |},
       {| Connection.id := "c1"; Connection.name := "prod";
          Connection.connectionString := ""; Connection.createdAt := 0 |})]).
Proof.
  destruct (listed_queues_belong_to_connections
              (Faulty.catalogue [(Script.secret, ([("orders", 3%Z); ("archive", 0%Z)],
                                                  Some (Js.ErrorObj "timeout")))])
              Script.store tt Script.orders
              {| Connection.id := "c1"; Connection.name := "prod";
                 Connection.connectionString := ""; Connection.createdAt := 0 |}
              {| Connection.id := "c1"; Connection.name := "prod";
                 Connection.connectionString := ""; Connection.createdAt := 0 |}
              ["orders"; "archive"] (Js.ErrorObj "timeout")) as (_ & _ & Hkept).
  apply (Hkept Script.secret tt tt); vm_compute; reflexivity.
Defined.

Lemma queue_listing_is_all_or_nothing_witness :
  exists items,
    M.completion
      (Admin.getQueues
         (Faulty.catalogue [(Script.secret, ([("orders", 3%Z); ("archive", 0%Z)],
                                             Some (Js.ErrorObj "timeout")))])
         Script.store
         {| Connection.id := "c1"; Connection.name := "prod";
            Connection.connectionString := ""; Connection.createdAt := 0 |} tt)
    = Normal items
    /\ items = [].
Proof.
  destruct (queue_listing_is_all_or_nothing
              (Faulty.catalogue [(Script.secret, ([("orders", 3%Z); ("archive", 0%Z)],
                                                  Some (Js.ErrorObj "timeout")))])
              Script.store
              {| Connection.id := "c1"; Connection.name := "prod";
                 Connection.connectionString := ""; Connection.createdAt := 0 |} tt)
    as (items & Hc & _ & _ & Hfail).
  exists items. split; [exact Hc|].
  apply (Hfail Script.secret tt tt ["orders"; "archive"] (Js.ErrorObj "timeout"));
    vm_compute; reflexivity.
Defined.

(** ** From the panel to the broker *)

Section PanelToBroker.
Context {W : Type} (sdk : Sdk W).

Lemma each_log_forall_in (P : Event -> Prop)
    (attempt : MessageData.t -> M.t (W := W) unit) msgs r w :
  (forall m w', In m msgs -> Forall P (M.log (attempt m w'))) ->
  Forall P (M.log (Bulk.each attempt msgs r w)).
Proof.
  revert r w. induction msgs as [|m msgs IH]; intros r w Hatt.
  - constructor.
  - rewrite each_step. pose proof (Hatt m w (or_introl eq_refl)) as Hm.
    assert (Hrest : forall m' w', In m' msgs -> Forall P (M.log (attempt m' w')))
      by (intros m' w' Hin; apply Hatt; now right).
    destruct (attempt m w) as [[w1 ev1] [u|e]]; cbn in Hm.
    + specialize (IH (pushSuccessful r m) w1 Hrest).
      destruct (Bulk.each attempt msgs (pushSuccessful r m) w1) as [[w2 ev2] c].
      cbn in *. apply Forall_app. now split.
    + specialize (IH (pushFailed r m (Js.errorMessage e)) w1 Hrest).
      destruct (Bulk.each attempt msgs (pushFailed r m (Js.errorMessage e)) w1)
        as [[w2 ev2] c].
      cbn in *. apply Forall_app. now split.
Qed.

Lemma deleteAttempt_connection queueName msg scs (w : W) :
  MessageData.sourceConnectionString msg = Some scs ->
  Forall (fun e => Trace.connectionOf e = Some scs)
    (M.log (Provider.deleteAttempt sdk queueName msg w)).
Proof.
  intros Hs. unfold Provider.deleteAttempt. rewrite Hs.
  destruct (Js.truthy (Some scs)); [|constructor].
  eapply Forall_impl;
    [exact (delete_sdk_only _ _ _ _ _
              (deleteMessageFromQueue_shape sdk scs queueName
                 (MessageData.sequenceNumber msg) w))|].
  cbn. tauto.
Qed.

(** X21: a delete requested from the panel stays on the panel's queue and
    connection.  The handler passes the posted snapshots on with the panel's
    queue and connection string attached; once the modal is answered
    "Delete", every SDK call of the run names that queue (if it names one)
    and works with that connection string, whatever the snapshots said
    before; with any other answer nothing is called and nothing is shown. *)
Theorem panel_delete_stays_on_panel_queue panel data pending panelOpen answer (w : W) :
  normalize data <> [] ->
  Js.truthy (Some (Panel.connectionString panel)) = true ->
  let msgs := map (Panel.attachSource panel) (normalize data) in
  let run := Extension.deleteMessagesCommand sdk panelOpen answer (Many msgs) w in
  snd (Panel.onDidReceiveMessage panel "deleteMessages" data pending)
  = [Panel.ExecuteCommand "busdriver.deleteMessages" msgs]
  /\ (answer = Some "Delete" ->
      (exists r, M.completion run = Normal (Some r))
      /\ Forall (fun e =>
                   (Log.queueOf e = None
                    \/ Log.queueOf e = Some (Queue.name (Panel.queue panel)))
                   /\ (Trace.connectionOf e = None
                       \/ Trace.connectionOf e = Some (Panel.connectionString panel)))
           (M.log run))
  /\ (answer <> Some "Delete" -> run = (w, [], Normal None)).
Proof.
  intros Hne Ht msgs run. split; [reflexivity|]. split.
  - intros ->. subst run msgs. unfold Extension.deleteMessagesCommand.
    rewrite String.eqb_refl.
    destruct (normalize data) as [|m0 rest0] eqn:Hn; [now contradiction Hne|].
    destruct (deleteMessages_unfold sdk panelOpen
                (Many (map (Panel.attachSource panel) (m0 :: rest0)))
                (Panel.attachSource panel m0) (map (Panel.attachSource panel) rest0)
                (Panel.queue panel) w) as (r & _ & Hrun);
      [reflexivity|reflexivity|exact Ht|].
    cbn zeta in Hrun. rewrite Hrun. split; [now exists r|].
    cbn [M.log fst snd]. constructor; [cbn; tauto|].
    apply Forall_app. split.
    + rewrite deleteLoop_each. apply each_log_forall_in.
      intros m w' Hin. change (Panel.attachSource panel m0
                               :: map (Panel.attachSource panel) rest0)
        with (map (Panel.attachSource panel) (m0 :: rest0)) in Hin.
      apply in_map_iff in Hin as (m1 & <- & _).
      pose proof (deleteAttempt_queue sdk (Queue.name (Panel.queue panel))
                    (Panel.attachSource panel m1) w') as Hq.
      pose proof (deleteAttempt_connection (Queue.name (Panel.queue panel))
                    (Panel.attachSource panel m1) (Panel.connectionString panel) w'
                    eq_refl) as Hc.
      rewrite List.Forall_forall in Hq, Hc. apply List.Forall_forall.
      intros e He. split; [now apply Hq|right; now apply Hc].
    + constructor.
      * pose proof (deleteSummary_no_sdk (length (Panel.attachSource panel m0
                                                  :: map (Panel.attachSource panel) rest0))
                      (Queue.name (Panel.queue panel)) r) as Hs.
        destruct (Provider.deleteSummary _ _ r); try discriminate; cbn; tauto.
      * apply Forall_app. split; [|repeat constructor; cbn; tauto].
        destruct (panelOpen && _)%bool; repeat constructor; cbn; tauto.
  - intros Hans. subst run msgs. unfold Extension.deleteMessagesCommand.
    destruct answer as [label|]; [|reflexivity].
    destruct (String.eqb label "Delete") eqn:Heq; [|reflexivity].
    apply String.eqb_eq in Heq. subst. now contradiction Hans.
Qed.

End PanelToBroker.

Lemma panel_delete_stays_on_panel_queue_witness :
  Forall (fun e =>
            (Log.queueOf e = None \/ Log.queueOf e = Some "orders")
            /\ (Trace.connectionOf e = None
                \/ Trace.connectionOf e = Some Script.secret))
    (M.log (Extension.deleteMessagesCommand (Script.sdk Script.noFaults) true
              (Some "Delete")
              (Many (map (Panel.attachSource Script.panel)
                       [Script.row 1; Script.elsewhere]))
              (Script.start [[Script.inbound 1; Script.inbound 2]; [Script.inbound 2]]))).
Proof.
  apply (panel_delete_stays_on_panel_queue (Script.sdk Script.noFaults) Script.panel
           (Many [Script.row 1; Script.elsewhere]) None true (Some "Delete")
           (Script.start [[Script.inbound 1; Script.inbound 2]; [Script.inbound 2]])).
  - discriminate.
  - reflexivity.
  - reflexivity.
Defined.

(** ** The move command without listed queues *)

Lemma allQueuesFrom_unusable {W : Type} (admin : Admin.Client W) st conns (w : W) :
  Forall (fun c => Js.truthy (Store.getConnectionString (Connection.id c) st) = false)
    conns ->
  Admin.allQueuesFrom admin st conns w = (w, []).
Proof.
  induction 1 as [|c conns Hc _ IH]; [reflexivity|].
  cbn [Admin.allQueuesFrom]. unfold Admin.queuesOfConnection.
  destruct (Store.getConnectionString (Connection.id c) st) as [cs|].
  - rewrite Hc. now rewrite IH.
  - now rewrite IH.
Qed.

(** X22: when no connection has a usable secret, which is the state a
    restart followed by a save leaves the older connections in, the move
    command finds no queue: it shows "No queues available", asks for no
    target and makes no SDK call, whatever was selected in the panel. *)
Theorem move_command_needs_a_usable_secret {W : Type} (admin : Admin.Client W)
    (sdk : Sdk W) st panelOpen pick messageData (w : W) :
  Forall (fun c => Js.truthy (Store.getConnectionString (Connection.id c) st) = false)
    (Store.connections st) ->
  Admin.moveCommand admin sdk st panelOpen pick messageData w
  = (w, [EvShowError "No queues available"], Normal None).
Proof.
  intros H. unfold Admin.moveCommand, Admin.getAllQueues.
  now rewrite (allQueuesFrom_unusable admin st _ w H).
Qed.

Lemma move_command_needs_a_usable_secret_witness :
  Admin.moveCommand
    (Faulty.catalogue [(Script.secret, ([("orders", 3%Z)], None))])
    (Script.sdk Script.noFaults)
    (Store.deleteConnection
       {| Connection.id := "c2"; Connection.name := "dev";
          Connection.connectionString := ""; Connection.createdAt := 1 |}
       (Some "Delete")
       (Store.loadConnections
          (Store.addConnection (Some "dev") (Some "Endpoint=sb://dev/") "c2" 1
             Script.store)))
    true (fun offered => List.head offered) (Many Script.selection)
    (Script.start [[Script.inbound 1]])
  = (Script.start [[Script.inbound 1]], [EvShowError "No queues available"],
     Normal None).
Proof.
  apply (move_command_needs_a_usable_secret
           (Faulty.catalogue [(Script.secret, ([("orders", 3%Z)], None))])
           (Script.sdk Script.noFaults)).
  constructor; [reflexivity|constructor].
Defined.

Lemma empty_batch_is_announced_as_moved_witness :
  M.log (Provider.moveMessageToQueue (Script.sdk Script.noFaults) Script.store true
           (Many []) Script.archive (Script.start [[Script.inbound 1]]))
  = [EvProgress "Moving message to archive...";
     EvShowInformation "Message moved to archive";
     EvRefreshTree].
Proof.
  destruct (empty_batch_is_announced_as_moved (Script.sdk Script.noFaults)
              Script.store true Script.archive Script.secret
              (Script.start [[Script.inbound 1]])) as [Hmove _];
    [vm_compute; reflexivity|reflexivity|].
  exact (f_equal (fun x => snd (fst x)) Hmove).
Defined.

Lemma escaping_is_injective_witness :
  "a<b & c" = "a<b & c".
Proof.
  apply (escaping_is_injective "a<b & c" "a<b & c"). reflexivity.
Defined.
